(** * SDL2Gamepad: the SDL2 back-end of the PAD plugin

    A shallow embedding of [pcsx2/PAD/Linux/Devices/SDL2Gamepad.cpp]:
    device enumeration, construction and destruction of a gamepad, the
    binding table, rumble, and the translation of raw axis, trigger and
    button state into pad values.

    The SDL library is an external collaborator.  Its answers are the
    fields of a record [SDL]; every call that has an effect on the library
    is appended to a chronological log, and the answer to such a call may
    depend on the log so far.  The floating point arithmetic of [GetInput]
    is the binary32 and binary64 arithmetic of [SpecFloat]. *)

From Stdlib Require Import ZArith Lia Bool String.
From Stdlib Require Import SpecFloat Sorted.
From stdpp Require Import base list.

Local Open Scope Z_scope.

(** ** Handles and descriptors *)

(** Opaque library handles; a C pointer is an [option], [None] being
    [nullptr]. *)
Definition SDL_GameController := nat.
Definition SDL_Joystick := nat.
Definition SDL_Haptic := nat.

Inductive haptic_type := SDL_HAPTIC_SINE | SDL_HAPTIC_TRIANGLE.

Inductive direction_type := SDL_HAPTIC_POLAR | SDL_HAPTIC_CARTESIAN | SDL_HAPTIC_SPHERICAL.

(** [SDL_HapticDirection]: the constructor writes [type] and [dir[0]] of a
    local that is not initialised, so [dir[1]] and [dir[2]] are
    indeterminate ([None]). *)
Record SDL_HapticDirection := {
  dir_type : direction_type;
  dir0 : Z;
  dir1 : option Z;
  dir2 : option Z
}.

(** [SDL_HapticEffect] seen through its [periodic] member. *)
Record SDL_HapticEffect := {
  eff_type : haptic_type;
  eff_direction : SDL_HapticDirection;
  eff_length : Z;
  eff_delay : Z;
  eff_button : Z;
  eff_interval : Z;
  eff_period : Z;
  eff_magnitude : Z;
  eff_offset : Z;
  eff_phase : Z;
  eff_attack_length : Z;
  eff_attack_level : Z;
  eff_fade_length : Z;
  eff_fade_level : Z
}.

Inductive stream := stdout | stderr.

(** The messages the file prints. *)
Inductive message :=
| Msg_effect_not_working (id : Z)
| Msg_failed_to_open (id : Z)
| Msg_not_supported (name guid : string)
| Msg_effect_not_uploaded
| Msg_detected (name : string) (rumble : bool) (guid : string).

Inductive signal := SIGINT | SIGTERM.

(** Calls that change something outside the device object: calls into the
    back-end, [sigaction] and [fprintf]. *)
Inductive sdl_call :=
| Call_SetHint_background_events
| Call_Init (flag : Z)
| Call_sigaction_default (s : signal)
| Call_JoystickEventState_query
| Call_GameControllerEventState_query
| Call_EventState_enable_added
| Call_EventState_enable_removed
| Call_AddMappingsFromRW
| Call_AddMapping (mapping : string)
| Call_GameControllerOpen (id : Z)
| Call_JoystickOpen (id : Z)
| Call_JoystickClose (j : SDL_Joystick)
| Call_GameControllerClose (c : SDL_GameController)
| Call_HapticOpenFromJoystick (j : SDL_Joystick)
| Call_HapticNewEffect (h : option SDL_Haptic) (e : SDL_HapticEffect)
| Call_HapticRunEffect (h : SDL_Haptic) (id : Z) (iterations : Z)
| Call_HapticDestroyEffect (h : SDL_Haptic) (id : Z)
| Call_HapticClose (h : SDL_Haptic)
| Call_fprintf (s : stream) (m : message).

Definition log := list sdl_call.

(** A call into the haptic subsystem. *)
Definition is_haptic_call (c : sdl_call) : bool :=
  match c with
  | Call_HapticOpenFromJoystick _ | Call_HapticNewEffect _ _
  | Call_HapticRunEffect _ _ _ | Call_HapticDestroyEffect _ _
  | Call_HapticClose _ => true
  | _ => false
  end.

(** ** The library and the configuration *)

(** The SDL build the file is compiled against and runs with: its constants
    and what it answers.  The list of attached joysticks is only refreshed
    when events are pumped, which nothing here does while it enumerates, so
    the queries about it take no log; the result of a call that initialises,
    opens or uploads something takes the log before the call. *)
Record SDL := {
  SDL_MINOR_VERSION : Z;
  SDL_INIT_JOYSTICK : Z;
  SDL_INIT_HAPTIC : Z;
  SDL_INIT_EVENTS : Z;
  SDL_INIT_GAMECONTROLLER : Z;
  SDL_WasInit : log -> Z;
  SDL_Init : log -> Z -> Z;
  SDL_NumJoysticks : Z;
  SDL_IsGameController : Z -> bool;
  SDL_GameControllerOpen : log -> Z -> option SDL_GameController;
  SDL_GameControllerGetJoystick : option SDL_GameController -> option SDL_Joystick;
  SDL_JoystickOpen : log -> Z -> option SDL_Joystick;
  SDL_JoystickGetGUIDString : SDL_Joystick -> string;
  SDL_JoystickNameForIndex : Z -> string;
  SDL_JoystickIsHaptic : SDL_Joystick -> bool;
  SDL_HapticOpenFromJoystick : log -> SDL_Joystick -> option SDL_Haptic;
  SDL_HapticNewEffect : log -> option SDL_Haptic -> SDL_HapticEffect -> Z;
  SDL_HapticRunEffect : log -> SDL_Haptic -> Z -> Z -> Z;
  SDL_GameControllerGetAxis : option SDL_GameController -> Z -> Z;
  SDL_GameControllerGetButton : option SDL_GameController -> Z -> Z
}.

(** [g_conf], as far as this file reads it. *)
Record PADconf := {
  get_sensibility : Z;
  get_ff_intensity : Z;
  forcefeedback : nat -> bool;
  sdl2_mapping : list string
}.

(** ** The device object *)

Record SDL2Gamepad := {
  m_controller : option SDL_GameController;
  m_haptic : option SDL_Haptic;
  m_effects_id : list Z;
  m_unique_id : Z;
  m_bindings : list Z;
  m_device_name : string;
  m_deadzone : Z;
  m_no_error : bool
}.

Definition set_controller (c : option SDL_GameController) (d : SDL2Gamepad) :=
  {| m_controller := c; m_haptic := m_haptic d;
     m_effects_id := m_effects_id d; m_unique_id := m_unique_id d;
     m_bindings := m_bindings d; m_device_name := m_device_name d;
     m_deadzone := m_deadzone d; m_no_error := m_no_error d |}.

Definition set_haptic (h : option SDL_Haptic) (d : SDL2Gamepad) :=
  {| m_controller := m_controller d; m_haptic := h;
     m_effects_id := m_effects_id d; m_unique_id := m_unique_id d;
     m_bindings := m_bindings d; m_device_name := m_device_name d;
     m_deadzone := m_deadzone d; m_no_error := m_no_error d |}.

Definition set_effects_id (ids : list Z) (d : SDL2Gamepad) :=
  {| m_controller := m_controller d; m_haptic := m_haptic d;
     m_effects_id := ids; m_unique_id := m_unique_id d;
     m_bindings := m_bindings d; m_device_name := m_device_name d;
     m_deadzone := m_deadzone d; m_no_error := m_no_error d |}.

Definition set_unique_id (u : Z) (d : SDL2Gamepad) :=
  {| m_controller := m_controller d; m_haptic := m_haptic d;
     m_effects_id := m_effects_id d; m_unique_id := u;
     m_bindings := m_bindings d; m_device_name := m_device_name d;
     m_deadzone := m_deadzone d; m_no_error := m_no_error d |}.

Definition set_bindings (b : list Z) (d : SDL2Gamepad) :=
  {| m_controller := m_controller d; m_haptic := m_haptic d;
     m_effects_id := m_effects_id d; m_unique_id := m_unique_id d;
     m_bindings := b; m_device_name := m_device_name d;
     m_deadzone := m_deadzone d; m_no_error := m_no_error d |}.

Definition set_device_name (n : string) (d : SDL2Gamepad) :=
  {| m_controller := m_controller d; m_haptic := m_haptic d;
     m_effects_id := m_effects_id d; m_unique_id := m_unique_id d;
     m_bindings := m_bindings d; m_device_name := n;
     m_deadzone := m_deadzone d; m_no_error := m_no_error d |}.

Definition set_no_error (b : bool) (d : SDL2Gamepad) :=
  {| m_controller := m_controller d; m_haptic := m_haptic d;
     m_effects_id := m_effects_id d; m_unique_id := m_unique_id d;
     m_bindings := m_bindings d; m_device_name := m_device_name d;
     m_deadzone := m_deadzone d; m_no_error := b |}.

(** Modelled from the spec: [Device::IsProperlyInitialized] is declared in a
    header that is not part of the sources; the spec has it read
    [initialized_ok], the flag the constructor sets last. *)
Definition IsProperlyInitialized (d : SDL2Gamepad) : bool := m_no_error d.

(** ** Logging state *)

Definition M (A : Type) : Type := log -> A * log.

Definition ret {A} (a : A) : M A := fun t => (a, t).

Definition bind {A B} (c : M A) (k : A -> M B) : M B :=
  fun t => let (a, t') := c t in k a t'.

Notation "'do' x <- c ; k" := (bind c (fun x => k))
  (at level 10, x name, c at level 99, k at level 200).
Notation "c ;; k" := (bind c (fun _ => k))
  (at level 100, k at level 200, right associativity).

(** A call whose answer is not used. *)
Definition call (c : sdl_call) : M unit := fun t => (tt, t ++ [c]).

(** A call answered by the library from the log before it. *)
Definition ask {A} (c : sdl_call) (answer : log -> A) : M A :=
  fun t => (answer t, t ++ [c]).

(** [(Sint16) x]. *)
Definition to_Sint16 (x : Z) : Z := (x + 32768) mod 65536 - 32768.

(** ** Numbers

    [float] is IEEE-754 binary32 and [double] binary64, both through the
    parameterised operations of [SpecFloat]; [int] is 32 bits wide. *)

Definition INT_MIN : Z := - 2 ^ 31.
Definition INT_MAX : Z := 2 ^ 31 - 1.

(** [abs] of [<cstdlib>]; the absolute value of [INT_MIN] is not an [int]. *)
Definition abs (x : Z) : option Z :=
  if x =? INT_MIN then None else Some (Z.abs x).

Definition float_mul : spec_float -> spec_float -> spec_float := SFmul 24 128.
Definition double_div : spec_float -> spec_float -> spec_float := SFdiv 53 1024.

(** Integer to floating point conversions, round to nearest even. *)
Definition float_of_int (x : Z) : spec_float := binary_normalize 24 128 x 0 false.
Definition double_of_int (x : Z) : spec_float := binary_normalize 53 1024 x 0 false.

(** [(float) x] for a [double] [x]. *)
Definition float_of_double (x : spec_float) : spec_float :=
  match x with
  | S754_finite s m e => binary_round 24 128 s m e
  | _ => x
  end.

(** The integer a finite floating point number truncates to. *)
Definition truncate (s : bool) (m : positive) (e : Z) : Z :=
  cond_Zopp s (match e with
               | Zneg p => Z.pos m / 2 ^ Z.pos p
               | _ => Z.pos m * 2 ^ e
               end).

(** [(int) x] for a [float] [x]: truncation toward zero, not defined
    ([None]) when the truncated value is not an [int]. *)
Definition int_of_float (x : spec_float) : option Z :=
  match x with
  | S754_zero _ => Some 0
  | S754_finite s m e =>
      let z := truncate s m e in
      if (INT_MIN <=? z) && (z <=? INT_MAX) then Some z else None
  | _ => None
  end.

(** [sensibility / 100.0], converted to [float]: the division is in
    [double]. *)
Definition factor (sensibility : Z) : spec_float :=
  float_of_double (double_div (double_of_int sensibility) (double_of_int 100)).

(** ** The program *)

Section Gamepad.

(** Constants of headers that are not part of the sources. *)
Variable NB_EFFECT : nat.
Variable MAX_KEYS : nat.
Variable default_deadzone : Z.

(** [sdl2_defaults]: the hardcoded (logical input, raw code) pairs, in the
    order the range-for visits them. *)
Variable sdl2_defaults : list (nat * Z).

(** [std::hash<std::string>]. *)
Variable hash_me : string -> Z.

(** The enumeration [gamePadValues] is an index into [m_bindings]; of its
    header the file uses the two triggers and the predicate that tells the
    stick directions. *)
Variable PAD_L2 PAD_R2 : nat.
Variable IsAnalogKey : nat -> bool.

Variable g_conf : PADconf.
Variable sdl : SDL.

(** *** Rumble *)

(** [SDL2Gamepad::Rumble(unsigned type, unsigned pad)].  The object is
    returned so that what the method leaves of it can be stated. *)
Definition Rumble (d : SDL2Gamepad) (type pad : nat) : M SDL2Gamepad :=
  if decide (length (m_effects_id d) <= type)%nat then ret d
  else if negb (forcefeedback g_conf pad) then ret d
  else match m_haptic d with
       | None => ret d
       | Some h =>
           let id := default 0 (m_effects_id d !! type) in
           do r <- ask (Call_HapticRunEffect h id 1)
                       (fun t => SDL_HapticRunEffect sdl t h id 1);
           if negb (r =? 0)
           then call (Call_fprintf stderr (Msg_effect_not_working id));; ret d
           else ret d
       end.

(** *** Destruction *)

(** The loop of the destructor over [m_effects_id]. *)
Fixpoint destroy_effects (h : SDL_Haptic) (ids : list Z) : M unit :=
  match ids with
  | [] => ret tt
  | eid :: rest =>
      (if 0 <=? eid then call (Call_HapticDestroyEffect h eid) else ret tt);;
      destroy_effects h rest
  end.

(** [SDL2Gamepad::~SDL2Gamepad()]. *)
Definition destroy (d : SDL2Gamepad) : M unit :=
  match m_haptic d with
  | Some h => destroy_effects h (m_effects_id d);; call (Call_HapticClose h)
  | None => ret tt
  end;;
  match m_controller d with
  | Some c =>
      if 4 <=? SDL_MINOR_VERSION sdl
      then call (Call_GameControllerClose c) else ret tt
  | None => ret tt
  end.

(** *** The binding table *)

(** [m_bindings.fill(0)]. *)
Definition ClearBindings (d : SDL2Gamepad) : SDL2Gamepad :=
  set_bindings (replicate (length (m_bindings d)) 0) d.

(** The range-for of [ResetBindingsToDefault] on the table alone.  A key of
    the defaults is a [gamePadValues] enumerator, below [MAX_KEYS]; a store
    past the end of the array would be undefined in the source and is no
    store here. *)
Fixpoint store_defaults (defaults : list (nat * Z)) (b : list Z) : list Z :=
  match defaults with
  | [] => b
  | default_bind :: rest =>
      store_defaults rest (<[default_bind.1 := default_bind.2]> b)
  end.

Definition ResetBindingsToDefault (d : SDL2Gamepad) : SDL2Gamepad :=
  set_bindings (store_defaults sdl2_defaults (m_bindings d)) d.

(** *** Construction *)

(** The descriptor the first loop of the constructor stores in
    [effects[i]]. *)
Definition haptic_effect (i : nat) : SDL_HapticEffect :=
  {| eff_type := if decide (i = 0%nat) then SDL_HAPTIC_SINE else SDL_HAPTIC_TRIANGLE;
     eff_direction :=
       {| dir_type := SDL_HAPTIC_POLAR; dir0 := 18000; dir1 := None; dir2 := None |};
     eff_length := 125;
     eff_delay := 0;
     eff_button := 0;
     eff_interval := 0;
     eff_period := 10;
     eff_magnitude := to_Sint16 (get_ff_intensity g_conf);
     eff_offset := 0;
     eff_phase := 18000;
     eff_attack_length := 0;
     eff_attack_level := 0;
     eff_fade_length := 0;
     eff_fade_level := 0 |}.

(** The local array [effects]. *)
Definition effects : list SDL_HapticEffect := map haptic_effect (seq 0 NB_EFFECT).

(** The second loop: [for (auto& eid : m_effects_id)], with the slots
    already visited in [visited] and those to come in [rest].  Every
    iteration uploads [effects[0]]. *)
Fixpoint upload_effects (h : option SDL_Haptic) (visited rest : list Z)
  : M (option SDL_Haptic * list Z) :=
  match rest with
  | [] => ret (h, visited)
  | _ :: rest' =>
      let e := default (haptic_effect 0) (effects !! 0%nat) in
      do eid <- ask (Call_HapticNewEffect h e)
                    (fun t => SDL_HapticNewEffect sdl t h e);
      if eid <? 0
      then call (Call_fprintf stderr Msg_effect_not_uploaded);;
           ret (None, visited ++ eid :: rest')
      else upload_effects h (visited ++ [eid]) rest'
  end.

(** Modelled from the spec: the base class [Device] is declared in a header
    that is not part of the sources; its constructor leaves
    [initialized_ok] false.  The two arrays have their sizes and no
    determined content yet: they are given zeros here, and the constructor
    below is written over any base object. *)
Definition Device_base : SDL2Gamepad :=
  {| m_controller := None; m_haptic := None;
     m_effects_id := replicate NB_EFFECT 0; m_unique_id := 0;
     m_bindings := replicate MAX_KEYS 0; m_device_name := EmptyString;
     m_deadzone := default_deadzone; m_no_error := false |}.

(** [SDL2Gamepad::SDL2Gamepad(int id)], on the object as [Device()] left
    it: the member initialisers [m_controller(nullptr)] and
    [m_haptic(nullptr)], then the body. *)
Definition SDL2Gamepad_from (base : SDL2Gamepad) (id : Z) : M SDL2Gamepad :=
  let d := set_haptic None (set_controller None base) in
  let d := set_effects_id (replicate (length (m_effects_id d)) (-1)) d in
  let d := ClearBindings d in
  let d := ResetBindingsToDefault d in
  do cj <- (if SDL_IsGameController sdl id
            then do c <- ask (Call_GameControllerOpen id)
                             (fun t => SDL_GameControllerOpen sdl t id);
                 ret (c, SDL_GameControllerGetJoystick sdl c)
            else do j <- ask (Call_JoystickOpen id)
                             (fun t => SDL_JoystickOpen sdl t id);
                 ret (m_controller d, j));
  let d := set_controller cj.1 d in
  match cj.2 with
  | None => call (Call_fprintf stderr (Msg_failed_to_open id));; ret d
  | Some joy =>
      let guid := SDL_JoystickGetGUIDString sdl joy in
      let d := set_device_name (SDL_JoystickNameForIndex sdl id) d in
      match m_controller d with
      | None =>
          call (Call_fprintf stderr (Msg_not_supported (m_device_name d) guid));;
          (if 4 <=? SDL_MINOR_VERSION sdl
           then call (Call_JoystickClose joy) else ret tt);;
          ret d
      | Some _ =>
          let d := set_unique_id (hash_me guid) d in
          do d <- (if SDL_JoystickIsHaptic sdl joy
                   then do h <- ask (Call_HapticOpenFromJoystick joy)
                                    (fun t => SDL_HapticOpenFromJoystick sdl t joy);
                        do r <- upload_effects h [] (m_effects_id d);
                        ret (set_effects_id r.2 (set_haptic r.1 d))
                   else ret d);
          call (Call_fprintf stdout
                  (Msg_detected (m_device_name d) (bool_decide (is_Some (m_haptic d))) guid));;
          ret (set_no_error true d)
      end
  end.

(** [SDL2Gamepad(id)], as [std::make_unique<SDL2Gamepad>(i)] runs it. *)
Definition SDL2Gamepad_new (id : Z) : M SDL2Gamepad :=
  SDL2Gamepad_from Device_base id.

(** *** Enumeration *)

(** [devices.clear()] and [devices.pop_back()] run the destructor of what
    they remove. *)
Fixpoint destroy_all (devices : list SDL2Gamepad) : M unit :=
  match devices with
  | [] => ret tt
  | d :: rest => destroy d;; destroy_all rest
  end.

Definition clear (devices : list SDL2Gamepad) : M (list SDL2Gamepad) :=
  destroy_all devices;; ret [].

Definition pop_back (devices : list SDL2Gamepad) : M (list SDL2Gamepad) :=
  match last devices with
  | Some d => destroy d;; ret (removelast devices)
  | None => ret devices
  end.

(** The loop [for (int i = 0; i < SDL_NumJoysticks(); ++i)], with [n]
    indices left from [i] on. *)
Fixpoint enumerate_from (n : nat) (i : Z) (devices : list SDL2Gamepad)
  : M (list SDL2Gamepad) :=
  match n with
  | O => ret devices
  | S n' =>
      do d <- SDL2Gamepad_new i;
      let devices := devices ++ [d] in
      do devices <- (match last devices with
                     | Some back =>
                         if negb (IsProperlyInitialized back)
                         then pop_back devices else ret devices
                     | None => ret devices
                     end);
      enumerate_from n' (i + 1) devices
  end.

(** Adding the user's mappings. *)
Fixpoint add_mappings (maps : list string) : M unit :=
  match maps with
  | [] => ret tt
  | m :: rest => call (Call_AddMapping m);; add_mappings rest
  end.

(** The first block of [EnumerateSDL2]: [false] when the function returns
    from within it. *)
Definition init_flags : Z :=
  Z.lor (Z.lor (Z.lor (SDL_INIT_JOYSTICK sdl) (SDL_INIT_HAPTIC sdl))
               (SDL_INIT_EVENTS sdl)) (SDL_INIT_GAMECONTROLLER sdl).

Definition init_library : M bool := fun t =>
  let flag := init_flags in
  if negb (Z.land (SDL_WasInit sdl t) flag =? flag)
  then (call Call_SetHint_background_events;;
        do r <- ask (Call_Init flag) (fun t => SDL_Init sdl t flag);
        if r <? 0 then ret false
        else
          call (Call_sigaction_default SIGINT);;
          call (Call_sigaction_default SIGTERM);;
          call Call_JoystickEventState_query;;
          call Call_GameControllerEventState_query;;
          call Call_EventState_enable_added;;
          call Call_EventState_enable_removed;;
          call Call_AddMappingsFromRW;;
          add_mappings (sdl2_mapping g_conf);;
          ret true) t
  else ret true t.

(** [EnumerateSDL2()], on the registry [device_manager->devices]. *)
Definition EnumerateSDL2 (devices : list SDL2Gamepad) : M (list SDL2Gamepad) :=
  do inited <- init_library;
  if inited : bool
  then do devices <- clear devices;
       enumerate_from (Z.to_nat (SDL_NumJoysticks sdl)) 0 devices
  else ret devices.

(** *** Input *)

(** [float k = g_conf.get_sensibility() / 100.0]. *)
Definition sensibility_factor : spec_float := factor (get_sensibility g_conf).

(** [value *= k] for an [int] [value] and a [float] [k]: the product is
    taken in [float] and converted back. *)
Definition scale (value : Z) (k : spec_float) : option Z :=
  int_of_float (float_mul (float_of_int value) k).

(** What [SDL_GameControllerGetAxis] returns is a [Sint16]. *)
Definition axis (d : SDL2Gamepad) (code : Z) : Z :=
  to_Sint16 (SDL_GameControllerGetAxis sdl (m_controller d) code).

(** [SDL2Gamepad::GetInput(gamePadValues input)]; [None] where the source
    has no defined result (an index past [m_bindings], a conversion or an
    absolute value out of [int]). *)
Definition GetInput (d : SDL2Gamepad) (input : nat) : option Z :=
  let k := sensibility_factor in
  if IsAnalogKey input then
    match m_bindings d !! input with
    | None => None
    | Some code =>
        match scale (axis d code) k with
        | None => None
        | Some value =>
            match abs value with
            | None => None
            | Some a => Some (if a >? m_deadzone d then value else 0)
            end
        end
    end
  else if bool_decide (input = PAD_L2 \/ input = PAD_R2) then
    match m_bindings d !! input with
    | None => None
    | Some code =>
        let value := axis d code in
        Some (if value >? m_deadzone d then Z.quot value 128 else 0)
    end
  else
    match m_bindings d !! input with
    | None => None
    | Some code =>
        let value := SDL_GameControllerGetButton sdl (m_controller d) code in
        Some (if value =? 0 then 0 else 255)
    end.

End Gamepad.


(** ** Notions the properties are stated with *)

(** The calls of the destructor that tear the haptic side down. *)
Definition haptic_release (d : SDL2Gamepad) : log :=
  match m_haptic d with
  | Some h =>
      map (Call_HapticDestroyEffect h) (filter (fun eid => 0 <= eid) (m_effects_id d))
      ++ [Call_HapticClose h]
  | None => []
  end.

(** The call of the destructor that closes the controller, where it is
    compiled in. *)
Definition controller_release (sdl : SDL) (d : SDL2Gamepad) : log :=
  match m_controller d with
  | Some c => if 4 <=? SDL_MINOR_VERSION sdl then [Call_GameControllerClose c] else []
  | None => []
  end.

(** What the registry promises of a device. *)
Definition properly_initialized (d : SDL2Gamepad) : Prop :=
  m_no_error d = true /\ is_Some (m_controller d).

(** The registries the device manager can hold: it starts empty and only
    [EnumerateSDL2] writes it, each time with whatever configuration and
    library state there is. *)
Inductive registry (NB_EFFECT MAX_KEYS : nat) (default_deadzone : Z)
  (sdl2_defaults : list (nat * Z)) (hash_me : string -> Z)
  : list SDL2Gamepad -> Prop :=
| registry_start :
    registry NB_EFFECT MAX_KEYS default_deadzone sdl2_defaults hash_me []
| registry_enumerate devices g_conf sdl t :
    registry NB_EFFECT MAX_KEYS default_deadzone sdl2_defaults hash_me devices ->
    registry NB_EFFECT MAX_KEYS default_deadzone sdl2_defaults hash_me
      (EnumerateSDL2 NB_EFFECT MAX_KEYS default_deadzone sdl2_defaults hash_me
         g_conf sdl devices t).1.

(** [SDL_Init] did not succeed during the call started at log [t]: the
    subsystems were not all up and the initialisation answered an error. *)
Definition init_fails (sdl : SDL) (t : log) : Prop :=
  Z.land (SDL_WasInit sdl t) (init_flags sdl) <> init_flags sdl /\
  SDL_Init sdl (t ++ [Call_SetHint_background_events]) (init_flags sdl) < 0.

(** The subsystems [EnumerateSDL2] needs are all up after the calls of
    [t]. *)
Definition subsystems_up (sdl : SDL) (t : log) : Prop :=
  Z.land (SDL_WasInit sdl t) (init_flags sdl) = init_flags sdl.

(** A library that nothing shuts down, as it is for a program that never
    calls [SDL_Quit] or [SDL_QuitSubSystem] (this file never does):
    subsystems that are up stay up, and an [SDL_Init] that succeeds leaves
    them up. *)
Definition stays_up (sdl : SDL) : Prop :=
  (forall t t', subsystems_up sdl t -> subsystems_up sdl (t ++ t')) /\
  (forall t, 0 <= SDL_Init sdl t (init_flags sdl) ->
             subsystems_up sdl (t ++ [Call_Init (init_flags sdl)])).

(** The registry and the log a program can be at, on one library: the
    device manager starts with an empty registry, only [EnumerateSDL2]
    writes the registry, with whatever configuration there is, and whatever
    else the program calls leaves the registry alone. *)
Inductive session (NB_EFFECT MAX_KEYS : nat) (default_deadzone : Z)
  (sdl2_defaults : list (nat * Z)) (hash_me : string -> Z) (sdl : SDL)
  : list SDL2Gamepad -> log -> Prop :=
| session_start t :
    session NB_EFFECT MAX_KEYS default_deadzone sdl2_defaults hash_me sdl [] t
| session_enumerate devices g_conf t :
    session NB_EFFECT MAX_KEYS default_deadzone sdl2_defaults hash_me sdl devices t ->
    session NB_EFFECT MAX_KEYS default_deadzone sdl2_defaults hash_me sdl
      (EnumerateSDL2 NB_EFFECT MAX_KEYS default_deadzone sdl2_defaults hash_me
         g_conf sdl devices t).1
      (EnumerateSDL2 NB_EFFECT MAX_KEYS default_deadzone sdl2_defaults hash_me
         g_conf sdl devices t).2
| session_calls devices t t' :
    session NB_EFFECT MAX_KEYS default_deadzone sdl2_defaults hash_me sdl devices t ->
    session NB_EFFECT MAX_KEYS default_deadzone sdl2_defaults hash_me sdl devices
      (t ++ t').

(** The descriptors of the uploads in a log, in order. *)
Fixpoint uploaded (t : log) : list SDL_HapticEffect :=
  match t with
  | [] => []
  | Call_HapticNewEffect _ e :: t' => e :: uploaded t'
  | _ :: t' => uploaded t'
  end.

(** The mantissa and exponent [binary_round_aux] arrives at. *)
Definition rounded (prec emax m e : Z) (l : location) : Z * Z :=
  let r1 := shr_fexp prec emax m e l in
  let r2 := shr_fexp prec emax
              (round_nearest_even (shr_m r1.1) (loc_of_shr_record r1.1)) r1.2 loc_Exact in
  (shr_m r2.1, r2.2).

(** The integer part of [m * 2 ^ e]. *)
Definition floor_scaled (m e : Z) : Z :=
  if e <? 0 then m / 2 ^ (- e) else m * 2 ^ e.

(** [ceil (0x8000 * sensibility / 100)]. *)
Definition stick_bound (sensibility : Z) : Z := (32768 * sensibility + 99) / 100.

(** [ceil (0x7FFF * sensibility / 100)], the bound of the spec. *)
Definition stated_stick_bound (sensibility : Z) : Z := (32767 * sensibility + 99) / 100.

(** [m * 2 ^ e <= N * 2 ^ g], in integers. *)
Definition le_scaled (m e N g : Z) : Prop :=
  m * 2 ^ (e - Z.min e g) <= N * 2 ^ (g - Z.min e g).

(** ** A machine to run the program on

    Two joysticks are attached: index 0 is a game controller with rumble,
    index 1 a joystick the controller API has no mapping for.  The library
    initialises once; should its subsystems be found down again, a second
    initialisation fails. *)
Module Example.

Definition count_uploads (t : log) : Z := Z.of_nat (length (uploaded t)).

Definition initialised (t : log) : bool :=
  existsb (fun c => match c with Call_Init _ => true | _ => false end) t.

Definition machine (minor raw run_result : Z) : SDL :=
  {| SDL_MINOR_VERSION := minor;
     SDL_INIT_JOYSTICK := 512;
     SDL_INIT_HAPTIC := 4096;
     SDL_INIT_EVENTS := 16384;
     SDL_INIT_GAMECONTROLLER := 8192;
     SDL_WasInit := fun _ => 0;
     SDL_Init := fun t _ => if initialised t then -1 else 0;
     SDL_NumJoysticks := 2;
     SDL_IsGameController := fun id => id =? 0;
     SDL_GameControllerOpen := fun _ id => if id =? 0 then Some 10%nat else None;
     SDL_GameControllerGetJoystick := fun c => match c with Some _ => Some 20%nat | None => None end;
     SDL_JoystickOpen := fun _ _ => Some 21%nat;
     SDL_JoystickGetGUIDString := fun _ => "030000004c050000c405000011010000"%string;
     SDL_JoystickNameForIndex := fun _ => "pad"%string;
     SDL_JoystickIsHaptic := fun j => bool_decide (j = 20%nat);
     SDL_HapticOpenFromJoystick := fun _ _ => Some 30%nat;
     SDL_HapticNewEffect := fun t h _ => match h with Some _ => count_uploads t | None => -1 end;
     SDL_HapticRunEffect := fun _ _ _ _ => run_result;
     SDL_GameControllerGetAxis := fun _ _ => raw;
     SDL_GameControllerGetButton := fun _ _ => 1 |}.

Definition config (sensibility : Z) (ff : bool) : PADconf :=
  {| get_sensibility := sensibility;
     get_ff_intensity := 32767;
     forcefeedback := fun _ => ff;
     sdl2_mapping := [] |}.

(** The enumerators of [gamePadValues] the examples use: the triggers come
    first, the eight stick directions last. *)
Definition PAD_L2 : nat := 0.
Definition PAD_R2 : nat := 1.
Definition PAD_CROSS : nat := 6.
Definition PAD_L_UP : nat := 16.
Definition MAX_KEYS : nat := 24.
Definition IsAnalogKey (k : nat) : bool := (16 <=? k)%nat && (k <=? 23)%nat.

Definition defaults : list (nat * Z) :=
  [(PAD_L2, 4); (PAD_R2, 5); (PAD_CROSS, 0); (PAD_L_UP, 1)].

Definition hash (s : string) : Z := Z.of_nat (String.length s).

(** A device as the constructor leaves it for index 0. *)
Definition pad (deadzone : Z) : SDL2Gamepad :=
  {| m_controller := Some 10%nat; m_haptic := Some 30%nat;
     m_effects_id := [0; 1]; m_unique_id := 32;
     m_bindings := [4; 5; 0; 0; 0; 0; 0; 0; 0; 0; 0; 0; 0; 0; 0; 0;
                    1; 0; 0; 0; 0; 0; 0; 0];
     m_device_name := "pad"%string; m_deadzone := deadzone;
     m_no_error := true |}.

(** The number of [SDL_Init] calls in a log. *)
Fixpoint count_inits (t : log) : nat :=
  match t with
  | [] => 0
  | Call_Init _ :: t' => S (count_inits t')
  | _ :: t' => count_inits t'
  end.

(** The same machine with a library that nothing shuts down and whose
    first initialisation fails (the devices are not there yet, say): a
    second initialisation succeeds, and from then on the subsystems are
    up. *)
Definition retry_machine : SDL :=
  let m := machine 24 0 0 in
  {| SDL_MINOR_VERSION := SDL_MINOR_VERSION m;
     SDL_INIT_JOYSTICK := SDL_INIT_JOYSTICK m;
     SDL_INIT_HAPTIC := SDL_INIT_HAPTIC m;
     SDL_INIT_EVENTS := SDL_INIT_EVENTS m;
     SDL_INIT_GAMECONTROLLER := SDL_INIT_GAMECONTROLLER m;
     SDL_WasInit := fun t => if (2 <=? count_inits t)%nat then 29184 else 0;
     SDL_Init := fun t _ => if (count_inits t =? 0)%nat then -1 else 0;
     SDL_NumJoysticks := SDL_NumJoysticks m;
     SDL_IsGameController := SDL_IsGameController m;
     SDL_GameControllerOpen := SDL_GameControllerOpen m;
     SDL_GameControllerGetJoystick := SDL_GameControllerGetJoystick m;
     SDL_JoystickOpen := SDL_JoystickOpen m;
     SDL_JoystickGetGUIDString := SDL_JoystickGetGUIDString m;
     SDL_JoystickNameForIndex := SDL_JoystickNameForIndex m;
     SDL_JoystickIsHaptic := SDL_JoystickIsHaptic m;
     SDL_HapticOpenFromJoystick := SDL_HapticOpenFromJoystick m;
     SDL_HapticNewEffect := SDL_HapticNewEffect m;
     SDL_HapticRunEffect := SDL_HapticRunEffect m;
     SDL_GameControllerGetAxis := SDL_GameControllerGetAxis m;
     SDL_GameControllerGetButton := SDL_GameControllerGetButton m |}.

(** The same machine with a haptic device that takes one effect only: the
    first upload is answered with id 0, every later one with -1. *)
Definition worn_machine : SDL :=
  let m := machine 24 0 0 in
  {| SDL_MINOR_VERSION := SDL_MINOR_VERSION m;
     SDL_INIT_JOYSTICK := SDL_INIT_JOYSTICK m;
     SDL_INIT_HAPTIC := SDL_INIT_HAPTIC m;
     SDL_INIT_EVENTS := SDL_INIT_EVENTS m;
     SDL_INIT_GAMECONTROLLER := SDL_INIT_GAMECONTROLLER m;
     SDL_WasInit := SDL_WasInit m;
     SDL_Init := SDL_Init m;
     SDL_NumJoysticks := SDL_NumJoysticks m;
     SDL_IsGameController := SDL_IsGameController m;
     SDL_GameControllerOpen := SDL_GameControllerOpen m;
     SDL_GameControllerGetJoystick := SDL_GameControllerGetJoystick m;
     SDL_JoystickOpen := SDL_JoystickOpen m;
     SDL_JoystickGetGUIDString := SDL_JoystickGetGUIDString m;
     SDL_JoystickNameForIndex := SDL_JoystickNameForIndex m;
     SDL_JoystickIsHaptic := SDL_JoystickIsHaptic m;
     SDL_HapticOpenFromJoystick := SDL_HapticOpenFromJoystick m;
     SDL_HapticNewEffect := fun t _ _ => if count_uploads t =? 0 then 0 else -1;
     SDL_HapticRunEffect := SDL_HapticRunEffect m;
     SDL_GameControllerGetAxis := SDL_GameControllerGetAxis m;
     SDL_GameControllerGetButton := SDL_GameControllerGetButton m |}.

(** An object as a base constructor may leave it: the arrays have their
    sizes and hold leftovers. *)
Definition stale_base : SDL2Gamepad :=
  {| m_controller := None; m_haptic := None;
     m_effects_id := [5; 9]; m_unique_id := 0;
     m_bindings := replicate MAX_KEYS 7;
     m_device_name := EmptyString; m_deadzone := 1500;
     m_no_error := false |}.

End Example.

(** ** Further code of the file, and notions for its properties *)

(** The calls of [TestForce] into the one-shot rumble helper, and its
    message. *)
Inductive rumble_call :=
| Call_HapticRumbleInit (h : SDL_Haptic)
| Call_HapticRumblePlay (h : SDL_Haptic) (strength : spec_float) (length : Z)
| Call_fprintf_rumble_not_working.

(** [SDL2Gamepad::TestForce(float strength)], with what
    [SDL_HapticRumblePlay] answers from the calls before it; the result of
    [SDL_HapticRumbleInit] is not looked at. *)
Definition TestForce (SDL_HapticRumblePlay : list rumble_call -> SDL_Haptic -> Z)
  (d : SDL2Gamepad) (strength : spec_float) (t : list rumble_call)
  : bool * list rumble_call :=
  match m_haptic d with
  | None => (false, t)
  | Some h =>
      let t := t ++ [Call_HapticRumbleInit h] in
      let r := SDL_HapticRumblePlay t h in
      let t := t ++ [Call_HapticRumblePlay h strength 400] in
      if negb (r =? 0)
      then (false, t ++ [Call_fprintf_rumble_not_working])
      else (true, t)
  end.

(** [SDL2Gamepad::GetUniqueIdentifier()]. *)
Definition GetUniqueIdentifier (d : SDL2Gamepad) : Z := m_unique_id d.

(** [SDL2Gamepad::GetBindingName(int key)], over the table
    [sdl2_key_names] of a header that is not part of the sources; [None]
    where an index is past its array. *)
Definition GetBindingName (sdl2_key_names : list string) (d : SDL2Gamepad)
  (key : nat) : option string :=
  match m_bindings d !! key with
  | None => None
  | Some code => if code <? 0 then None else sdl2_key_names !! Z.to_nat code
  end.

(** The raw code the defaults table leaves for a logical input: that of
    the last pair with this key. *)
Fixpoint default_of (defaults : list (nat * Z)) (i : nat) : option Z :=
  match defaults with
  | [] => None
  | default_bind :: rest =>
      match default_of rest i with
      | Some v => Some v
      | None => if decide (default_bind.1 = i) then Some default_bind.2 else None
      end
  end.

(** Everything the destructor calls for a device. *)
Definition release (sdl : SDL) (d : SDL2Gamepad) : log :=
  haptic_release d ++ controller_release sdl d.

(** What the first block of [EnumerateSDL2] calls when it does not return
    from within: nothing when the subsystems are up, the initialisation
    otherwise, the user's mappings last and in their order. *)
Definition init_calls (g_conf : PADconf) (sdl : SDL) (t : log) : log :=
  if Z.land (SDL_WasInit sdl t) (init_flags sdl) =? init_flags sdl then []
  else [Call_SetHint_background_events; Call_Init (init_flags sdl);
        Call_sigaction_default SIGINT; Call_sigaction_default SIGTERM;
        Call_JoystickEventState_query; Call_GameControllerEventState_query;
        Call_EventState_enable_added; Call_EventState_enable_removed;
        Call_AddMappingsFromRW]
       ++ map Call_AddMapping (sdl2_mapping g_conf).

(** What [SDL_HapticNewEffect] answers the upload that follows the log
    [t0] and [k] earlier uploads of the constructor's loop. *)
Definition upload_answer (g_conf : PADconf) (sdl : SDL) (h : option SDL_Haptic)
  (t0 : log) (k : nat) : Z :=
  SDL_HapticNewEffect sdl
    (t0 ++ replicate k (Call_HapticNewEffect h (haptic_effect g_conf 0)))
    h (haptic_effect g_conf 0).

(** * Properties *)

(** ** Logs *)

Lemma bind_eq {A B} (c : M A) (k : A -> M B) t :
  bind c k t = k (c t).1 (c t).2.
Proof. unfold bind. destruct (c t); reflexivity. Qed.

Lemma call_eq c t : call c t = (tt, t ++ [c]).
Proof. reflexivity. Qed.

Lemma ask_eq {A} c (answer : log -> A) t : ask c answer t = (answer t, t ++ [c]).
Proof. reflexivity. Qed.

Lemma ret_eq {A} (a : A) t : ret a t = (a, t).
Proof. reflexivity. Qed.

(** A decidable fact about closed data. *)
Ltac decide_by_computation := apply (bool_decide_unpack _); vm_compute; exact I.

(** ** Destruction *)

Lemma destroy_effects_log h ids t :
  destroy_effects h ids t =
  (tt, t ++ map (Call_HapticDestroyEffect h) (filter (fun eid => 0 <= eid) ids)).
Proof.
  revert t; induction ids as [|eid rest IH]; intros t; cbn [destroy_effects].
  - rewrite ret_eq, app_nil_r. reflexivity.
  - rewrite bind_eq, filter_cons.
    destruct (Z.leb_spec 0 eid) as [Hle|Hlt].
    + rewrite call_eq; cbn [fst snd]. rewrite IH.
      destruct (decide (0 <= eid)); [|lia].
      cbn [map]. rewrite <- app_assoc. reflexivity.
    + rewrite ret_eq; cbn [fst snd]. rewrite IH.
      destruct (decide (0 <= eid)); [lia|]. reflexivity.
Qed.

Lemma destroy_log sdl d t :
  destroy sdl d t = (tt, t ++ haptic_release d ++ controller_release sdl d).
Proof.
  unfold destroy, haptic_release, controller_release.
  rewrite bind_eq.
  destruct (m_haptic d) as [h|].
  - rewrite bind_eq, destroy_effects_log, call_eq; cbn [fst snd].
    destruct (m_controller d) as [c|].
    + destruct (4 <=? SDL_MINOR_VERSION sdl).
      * rewrite call_eq. rewrite <- !app_assoc. reflexivity.
      * rewrite ret_eq, app_nil_r, <- !app_assoc. reflexivity.
    + rewrite ret_eq, app_nil_r, <- !app_assoc. reflexivity.
  - rewrite ret_eq; cbn [fst snd app].
    destruct (m_controller d) as [c|].
    + destruct (4 <=? SDL_MINOR_VERSION sdl).
      * rewrite call_eq. reflexivity.
      * rewrite ret_eq, app_nil_r. reflexivity.
    + rewrite ret_eq, app_nil_r. reflexivity.
Qed.

Lemma controller_release_no_haptic sdl d :
  Forall (fun c => is_haptic_call c = false) (controller_release sdl d).
Proof.
  unfold controller_release.
  destruct (m_controller d); [destruct (4 <=? SDL_MINOR_VERSION sdl)|];
    repeat constructor.
Qed.

(** The calls of the destructor, in order: it first destroys, in table
    order, every effect of [m_effects_id] whose id is not negative, then
    closes the haptic handle, and calls nothing else but, last, the close of
    the controller, which is compiled in for a minor version of 4 or more.
    A device without haptic handle sees no haptic call at all. *)
Lemma destructor_release_order sdl d t :
  exists last_calls,
    (destroy sdl d t).2 = t ++ haptic_release d ++ last_calls /\
    (last_calls = [] \/
     exists c, m_controller d = Some c /\ last_calls = [Call_GameControllerClose c]) /\
    (forall c, m_controller d = Some c -> 4 <= SDL_MINOR_VERSION sdl ->
               last_calls = [Call_GameControllerClose c]) /\
    (m_haptic d = None ->
     Forall (fun c => is_haptic_call c = false) (haptic_release d ++ last_calls)).
Proof.
  exists (controller_release sdl d). rewrite destroy_log. cbn [snd].
  split; [reflexivity|]. split; [|split].
  - unfold controller_release. destruct (m_controller d) as [c|]; [|by left].
    destruct (4 <=? SDL_MINOR_VERSION sdl); [|by left].
    right. by exists c.
  - intros c Hc Hv. unfold controller_release. rewrite Hc.
    destruct (Z.leb_spec 4 (SDL_MINOR_VERSION sdl)); [reflexivity|lia].
  - intros Hh. unfold haptic_release. rewrite Hh. cbn [app].
    apply controller_release_no_haptic.
Qed.

Lemma destructor_release_order_witness :
  m_controller (Example.pad 1500) = Some 10%nat /\
  4 <= SDL_MINOR_VERSION (Example.machine 24 0 0) /\
  m_haptic (set_haptic None (Example.pad 1500)) = None /\
  (destroy (Example.machine 24 0 0) (Example.pad 1500) []).2 =
    [Call_HapticDestroyEffect 30%nat 0; Call_HapticDestroyEffect 30%nat 1;
     Call_HapticClose 30%nat; Call_GameControllerClose 10%nat] /\
  (destroy (Example.machine 24 0 0) (set_haptic None (Example.pad 1500)) []).2 =
    [Call_GameControllerClose 10%nat].
Proof.
  split; [reflexivity|]. split; [vm_compute; discriminate|]. split; [reflexivity|].
  split.
  - destruct (destructor_release_order (Example.machine 24 0 0) (Example.pad 1500) [])
      as (l & -> & _ & Hl & _).
    rewrite (Hl 10%nat); [reflexivity|reflexivity|vm_compute; discriminate].
  - destruct (destructor_release_order (Example.machine 24 0 0)
                (set_haptic None (Example.pad 1500)) [])
      as (l & -> & _ & Hl & _).
    rewrite (Hl 10%nat); [reflexivity|reflexivity|vm_compute; discriminate].
Defined.

(** C7: a device with a controller handle, a haptic handle and two
    uploaded effects, destroyed in a build against SDL 2.0.x, whose minor
    version is 0 for every x: the destructor destroys the effects and closes
    the haptic handle, in that order, and then leaves the controller handle
    open, although the comment beside the [#if] exempts only the versions
    before 2.0.4.  Built with a minor version of 4 or more, the same
    destructor closes the same controller last. *)
Lemma destructor_leaves_controller_open :
  SDL_MINOR_VERSION (Example.machine 0 0 0) = 0 /\
  m_controller (Example.pad 1500) = Some 10%nat /\
  (destroy (Example.machine 0 0 0) (Example.pad 1500) []).2 =
    [Call_HapticDestroyEffect 30%nat 0; Call_HapticDestroyEffect 30%nat 1;
     Call_HapticClose 30%nat] /\
  ~ In (Call_GameControllerClose 10%nat)
       (destroy (Example.machine 0 0 0) (Example.pad 1500) []).2 /\
  (destroy (Example.machine 24 0 0) (Example.pad 1500) []).2 =
    [Call_HapticDestroyEffect 30%nat 0; Call_HapticDestroyEffect 30%nat 1;
     Call_HapticClose 30%nat; Call_GameControllerClose 10%nat].
Proof.
  split; [reflexivity|]. split; [reflexivity|]. split; [reflexivity|].
  split; [|reflexivity].
  cbn. intros [H|[H|[H|[]]]]; discriminate H.
Qed.

(** ** Rumble *)

(** C5: [Rumble] calls nothing and returns when the slot is past the effect
    table, or force feedback is off for the pad, or there is no haptic
    handle; otherwise it starts [m_effects_id[type]] for one iteration, and
    a failure of the start is printed and changes nothing of the device. *)
Theorem Rumble_calls g_conf sdl d type pad t :
  ((length (m_effects_id d) <= type)%nat \/ forcefeedback g_conf pad = false \/
   m_haptic d = None ->
   Rumble g_conf sdl d type pad t = (d, t)) /\
  (forall h,
     (type < length (m_effects_id d))%nat -> forcefeedback g_conf pad = true ->
     m_haptic d = Some h ->
     exists id,
       m_effects_id d !! type = Some id /\
       (Rumble g_conf sdl d type pad t).1 = d /\
       (Rumble g_conf sdl d type pad t).2 =
         t ++ Call_HapticRunEffect h id 1 ::
              (if SDL_HapticRunEffect sdl t h id 1 =? 0 then []
               else [Call_fprintf stderr (Msg_effect_not_working id)])).
Proof.
  unfold Rumble. split.
  - intros [Hslot|[Hff|Hh]].
    + destruct (decide _); [reflexivity|lia].
    + destruct (decide _); [reflexivity|]. rewrite Hff. reflexivity.
    + destruct (decide _); [reflexivity|].
      destruct (negb _); [reflexivity|]. rewrite Hh. reflexivity.
  - intros h Hslot Hff Hh.
    destruct (lookup_lt_is_Some_2 (m_effects_id d) type Hslot) as [eid Heid].
    exists eid. split; [exact Heid|].
    destruct (decide _); [lia|]. rewrite Hff, Hh, Heid.
    cbn [negb default from_option id].
    rewrite bind_eq, ask_eq; cbn [fst snd].
    destruct (SDL_HapticRunEffect sdl t h eid 1 =? 0); cbn [negb].
    + rewrite ret_eq. by split.
    + rewrite bind_eq, call_eq, ret_eq; cbn [fst snd].
      rewrite <- app_assoc. by split.
Qed.

Lemma Rumble_calls_witness :
  ((length (m_effects_id (Example.pad 1500)) <= 5)%nat \/
   forcefeedback (Example.config 100 true) 0%nat = false \/
   m_haptic (Example.pad 1500) = None) /\
  Rumble (Example.config 100 true) (Example.machine 0 0 (-1)) (Example.pad 1500) 5 0 []
    = (Example.pad 1500, []) /\
  (1 < length (m_effects_id (Example.pad 1500)))%nat /\
  forcefeedback (Example.config 100 true) 0%nat = true /\
  m_haptic (Example.pad 1500) = Some 30%nat /\
  exists id,
    m_effects_id (Example.pad 1500) !! 1%nat = Some id /\
    (Rumble (Example.config 100 true) (Example.machine 0 0 (-1)) (Example.pad 1500) 1 0 []).1
      = Example.pad 1500 /\
    (Rumble (Example.config 100 true) (Example.machine 0 0 (-1)) (Example.pad 1500) 1 0 []).2
      = [Call_HapticRunEffect 30%nat id 1; Call_fprintf stderr (Msg_effect_not_working id)].
Proof.
  assert (H5 : (length (m_effects_id (Example.pad 1500)) <= 5)%nat \/
               forcefeedback (Example.config 100 true) 0%nat = false \/
               m_haptic (Example.pad 1500) = None) by (left; vm_compute; lia).
  split; [exact H5|].
  split.
  - exact (proj1 (Rumble_calls (Example.config 100 true) (Example.machine 0 0 (-1))
                    (Example.pad 1500) 5 0 []) H5).
  - split; [vm_compute; lia|]. split; [reflexivity|]. split; [reflexivity|].
    apply (proj2 (Rumble_calls (Example.config 100 true) (Example.machine 0 0 (-1))
                    (Example.pad 1500) 1 0 []) 30%nat);
      [vm_compute; lia|reflexivity|reflexivity].
Defined.

(** ** The binding table *)

Lemma store_defaults_length defaults b :
  length (store_defaults defaults b) = length b.
Proof.
  revert b; induction defaults as [|[k v] rest IH]; intros b; cbn; [reflexivity|].
  by rewrite IH, length_insert.
Qed.

Lemma store_defaults_lookup_other (defaults : list (nat * Z)) (b : list Z) (i : nat) :
  i ∉ defaults.*1 -> store_defaults defaults b !! i = b !! i.
Proof.
  revert b; induction defaults as [|[k v] rest IH]; intros b Hi; cbn; [reflexivity|].
  cbn in Hi. apply not_elem_of_cons in Hi as [Hne Hi].
  rewrite IH by exact Hi. by apply list_lookup_insert_ne.
Qed.

Lemma store_defaults_lookup_key (defaults : list (nat * Z)) (b : list Z) (k : nat) (v : Z) :
  NoDup defaults.*1 ->
  Forall (fun p => (p.1 < length b)%nat) defaults ->
  (k, v) ∈ defaults ->
  store_defaults defaults b !! k = Some v.
Proof.
  revert b; induction defaults as [|[k0 v0] rest IH]; intros b Hnd Hr Hin.
  - by apply elem_of_nil in Hin.
  - cbn in Hnd. apply NoDup_cons in Hnd as [Hk0 Hnd].
    apply Forall_cons in Hr as [Hk0r Hr]. cbn in Hk0r.
    cbn [store_defaults fst snd].
    apply elem_of_cons in Hin as [Heq|Hin].
    + injection Heq as -> ->.
      rewrite store_defaults_lookup_other by exact Hk0.
      by apply list_lookup_insert_eq.
    + apply IH; [exact Hnd| |exact Hin].
      eapply Forall_impl; [exact Hr|]. intros p Hp. by rewrite length_insert.
Qed.

(** C8: [ClearBindings] leaves 0 in every entry of the table;
    [ResetBindingsToDefault] leaves in the entry of every logical input of
    the defaults table the raw code the table gives it, and leaves every
    other entry as it was. *)
Theorem bindings_clear_then_default sdl2_defaults d :
  (forall i, (i < length (m_bindings d))%nat ->
             m_bindings (ClearBindings d) !! i = Some 0) /\
  length (m_bindings (ClearBindings d)) = length (m_bindings d) /\
  (NoDup sdl2_defaults.*1 ->
   Forall (fun p => (p.1 < length (m_bindings d))%nat) sdl2_defaults ->
   forall k v, (k, v) ∈ sdl2_defaults ->
               m_bindings (ResetBindingsToDefault sdl2_defaults d) !! k = Some v) /\
  (forall i, i ∉ sdl2_defaults.*1 ->
             m_bindings (ResetBindingsToDefault sdl2_defaults d) !! i = m_bindings d !! i).
Proof.
  split; [|split; [|split]].
  - intros i Hi. cbn. by apply lookup_replicate_2.
  - cbn. apply length_replicate.
  - intros Hnd Hr k v Hin. cbn. by apply store_defaults_lookup_key.
  - intros i Hi. cbn. by apply store_defaults_lookup_other.
Qed.

Lemma bindings_clear_then_default_witness :
  (3 < length (m_bindings (Example.pad 1500)))%nat /\
  m_bindings (ClearBindings (Example.pad 1500)) !! 3%nat = Some 0 /\
  NoDup Example.defaults.*1 /\
  Forall (fun p => (p.1 < length (m_bindings (ClearBindings (Example.pad 1500))))%nat)
         Example.defaults /\
  ((Example.PAD_L_UP, 1) ∈ Example.defaults) /\
  m_bindings (ResetBindingsToDefault Example.defaults (ClearBindings (Example.pad 1500)))
    !! Example.PAD_L_UP = Some 1 /\
  (3%nat ∉ Example.defaults.*1) /\
  m_bindings (ResetBindingsToDefault Example.defaults (ClearBindings (Example.pad 1500)))
    !! 3%nat = Some 0.
Proof.
  pose proof (bindings_clear_then_default Example.defaults (Example.pad 1500))
    as (Hclear & _ & _ & _).
  pose proof (bindings_clear_then_default Example.defaults
                (ClearBindings (Example.pad 1500))) as (_ & _ & Hkey & Hother).
  assert (Hlt : (3 < length (m_bindings (Example.pad 1500)))%nat) by (vm_compute; lia).
  assert (Hnd : NoDup Example.defaults.*1) by decide_by_computation.
  assert (Hr : Forall (fun p => (p.1 < length (m_bindings (ClearBindings (Example.pad 1500))))%nat)
                 Example.defaults) by (repeat constructor; vm_compute; lia).
  assert (Hin : (Example.PAD_L_UP, 1) ∈ Example.defaults) by decide_by_computation.
  assert (Hnot : 3%nat ∉ Example.defaults.*1) by decide_by_computation.
  split; [exact Hlt|]. split; [exact (Hclear 3%nat Hlt)|].
  split; [exact Hnd|]. split; [exact Hr|]. split; [exact Hin|].
  split; [exact (Hkey Hnd Hr _ _ Hin)|]. split; [exact Hnot|].
  rewrite (Hother 3%nat Hnot). exact (Hclear 3%nat Hlt).
Defined.

(** What the range-for leaves under a key, whatever the table held. *)
Lemma store_defaults_lookup (defaults : list (nat * Z)) (b : list Z) (i : nat) :
  store_defaults defaults b !! i =
  match default_of defaults i with
  | Some v => if decide (i < length b)%nat then Some v else None
  | None => b !! i
  end.
Proof.
  revert b; induction defaults as [|[k v] rest IH]; intros b; [reflexivity|].
  cbn [store_defaults default_of fst snd]. rewrite IH, length_insert.
  destruct (default_of rest i) as [w|]; [reflexivity|].
  destruct (decide (k = i)) as [->|Hne].
  - destruct (decide (i < length b)%nat) as [Hlt|Hge].
    + by apply list_lookup_insert_eq.
    + apply lookup_ge_None. rewrite length_insert. lia.
  - by apply list_lookup_insert_ne.
Qed.

Lemma default_of_In defaults key code :
  In (key, code) defaults ->
  (forall code', In (key, code') defaults -> code' = code) ->
  default_of defaults key = Some code.
Proof.
  induction defaults as [|[k v] rest IH]; intros Hin Huniq; [destruct Hin|].
  cbn [default_of fst snd].
  destruct (default_of rest key) as [w|] eqn:Hrest.
  - assert (Hw : In (key, w) rest).
    { clear -Hrest. induction rest as [|[k' v'] rest IH]; [discriminate Hrest|].
      cbn [default_of fst snd] in Hrest.
      destruct (default_of rest key) as [w'|].
      - injection Hrest as ->. right. by apply IH.
      - destruct (decide (k' = key)) as [->|]; [|discriminate Hrest].
        injection Hrest as ->. by left. }
    f_equal. apply Huniq. by right.
  - destruct Hin as [[= -> ->]|Hin].
    + by rewrite decide_True.
    + exfalso.
      assert (H : @None Z = Some code); [|discriminate H].
      apply IH; [exact Hin|]. intros code' Hin'. apply Huniq. by right.
Qed.

Lemma default_of_not_In defaults key :
  (forall code, ~ In (key, code) defaults) -> default_of defaults key = None.
Proof.
  induction defaults as [|[k v] rest IH]; intros Hnot; [reflexivity|].
  cbn [default_of fst snd]. rewrite IH.
  - destruct (decide (k = key)) as [->|]; [|reflexivity].
    exfalso. apply (Hnot v). by left.
  - intros code Hin. apply (Hnot code). by right.
Qed.

(** ** Construction *)

Lemma uploaded_app t1 t2 : uploaded (t1 ++ t2) = uploaded t1 ++ uploaded t2.
Proof.
  induction t1 as [|c t1 IH]; [reflexivity|].
  destruct c; cbn; rewrite ?IH; reflexivity.
Qed.

Section Construction.

Variable NB_EFFECT MAX_KEYS : nat.
Variable default_deadzone : Z.
Variable sdl2_defaults : list (nat * Z).
Variable hash_me : string -> Z.
Variable g_conf : PADconf.
Variable sdl : SDL.

#[local] Abbreviation new :=
  (SDL2Gamepad_new NB_EFFECT MAX_KEYS default_deadzone sdl2_defaults hash_me g_conf sdl).
#[local] Abbreviation upload := (upload_effects NB_EFFECT g_conf sdl).

Lemma upload_effects_length h visited rest t :
  length (upload h visited rest t).1.2 = (length visited + length rest)%nat.
Proof.
  revert visited t; induction rest as [|x rest IH]; intros visited t;
    cbn [upload_effects].
  - rewrite ret_eq; cbn. lia.
  - rewrite bind_eq, ask_eq; cbn [fst snd].
    destruct (_ <? 0).
    + rewrite bind_eq, call_eq, ret_eq; cbn [fst snd].
      rewrite length_app; cbn. lia.
    + rewrite IH, length_app; cbn. lia.
Qed.

(** Whatever the slot, the descriptor uploaded is the one of slot 0. *)
Lemma upload_effects_uploaded h visited rest t :
  exists n, (n <= length rest)%nat /\
    uploaded (upload h visited rest t).2 =
    uploaded t ++ replicate n (default (haptic_effect g_conf 0)
                                 (effects NB_EFFECT g_conf !! 0%nat)).
Proof.
  revert visited t; induction rest as [|x rest IH]; intros visited t;
    cbn [upload_effects].
  - exists 0%nat. rewrite ret_eq; cbn. by rewrite app_nil_r.
  - rewrite bind_eq, ask_eq; cbn [fst snd].
    destruct (_ <? 0).
    + exists 1%nat. rewrite bind_eq, call_eq, ret_eq; cbn [fst snd].
      split; [cbn; lia|]. rewrite !uploaded_app. cbn. by rewrite app_nil_r.
    + destruct (IH (visited ++
                  [SDL_HapticNewEffect sdl t h
                     (default (haptic_effect g_conf 0) (effects NB_EFFECT g_conf !! 0%nat))])
                  (t ++ [Call_HapticNewEffect h
                     (default (haptic_effect g_conf 0) (effects NB_EFFECT g_conf !! 0%nat))]))
        as (n & Hn & Hup).
      exists (S n). split; [cbn; lia|].
      rewrite Hup, uploaded_app. cbn. by rewrite <- app_assoc.
Qed.

(** What the constructor leaves, whichever way it returns and whatever the
    arrays of the base object held. *)
Lemma from_device base id t :
  let d := (SDL2Gamepad_from NB_EFFECT sdl2_defaults hash_me g_conf sdl base id t).1 in
  m_bindings d = store_defaults sdl2_defaults (replicate (length (m_bindings base)) 0) /\
  length (m_effects_id d) = length (m_effects_id base) /\
  m_deadzone d = m_deadzone base /\
  ((m_no_error d = m_no_error base /\ m_haptic d = None /\
    m_effects_id d = replicate (length (m_effects_id base)) (-1)) \/
   (m_no_error d = true /\ is_Some (m_controller d))).
Proof.
  cbn zeta. unfold SDL2Gamepad_from, ClearBindings, ResetBindingsToDefault.
  cbn [m_bindings m_effects_id set_effects_id set_bindings set_controller
       set_haptic m_controller m_haptic m_unique_id m_device_name m_deadzone
       m_no_error].
  rewrite ?length_replicate.
  repeat first
    [ rewrite bind_eq | rewrite ask_eq | rewrite call_eq | rewrite ret_eq
    | progress cbn [fst snd m_bindings m_effects_id set_effects_id set_bindings
                    set_controller set_haptic set_unique_id set_device_name
                    set_no_error m_controller m_haptic m_unique_id
                    m_device_name m_deadzone m_no_error]
    | rewrite upload_effects_length
    | rewrite length_replicate
    | match goal with
      | |- context [if ?b then _ else _] => destruct b
      | |- context [match ?o with Some _ => _ | None => _ end] => destruct o eqn:?
      end ];
  repeat split; eauto.
Qed.

Lemma new_device id t :
  let d := (new id t).1 in
  m_bindings d = store_defaults sdl2_defaults (replicate MAX_KEYS 0) /\
  length (m_effects_id d) = NB_EFFECT /\
  m_deadzone d = default_deadzone /\
  ((m_no_error d = false /\ m_haptic d = None /\
    m_effects_id d = replicate NB_EFFECT (-1)) \/
   (m_no_error d = true /\ is_Some (m_controller d))).
Proof.
  pose proof (from_device (Device_base NB_EFFECT MAX_KEYS default_deadzone) id t) as H.
  cbn zeta in H.
  assert (Hb : length (m_bindings (Device_base NB_EFFECT MAX_KEYS default_deadzone))
               = MAX_KEYS) by apply length_replicate.
  assert (He : length (m_effects_id (Device_base NB_EFFECT MAX_KEYS default_deadzone))
               = NB_EFFECT) by apply length_replicate.
  rewrite Hb, He in H. exact H.
Qed.

End Construction.

(** C10: whichever way the constructor returns, and whatever the two
    arrays held when its body starts, the binding table has its [MAX_KEYS]
    entries, each holding the raw code the defaults table gives its key (the
    code of the pair that names the key; 0, from the clearing, when no pair
    names it; the last pair's code when several do), and the effects table
    has its [NB_EFFECT] entries.  When it returns before setting
    [m_no_error], every effect slot holds -1 and there is no haptic handle,
    so that destroying the device makes no haptic call. *)
Theorem failed_construction_has_no_haptic_teardown
  NB_EFFECT MAX_KEYS sdl2_defaults hash_me g_conf sdl base id t :
  length (m_bindings base) = MAX_KEYS ->
  length (m_effects_id base) = NB_EFFECT ->
  let d := (SDL2Gamepad_from NB_EFFECT sdl2_defaults hash_me g_conf sdl base id t).1 in
  length (m_bindings d) = MAX_KEYS /\
  (forall key code,
     (key < MAX_KEYS)%nat -> In (key, code) sdl2_defaults ->
     (forall code', In (key, code') sdl2_defaults -> code' = code) ->
     m_bindings d !! key = Some code) /\
  (forall key,
     (key < MAX_KEYS)%nat -> (forall code, ~ In (key, code) sdl2_defaults) ->
     m_bindings d !! key = Some 0) /\
  (forall key,
     (key < MAX_KEYS)%nat ->
     m_bindings d !! key = Some (default 0 (default_of sdl2_defaults key))) /\
  length (m_effects_id d) = NB_EFFECT /\
  (m_no_error d = false ->
   m_effects_id d = replicate NB_EFFECT (-1) /\
   m_haptic d = None /\
   forall sdl' t', exists calls,
     (destroy sdl' d t').2 = t' ++ calls /\
     Forall (fun c => is_haptic_call c = false) calls).
Proof.
  intros Hkeys Hslots d.
  destruct (from_device NB_EFFECT sdl2_defaults hash_me g_conf sdl base id t)
    as (Hb & Hlen & _ & Hcases).
  fold d in Hb, Hlen, Hcases. rewrite Hkeys in Hb. rewrite Hslots in Hlen, Hcases.
  assert (Hlookup : forall key, (key < MAX_KEYS)%nat ->
            m_bindings d !! key = Some (default 0 (default_of sdl2_defaults key))).
  { intros key Hkey. rewrite Hb, store_defaults_lookup, length_replicate.
    destruct (default_of sdl2_defaults key) as [v|]; cbn [default from_option].
    - by rewrite decide_True.
    - by apply lookup_replicate_2. }
  split; [|split; [|split; [|split; [|split]]]].
  - rewrite Hb, store_defaults_length. apply length_replicate.
  - intros key code Hkey Hin Huniq.
    by rewrite (Hlookup key Hkey), (default_of_In _ _ _ Hin Huniq).
  - intros key Hkey Hnot.
    by rewrite (Hlookup key Hkey), (default_of_not_In _ _ Hnot).
  - exact Hlookup.
  - exact Hlen.
  - intros Hno. destruct Hcases as [(_ & Hh & Hids)|(Hyes & _)]; [|congruence].
    split; [exact Hids|]. split; [exact Hh|].
    intros sdl' t'. exists (controller_release sdl' d).
    rewrite destroy_log. unfold haptic_release. rewrite Hh. cbn [snd app].
    split; [reflexivity|]. apply controller_release_no_haptic.
Qed.

(** On the example machine the joystick of index 1 is no game controller:
    the constructor fails, from a base object whose arrays hold leftovers
    as well as from [Device_base]. *)
Lemma failed_construction_has_no_haptic_teardown_witness :
  let d := (SDL2Gamepad_from 2 Example.defaults Example.hash
              (Example.config 100 true) (Example.machine 24 0 0)
              Example.stale_base 1 []).1 in
  let d' := (SDL2Gamepad_new 2 Example.MAX_KEYS 1500 Example.defaults Example.hash
               (Example.config 100 true) (Example.machine 24 0 0) 1 []).1 in
  m_no_error d = false /\
  m_bindings d !! Example.PAD_R2 = Some 5 /\
  m_bindings d !! Example.PAD_L_UP = Some 1 /\
  m_bindings d !! 7%nat = Some 0 /\
  m_bindings d' !! Example.PAD_R2 = Some 5 /\
  m_effects_id d = [-1; -1] /\
  m_haptic d = None /\
  exists calls,
    (destroy (Example.machine 24 0 0) d []).2 = [] ++ calls /\
    Forall (fun c => is_haptic_call c = false) calls.
Proof.
  intros d d'.
  assert (Hno : m_no_error d = false) by reflexivity.
  destruct (failed_construction_has_no_haptic_teardown 2 Example.MAX_KEYS
              Example.defaults Example.hash (Example.config 100 true)
              (Example.machine 24 0 0) Example.stale_base 1 [] eq_refl eq_refl)
    as (_ & Hdef & Hzero & _ & _ & H).
  destruct (failed_construction_has_no_haptic_teardown 2 Example.MAX_KEYS
              Example.defaults Example.hash (Example.config 100 true)
              (Example.machine 24 0 0) (Device_base 2 Example.MAX_KEYS 1500) 1 []
              eq_refl eq_refl)
    as (_ & Hdef' & _).
  assert (Huniq : forall key code,
            In (key, code) Example.defaults ->
            forall code', In (key, code') Example.defaults -> code' = code).
  { intros key code Hin code' Hin'. cbv in Hin, Hin'. intuition congruence. }
  assert (H5 : In (Example.PAD_R2, 5) Example.defaults) by (cbn; tauto).
  assert (H1 : In (Example.PAD_L_UP, 1) Example.defaults) by (cbn; tauto).
  assert (H7 : forall code, ~ In (7%nat, code) Example.defaults).
  { intros code Hin. cbv in Hin. intuition congruence. }
  destruct (H Hno) as (Hids & Hh & Hd).
  split; [exact Hno|].
  assert (HltR : (Example.PAD_R2 < Example.MAX_KEYS)%nat) by (cbv; lia).
  assert (HltU : (Example.PAD_L_UP < Example.MAX_KEYS)%nat) by (cbv; lia).
  assert (Hlt7 : (7 < Example.MAX_KEYS)%nat) by (cbv; lia).
  split; [exact (Hdef Example.PAD_R2 5 HltR H5 (Huniq _ _ H5))|].
  split; [exact (Hdef Example.PAD_L_UP 1 HltU H1 (Huniq _ _ H1))|].
  split; [exact (Hzero 7%nat Hlt7 H7)|].
  split; [exact (Hdef' Example.PAD_R2 5 HltR H5 (Huniq _ _ H5))|].
  split; [exact Hids|]. split; [exact Hh|].
  exact (Hd (Example.machine 24 0 0) []).
Defined.

(** C1 at a controller with rumble and two effect slots: both uploads carry
    the sine descriptor of slot 0, although the descriptor built for slot 1
    is the triangle one. *)
Lemma every_slot_uploads_the_sine_effect :
  let r := SDL2Gamepad_new 2 Example.MAX_KEYS 1500 Example.defaults Example.hash
             (Example.config 100 true) (Example.machine 24 0 0) 0 [] in
  m_no_error r.1 = true /\
  m_haptic r.1 = Some 30%nat /\
  m_effects_id r.1 = [0; 1] /\
  map eff_type (effects 2 (Example.config 100 true)) =
    [SDL_HAPTIC_SINE; SDL_HAPTIC_TRIANGLE] /\
  map eff_type (uploaded r.2) = [SDL_HAPTIC_SINE; SDL_HAPTIC_SINE] /\
  uploaded r.2 = [haptic_effect (Example.config 100 true) 0;
                  haptic_effect (Example.config 100 true) 0].
Proof. vm_compute. repeat split; reflexivity. Qed.

(** ** Enumeration *)

Section Enumeration.

Variable NB_EFFECT MAX_KEYS : nat.
Variable default_deadzone : Z.
Variable sdl2_defaults : list (nat * Z).
Variable hash_me : string -> Z.

#[local] Abbreviation new :=
  (SDL2Gamepad_new NB_EFFECT MAX_KEYS default_deadzone sdl2_defaults hash_me).
#[local] Abbreviation enum_from :=
  (enumerate_from NB_EFFECT MAX_KEYS default_deadzone sdl2_defaults hash_me).
#[local] Abbreviation enumerate :=
  (EnumerateSDL2 NB_EFFECT MAX_KEYS default_deadzone sdl2_defaults hash_me).

(** One turn of the loop: the device is pushed, and popped at once when it
    is not properly initialised. *)
Lemma enumerate_from_step g_conf sdl n i devices t :
  enum_from g_conf sdl (S n) i devices t =
  if m_no_error (new g_conf sdl i t).1
  then enum_from g_conf sdl n (i + 1) (devices ++ [(new g_conf sdl i t).1])
         (new g_conf sdl i t).2
  else enum_from g_conf sdl n (i + 1) devices
         (destroy sdl (new g_conf sdl i t).1 (new g_conf sdl i t).2).2.
Proof.
  cbn [enumerate_from]. rewrite bind_eq.
  set (d := (new g_conf sdl i t).1). set (t1 := (new g_conf sdl i t).2).
  rewrite bind_eq, last_snoc. unfold IsProperlyInitialized.
  destruct (m_no_error d); cbn [negb].
  - rewrite ret_eq. reflexivity.
  - unfold pop_back. rewrite last_snoc, bind_eq, ret_eq; cbn [fst snd].
    rewrite removelast_last. reflexivity.
Qed.

Lemma enumerate_from_initialized g_conf sdl n i devices t :
  Forall properly_initialized devices ->
  Forall properly_initialized (enum_from g_conf sdl n i devices t).1.
Proof.
  revert i devices t; induction n as [|n IH]; intros i devices t Hall.
  - exact Hall.
  - rewrite enumerate_from_step.
    destruct (new_device NB_EFFECT MAX_KEYS default_deadzone sdl2_defaults
                hash_me g_conf sdl i t) as (_ & _ & _ & Hcases).
    destruct (m_no_error _) eqn:Hno; apply IH; [|exact Hall].
    apply Forall_app; split; [exact Hall|].
    apply Forall_singleton. split; [exact Hno|].
    destruct Hcases as [(Hf & _)|(_ & Hc)]; [congruence|exact Hc].
Qed.

Lemma clear_registry sdl devices t : (clear sdl devices t).1 = [].
Proof. unfold clear. by rewrite bind_eq, ret_eq. Qed.

Lemma enumerate_initialized g_conf sdl devices t :
  Forall properly_initialized devices ->
  Forall properly_initialized (enumerate g_conf sdl devices t).1.
Proof.
  intros Hall. unfold EnumerateSDL2. rewrite bind_eq.
  destruct (init_library g_conf sdl t).1.
  - rewrite bind_eq, clear_registry. by apply enumerate_from_initialized.
  - exact Hall.
Qed.

(** C6: every device of a registry the device manager can hold has
    [m_no_error] set and a controller handle; a device the constructor did
    not initialise properly leaves the registry in the very turn of the loop
    that pushed it; and a call that goes past the initialisation of the
    library leaves only such devices, whatever the registry held before. *)
Theorem registry_devices_initialized :
  (forall devices,
     registry NB_EFFECT MAX_KEYS default_deadzone sdl2_defaults hash_me devices ->
     Forall properly_initialized devices) /\
  (forall g_conf sdl n i devices t,
     m_no_error (new g_conf sdl i t).1 = false ->
     enum_from g_conf sdl (S n) i devices t =
     enum_from g_conf sdl n (i + 1) devices
       (destroy sdl (new g_conf sdl i t).1 (new g_conf sdl i t).2).2) /\
  (forall g_conf sdl devices t,
     (init_library g_conf sdl t).1 = true ->
     Forall properly_initialized (enumerate g_conf sdl devices t).1).
Proof.
  split; [|split].
  - intros devices Hreg. induction Hreg as [|devices g_conf sdl t _ IH].
    + constructor.
    + by apply enumerate_initialized.
  - intros g_conf sdl n i devices t Hno.
    rewrite enumerate_from_step, Hno. reflexivity.
  - intros g_conf sdl devices t Hinit. unfold EnumerateSDL2.
    rewrite bind_eq, Hinit, bind_eq, clear_registry.
    apply enumerate_from_initialized. constructor.
Qed.

(** When the subsystems are not all up and [SDL_Init] fails,
    [EnumerateSDL2] sets the hint, calls [SDL_Init], prints nothing and
    returns before it reaches the registry. *)
Lemma enumerate_init_fails g_conf sdl devices t :
  init_fails sdl t ->
  enumerate g_conf sdl devices t =
  (devices, t ++ [Call_SetHint_background_events; Call_Init (init_flags sdl)]).
Proof.
  intros [Hwas Hinit]. unfold EnumerateSDL2, init_library.
  rewrite bind_eq.
  destruct (Z.eqb_spec (Z.land (SDL_WasInit sdl t) (init_flags sdl)) (init_flags sdl))
    as [Heq|_]; [contradiction|]. cbn [negb].
  rewrite !bind_eq, call_eq, ask_eq; cbn [fst snd].
  destruct (Z.ltb_spec (SDL_Init sdl (t ++ [Call_SetHint_background_events])
                          (init_flags sdl)) 0) as [_|Hge]; [|lia].
  rewrite !ret_eq; cbn [fst snd]. by rewrite <- app_assoc.
Qed.

End Enumeration.

Lemma registry_devices_initialized_witness :
  let r := EnumerateSDL2 2 Example.MAX_KEYS 1500 Example.defaults Example.hash
             (Example.config 100 true) (Example.machine 24 0 0) [] [] in
  registry 2 Example.MAX_KEYS 1500 Example.defaults Example.hash r.1 /\
  length r.1 = 1%nat /\
  Forall properly_initialized r.1.
Proof.
  intros r.
  assert (Hreg : registry 2 Example.MAX_KEYS 1500 Example.defaults Example.hash r.1)
    by (apply registry_enumerate, registry_start).
  split; [exact Hreg|]. split; [reflexivity|].
  exact (proj1 (registry_devices_initialized 2 Example.MAX_KEYS 1500
                  Example.defaults Example.hash) r.1 Hreg).
Defined.



(** ** Binary digits and shifts *)

Lemma digits2_pos_size p : digits2_pos p = Pos.size p.
Proof. induction p; cbn; congruence. Qed.

Lemma Zdigits2_bounds m :
  0 < m -> 2 ^ (Zdigits2 m - 1) <= m < 2 ^ Zdigits2 m.
Proof.
  destruct m as [|p|p]; try lia. intros _. cbn [Zdigits2].
  rewrite digits2_pos_size.
  pose proof (Pos.size_gt p) as Hgt. pose proof (Pos.size_le p) as Hle.
  apply Pos2Z.pos_lt_pos in Hgt. apply Pos2Z.pos_le_pos in Hle.
  rewrite Pos2Z.inj_pow in Hgt, Hle.
  replace (Z.pos (Pos.size p)) with (Z.succ (Z.pos (Pos.size p) - 1)) in Hle at 1 by lia.
  rewrite Z.pow_succ_r in Hle by lia. lia.
Qed.

Lemma Zdigits2_nonneg m : 0 <= Zdigits2 m.
Proof. destruct m; cbn; lia. Qed.

Lemma Zdigits2_pos m : 0 < m -> 0 < Zdigits2 m.
Proof. destruct m; cbn; lia. Qed.

(** A positive number below [2 ^ k] has at most [k] digits. *)
Lemma Zdigits2_le_of_lt m k : 0 <= m < 2 ^ k -> 0 <= k -> Zdigits2 m <= k.
Proof.
  intros [H0 Hlt] Hk.
  destruct (Z.eq_dec m 0) as [->|Hne]; [cbn; lia|].
  destruct (Zdigits2_bounds m) as [Hlo _]; [lia|].
  destruct (Z.le_gt_cases (Zdigits2 m) k) as [|Hgt]; [assumption|exfalso].
  assert (2 ^ k <= 2 ^ (Zdigits2 m - 1)) by (apply Z.pow_le_mono_r; lia).
  lia.
Qed.

Lemma Zdigits2_div_pow2 m n :
  0 <= m -> 0 <= n -> Zdigits2 (m / 2 ^ n) <= Z.max (Zdigits2 m - n) 0.
Proof.
  intros Hm Hn.
  destruct (Z.eq_dec m 0) as [->|Hne].
  { rewrite Z.div_0_l by (apply Z.pow_nonzero; lia). cbn. lia. }
  destruct (Zdigits2_bounds m) as [_ Hhi]; [lia|].
  apply Zdigits2_le_of_lt; [|lia].
  split; [apply Z.div_pos; lia|].
  apply Z.div_lt_upper_bound; [lia|].
  destruct (Z.le_gt_cases n (Zdigits2 m)).
  - rewrite Z.max_l by lia. rewrite <- Z.pow_add_r by lia.
    replace (n + (Zdigits2 m - n)) with (Zdigits2 m) by lia. assumption.
  - rewrite Z.max_r by lia. rewrite Z.pow_0_r, Z.mul_1_r.
    eapply Z.lt_le_trans; [exact Hhi|]. apply Z.pow_le_mono_r; lia.
Qed.

Lemma Zdigits2_succ m : 0 <= m -> Zdigits2 (m + 1) <= Zdigits2 m + 1.
Proof.
  intros Hm. pose proof (Zdigits2_nonneg m).
  destruct (Z.eq_dec m 0) as [->|Hne]; [change (1 <= 0 + 1); lia|].
  destruct (Zdigits2_bounds m) as [_ Hhi]; [lia|].
  apply Zdigits2_le_of_lt; [|lia].
  rewrite Z.pow_add_r, Z.pow_1_r by lia. lia.
Qed.

(** [iter_pos] is plain iteration. *)
Lemma iter_pos_nat {A} (f : A -> A) p x :
  SpecFloat.iter_pos f p x = Nat.iter (Pos.to_nat p) f x.
Proof.
  revert x; induction p as [p IH|p IH|]; intros x; cbn [SpecFloat.iter_pos].
  - rewrite !IH, Pos2Nat.inj_xI.
    replace (S (2 * Pos.to_nat p)) with (Pos.to_nat p + (Pos.to_nat p + 1))%nat by lia.
    rewrite !Nat.iter_add. reflexivity.
  - rewrite !IH, Pos2Nat.inj_xO.
    replace (2 * Pos.to_nat p)%nat with (Pos.to_nat p + Pos.to_nat p)%nat by lia.
    rewrite Nat.iter_add. reflexivity.
  - reflexivity.
Qed.

Lemma shr_1_m mrs : 0 <= shr_m mrs -> shr_m (shr_1 mrs) = shr_m mrs / 2.
Proof.
  destruct mrs as [m r s]; cbn [shr_m]. intros Hm.
  destruct m as [|[p|p|]|p]; cbn [shr_1 shr_m]; try lia; try reflexivity.
  - rewrite Pos2Z.inj_xI. apply Z.div_unique with 1; lia.
  - rewrite Pos2Z.inj_xO. apply Z.div_unique with 0; lia.
Qed.

Lemma shr_1_r mrs : 0 <= shr_m mrs -> shr_r (shr_1 mrs) = Z.odd (shr_m mrs).
Proof.
  destruct mrs as [m r s]; cbn [shr_m]. intros Hm.
  destruct m as [|[p|p|]|p]; cbn [shr_1 shr_r]; try lia; reflexivity.
Qed.

Lemma shr_iter_m n mrs :
  0 <= shr_m mrs ->
  shr_m (Nat.iter n shr_1 mrs) = shr_m mrs / 2 ^ Z.of_nat n.
Proof.
  intros Hm. induction n as [|n IH].
  - cbn. by rewrite Z.div_1_r.
  - rewrite Nat.iter_succ, shr_1_m, IH.
    + rewrite Nat2Z.inj_succ, Z.pow_succ_r by lia.
      rewrite Z.div_div by lia. f_equal. lia.
    + rewrite IH. apply Z.div_pos; lia.
Qed.

Lemma shr_iter_r n mrs :
  0 <= shr_m mrs ->
  shr_r (Nat.iter (S n) shr_1 mrs) = Z.odd (shr_m mrs / 2 ^ Z.of_nat n).
Proof.
  intros Hm. rewrite Nat.iter_succ, shr_1_r, shr_iter_m; [reflexivity|assumption|].
  rewrite shr_iter_m by assumption. apply Z.div_pos; lia.
Qed.

(** What [shr] leaves of a mantissa that is not negative. *)
Lemma shr_spec mrs e n :
  0 <= shr_m mrs ->
  shr_m (shr mrs e n).1 = shr_m mrs / 2 ^ Z.max n 0 /\
  (shr mrs e n).2 = e + Z.max n 0 /\
  (0 < n -> shr_r (shr mrs e n).1 = true -> 0 < shr_m mrs mod 2 ^ n).
Proof.
  intros Hm. destruct n as [|p|p]; cbn [shr fst snd].
  - rewrite Z.div_1_r. split; [reflexivity|]. split; lia.
  - rewrite iter_pos_nat, shr_iter_m, positive_nat_Z by assumption.
    rewrite Z.max_l by lia. split; [reflexivity|]. split; [reflexivity|].
    intros _ Hr. destruct (Pos2Nat.is_succ p) as [k Hk].
    rewrite Hk, shr_iter_r in Hr by assumption.
    assert (Hp : Z.pos p = Z.succ (Z.of_nat k)) by lia.
    rewrite Hp, Z.pow_succ_r by lia.
    rewrite Z.mul_comm, Z.rem_mul_r by lia.
    pose proof (Zmod_odd (shr_m mrs / 2 ^ Z.of_nat k)) as Hodd. rewrite Hr in Hodd.
    pose proof (Z.mod_pos_bound (shr_m mrs) (2 ^ Z.of_nat k)).
    nia.
  - rewrite Z.div_1_r. split; [reflexivity|]. split; lia.
Qed.

Lemma Zdigits2_le a b : 0 <= a <= b -> Zdigits2 a <= Zdigits2 b.
Proof.
  intros [Ha Hab].
  destruct (Z.eq_dec b 0) as [->|Hb]; [replace a with 0 by lia; lia|].
  destruct (Zdigits2_bounds b) as [_ Hhi]; [lia|].
  apply Zdigits2_le_of_lt; [lia|apply Zdigits2_nonneg].
Qed.

Lemma shr_record_of_loc_m m l : shr_m (shr_record_of_loc m l) = m.
Proof. by destruct l as [|[]]. Qed.

(** Rounding to nearest moves a mantissa up by one at most, and only when
    the round bit is set. *)
Lemma round_nearest_even_bounds mrs :
  shr_m mrs <= round_nearest_even (shr_m mrs) (loc_of_shr_record mrs) <= shr_m mrs + 1 /\
  (round_nearest_even (shr_m mrs) (loc_of_shr_record mrs) <> shr_m mrs ->
   shr_r mrs = true).
Proof.
  destruct mrs as [q [|] [|]]; cbn; try destruct (Z.even q); split; (lia || tauto).
Qed.

Lemma floor_scaled_shift m e k :
  0 <= m -> e <= 0 -> 0 <= k ->
  floor_scaled (m / 2 ^ k) (e + k) <= m / 2 ^ (- e).
Proof.
  intros Hm He Hk. unfold floor_scaled.
  destruct (Z.ltb_spec (e + k) 0) as [Hlt|Hge].
  - rewrite Z.div_div, <- Z.pow_add_r by lia.
    replace (k + - (e + k)) with (- e) by lia. lia.
  - replace k with (- e + (e + k)) at 1 by lia.
    rewrite Z.pow_add_r, <- Z.div_div by lia.
    rewrite Z.mul_comm. apply Z.mul_div_le. lia.
Qed.

Lemma round_up_le_ceil m n E :
  0 < n <= E -> 0 < m mod 2 ^ n ->
  (m / 2 ^ n + 1) / 2 ^ (E - n) <= (m + 2 ^ E - 1) / 2 ^ E.
Proof.
  intros [Hn HE] Hrem.
  assert (H2n : 0 < 2 ^ n) by lia.
  assert (H2d : 0 < 2 ^ (E - n)) by lia.
  assert (H2E : 2 ^ E = 2 ^ n * 2 ^ (E - n)).
  { rewrite <- Z.pow_add_r by lia. f_equal. lia. }
  apply Z.div_le_lower_bound; [lia|].
  pose proof (Z.mul_div_le (m / 2 ^ n + 1) (2 ^ (E - n)) H2d) as Hc.
  pose proof (Z.div_mod m (2 ^ n)) as Hdm.
  assert (2 ^ n <= 2 ^ E) by (apply Z.pow_le_mono_r; lia).
  rewrite H2E at 1. nia.
Qed.

Section Rounding.

Variable prec emax : Z.

#[local] Abbreviation rounded := (rounded prec emax).

Lemma binary_round_aux_rounded sx m e l :
  binary_round_aux prec emax sx m e l =
  match (rounded m e l).1 with
  | 0 => S754_zero sx
  | Z.pos p =>
      if (rounded m e l).2 <=? emax - prec then S754_finite sx p (rounded m e l).2
      else S754_infinity sx
  | Z.neg _ => S754_nan
  end.
Proof.
  unfold binary_round_aux, rounded.
  destruct (shr_fexp prec emax m e l) as [mrs1 e1]; cbn [fst snd].
  destruct (shr_fexp prec emax _ e1 loc_Exact) as [mrs2 e2]; reflexivity.
Qed.

Lemma rounded_bounds m e l :
  0 < prec -> 0 <= m ->
  0 <= (rounded m e l).1 /\
  (rounded m e l).2 <= Z.max e (Z.max (Zdigits2 m + e + 1 - prec) (emin prec emax)) /\
  Zdigits2 (rounded m e l).1 + (rounded m e l).2
    <= Z.max e (Z.max (Zdigits2 m + e + 1) (emin prec emax + 1)).
Proof.
  intros prec_pos Hm. unfold rounded, shr_fexp.
  set (n := fexp prec emax (Zdigits2 m + e) - e).
  destruct (shr_spec (shr_record_of_loc m l) e n) as (Hq & He1 & _).
  { by rewrite shr_record_of_loc_m. }
  rewrite shr_record_of_loc_m in Hq.
  set (r1 := shr (shr_record_of_loc m l) e n) in *.
  destruct (round_nearest_even_bounds r1.1) as [Hm1 _].
  set (m1 := round_nearest_even (shr_m r1.1) (loc_of_shr_record r1.1)) in *.
  assert (Hq0 : 0 <= shr_m r1.1) by (rewrite Hq; apply Z.div_pos; lia).
  set (n2 := fexp prec emax (Zdigits2 m1 + r1.2) - r1.2).
  destruct (shr_spec (shr_record_of_loc m1 loc_Exact) r1.2 n2) as (Hm2 & He2 & _).
  { cbn. lia. }
  rewrite shr_record_of_loc_m in Hm2.
  rewrite Hm2, He2. cbn [fst snd].
  assert (Hm2' : 0 <= m1 / 2 ^ Z.max n2 0) by (apply Z.div_pos; lia).
  assert (Hd1 : Zdigits2 m1 <= Zdigits2 (shr_m r1.1) + 1).
  { etransitivity; [apply (Zdigits2_le m1 (shr_m r1.1 + 1)); lia|].
    by apply Zdigits2_succ. }
  assert (Hdq : Zdigits2 (shr_m r1.1) <= Z.max (Zdigits2 m - Z.max n 0) 0).
  { rewrite Hq. apply Zdigits2_div_pow2; lia. }
  assert (Hd2 : Zdigits2 (m1 / 2 ^ Z.max n2 0) <= Z.max (Zdigits2 m1 - Z.max n2 0) 0).
  { apply Zdigits2_div_pow2; lia. }
  pose proof (Zdigits2_nonneg m) as Hdm.
  clear Hm2 He2. subst n n2. unfold fexp in *. clearbody m1 r1.
  assert (Hmag1 : Zdigits2 m1 + r1.2
                  <= Z.max (Zdigits2 m + e + 1) (emin prec emax + 1)) by lia.
  lia.
Qed.

(** An exact product below [2 ^ prec] rounds to a number whose integer part
    is at most the product rounded up to an integer. *)
Lemma rounded_exact_floor m e :
  emin prec emax <= 0 -> 0 <= m -> e <= 0 -> Zdigits2 m + e <= prec ->
  floor_scaled (rounded m e loc_Exact).1 (rounded m e loc_Exact).2
  <= (m + 2 ^ (- e) - 1) / 2 ^ (- e).
Proof.
  intros emin_neg Hm He Hd. unfold rounded, shr_fexp.
  set (n := fexp prec emax (Zdigits2 m + e) - e).
  destruct (shr_spec (shr_record_of_loc m loc_Exact) e n) as (Hq & He1 & Hr).
  { cbn. lia. }
  rewrite shr_record_of_loc_m in Hq, Hr.
  set (r1 := shr (shr_record_of_loc m loc_Exact) e n) in *.
  destruct (round_nearest_even_bounds r1.1) as [Hm1 Hup].
  set (m1 := round_nearest_even (shr_m r1.1) (loc_of_shr_record r1.1)) in *.
  assert (Hq0 : 0 <= shr_m r1.1) by (rewrite Hq; apply Z.div_pos; lia).
  set (n2 := fexp prec emax (Zdigits2 m1 + r1.2) - r1.2).
  destruct (shr_spec (shr_record_of_loc m1 loc_Exact) r1.2 n2) as (Hm2 & He2 & _).
  { cbn. lia. }
  rewrite shr_record_of_loc_m in Hm2.
  rewrite Hm2, He2. cbn [fst snd].
  assert (He1' : r1.2 <= 0) by (clear - He1 He Hd emin_neg; subst n; unfold fexp in *; clearbody r1; lia).
  etransitivity; [apply floor_scaled_shift; lia|].
  assert (H2 : 0 < 2 ^ (- e)) by lia.
  destruct (Z.eq_dec m1 (shr_m r1.1)) as [Heq|Hne].
  - rewrite Heq, Hq, He1, Z.div_div, <- Z.pow_add_r by lia.
    replace (Z.max n 0 + - (e + Z.max n 0)) with (- e) by lia.
    apply Z.div_le_mono; lia.
  - assert (Hm1' : m1 = shr_m r1.1 + 1) by lia.
    specialize (Hup Hne).
    destruct (Z.le_gt_cases n 0) as [Hn|Hn].
    + exfalso. unfold r1 in Hup. destruct n; cbn in Hup; try discriminate; lia.
    + specialize (Hr Hn Hup).
      rewrite Hm1', Hq, He1, Z.max_l by lia.
      replace (- (e + n)) with (- e - n) by lia.
      apply round_up_le_ceil; [|assumption].
      clear - He1 He1' Hn. clearbody r1 n. lia.
Qed.

End Rounding.

Lemma Zdigits2_unique m k : 0 < k -> 2 ^ (k - 1) <= m < 2 ^ k -> Zdigits2 m = k.
Proof.
  intros Hk [Hlo Hhi].
  assert (Hm : 0 < m) by (pose proof (Z.pow_pos_nonneg 2 (k - 1)); lia).
  pose proof (Zdigits2_le_of_lt m k) as Hle.
  destruct (Zdigits2_bounds m Hm) as [_ Hup].
  pose proof (Zdigits2_pos m Hm) as Hpos.
  destruct (Z.eq_dec (Zdigits2 m) k) as [|Hne]; [assumption|exfalso].
  assert (2 ^ Zdigits2 m <= 2 ^ (k - 1)) by (apply Z.pow_le_mono_r; lia).
  lia.
Qed.

Lemma Zdigits2_mul_pow2 m d :
  0 < m -> 0 <= d -> Zdigits2 (m * 2 ^ d) = Zdigits2 m + d.
Proof.
  intros Hm Hd. pose proof (Zdigits2_pos m Hm) as Hpos.
  destruct (Zdigits2_bounds m Hm) as [Hlo Hhi].
  apply Zdigits2_unique; [lia|].
  replace (Zdigits2 m + d - 1) with (Zdigits2 m - 1 + d) by lia.
  rewrite !Z.pow_add_r by lia.
  assert (0 < 2 ^ d) by lia. nia.
Qed.

Lemma shl_align_spec p e e' :
  (shl_align p e e').2 = Z.min e e' /\
  Z.pos (shl_align p e e').1 = Z.pos p * 2 ^ (e - Z.min e e').
Proof.
  unfold shl_align. destruct (e' - e) as [|d|d] eqn:Hd; cbn [fst snd].
  - rewrite Z.min_l by lia. rewrite Z.sub_diag. lia.
  - rewrite Z.min_l by lia. rewrite Z.sub_diag. lia.
  - rewrite Z.min_r by lia. split; [reflexivity|].
    replace (e - e') with (Z.pos d) by lia.
    change (Pos.iter xO p d) with (shift_pos d p).
    rewrite shift_pos_correct. change (Z.pow_pos 2 d) with (2 ^ Z.pos d). lia.
Qed.

Lemma rounded_exact_id prec emax m e :
  fexp prec emax (Zdigits2 m + e) - e <= 0 ->
  rounded prec emax m e loc_Exact = (m, e).
Proof.
  intros Hn. unfold rounded.
  assert (Hshr : shr_fexp prec emax m e loc_Exact =
                 ({| shr_m := m; shr_r := false; shr_s := false |}, e)).
  { unfold shr_fexp. cbn [shr_record_of_loc].
    destruct (fexp prec emax (Zdigits2 m + e) - e); [reflexivity|lia|reflexivity]. }
  rewrite Hshr. cbn [fst snd shr_m loc_of_shr_record round_nearest_even].
  rewrite Hshr. reflexivity.
Qed.

(** A mantissa that fits is only aligned, never rounded. *)
Lemma binary_round_exact prec emax sx p e :
  fexp prec emax (Zdigits2 (Z.pos p) + e) <= e ->
  fexp prec emax (Zdigits2 (Z.pos p) + e) <= emax - prec ->
  exists mz,
    binary_round prec emax sx p e =
      S754_finite sx mz (fexp prec emax (Zdigits2 (Z.pos p) + e)) /\
    Z.pos mz = Z.pos p * 2 ^ (e - fexp prec emax (Zdigits2 (Z.pos p) + e)).
Proof.
  intros He Hmax. unfold binary_round.
  change (Z.pos (digits2_pos p)) with (Zdigits2 (Z.pos p)).
  set (e' := fexp prec emax (Zdigits2 (Z.pos p) + e)) in *.
  destruct (shl_align_spec p e e') as [Hez Hmz].
  destruct (shl_align p e e') as [mz ez]. cbn [fst snd] in Hez, Hmz.
  rewrite Z.min_r in Hez, Hmz by lia. subst ez.
  exists mz. split; [|exact Hmz].
  rewrite binary_round_aux_rounded, rounded_exact_id.
  - cbn [fst snd]. destruct (Z.leb_spec e' (emax - prec)); [reflexivity|lia].
  - rewrite Hmz, Zdigits2_mul_pow2 by lia.
    replace (Zdigits2 (Z.pos p) + (e - e') + e') with (Zdigits2 (Z.pos p) + e) by lia.
    fold e'. lia.
Qed.

(** An [int] of at most 24 bits converts to [float] exactly. *)
Lemma float_of_int_exact v :
  v <> 0 -> Z.abs v < 2 ^ 24 ->
  exists m e,
    float_of_int v = S754_finite (v <? 0) m e /\ e <= 0 /\
    Z.pos m = Z.abs v * 2 ^ (- e).
Proof.
  intros Hv Hlt. unfold float_of_int, binary_normalize.
  destruct v as [|p|p]; [congruence| |].
  - assert (Hd : Zdigits2 (Z.pos p) <= 24) by (apply Zdigits2_le_of_lt; lia).
    pose proof (Zdigits2_pos (Z.pos p) eq_refl) as Hd0.
    destruct (binary_round_exact 24 128 false p 0) as (mz & Hr & Hmz);
      [unfold fexp, emin; lia..|].
    exists mz, (fexp 24 128 (Zdigits2 (Z.pos p) + 0)).
    split; [exact Hr|]. split; [unfold fexp, emin; lia|].
    rewrite Hmz, Z.sub_0_l. reflexivity.
  - assert (Hd : Zdigits2 (Z.pos p) <= 24) by (apply Zdigits2_le_of_lt; lia).
    pose proof (Zdigits2_pos (Z.pos p) eq_refl) as Hd0.
    destruct (binary_round_exact 24 128 true p 0) as (mz & Hr & Hmz);
      [unfold fexp, emin; lia..|].
    exists mz, (fexp 24 128 (Zdigits2 (Z.pos p) + 0)).
    split; [exact Hr|]. split; [unfold fexp, emin; lia|].
    rewrite Hmz, Z.sub_0_l. reflexivity.
Qed.

Lemma truncate_floor_scaled s m e :
  truncate s m e = cond_Zopp s (floor_scaled (Z.pos m) e).
Proof.
  unfold truncate, floor_scaled. destruct e as [|p|p]; try reflexivity.
Qed.

Lemma abs_cond_Zopp s z : Z.abs (cond_Zopp s z) = Z.abs z.
Proof. destruct s; cbn; lia. Qed.

Lemma floor_scaled_nonneg m e : 0 <= m -> 0 <= floor_scaled m e.
Proof.
  intros Hm. unfold floor_scaled. destruct (Z.ltb_spec e 0).
  - apply Z.div_pos; [lia|]. apply Z.pow_pos_nonneg; lia.
  - apply Z.mul_nonneg_nonneg; [lia|]. apply Z.pow_nonneg; lia.
Qed.

(** [value *= k] for a positive factor [mk * 2 ^ ek]: when the exact product
    is at most an integer [C] below [2 ^ 24], the result is defined and its
    magnitude is at most [C]. *)
Lemma scale_bound v mk ek C :
  v <> 0 -> Z.abs v < 2 ^ 24 -> ek <= 0 ->
  Z.abs v * Z.pos mk <= C * 2 ^ (- ek) -> C < 2 ^ 24 ->
  exists z, scale v (S754_finite false mk ek) = Some z /\ Z.abs z <= C.
Proof.
  intros Hv Hlt Hek Hprod HC.
  destruct (float_of_int_exact v Hv Hlt) as (mv & ev & Hf & Hev & Hmv).
  unfold scale, float_mul. rewrite Hf. cbn [SFmul].
  rewrite binary_round_aux_rounded.
  set (M := Z.pos (mv * mk)). set (e := ev + ek).
  assert (H2k : 0 < 2 ^ (- ek)) by lia.
  assert (H2v : 0 < 2 ^ (- ev)) by lia.
  assert (H2e : 2 ^ (- e) = 2 ^ (- ev) * 2 ^ (- ek)).
  { unfold e. rewrite <- Z.pow_add_r by lia. f_equal. lia. }
  assert (HC0 : 0 < C) by nia.
  assert (HM : M <= C * 2 ^ (- e)).
  { unfold M. rewrite Pos2Z.inj_mul, Hmv, H2e. nia. }
  assert (Hdig : Zdigits2 M + e <= 24).
  { assert (Zdigits2 M <= 24 - e); [|lia].
    apply Zdigits2_le_of_lt; [|lia]. split; [lia|].
    replace (24 - e) with (24 + - e) by lia.
    rewrite Z.pow_add_r by lia. nia. }
  destruct (rounded_bounds 24 128 M e loc_Exact) as (Hm2 & He2 & _); [lia..|].
  pose proof (rounded_exact_floor 24 128 M e) as Hfl.
  specialize (Hfl ltac:(cbv; discriminate) ltac:(lia) ltac:(lia) Hdig).
  assert (Hceil : (M + 2 ^ (- e) - 1) / 2 ^ (- e) <= C).
  { assert ((M + 2 ^ (- e) - 1) / 2 ^ (- e) < C + 1); [|lia].
    apply Z.div_lt_upper_bound; lia. }
  destruct (rounded 24 128 M e loc_Exact) as [m2 e2]; cbn [fst snd] in *.
  destruct m2 as [|p|p]; [| |lia].
  - exists 0. split; [reflexivity|cbn; lia].
  - assert (He2' : e2 <= 128 - 24) by (unfold emin in *; lia).
    destruct (Z.leb_spec e2 (128 - 24)); [|lia].
    cbn [int_of_float]. rewrite truncate_floor_scaled.
    pose proof (floor_scaled_nonneg (Z.pos p) e2 ltac:(lia)) as Hnn.
    set (z := cond_Zopp _ _).
    assert (Hz : Z.abs z <= C).
    { unfold z. rewrite abs_cond_Zopp. lia. }
    exists z. split; [|exact Hz].
    assert (Hmin : INT_MIN = - 2 ^ 31) by reflexivity.
    assert (Hmax : INT_MAX = 2 ^ 31 - 1) by reflexivity.
    destruct (Z.leb_spec INT_MIN z); destruct (Z.leb_spec z INT_MAX);
      cbn [andb]; [reflexivity|lia..].
Qed.

(** ** Rounding below a representable bound *)

Lemma le_scaled_base m e N g c :
  c <= e -> c <= g ->
  (m * 2 ^ (e - c) <= N * 2 ^ (g - c) <-> le_scaled m e N g).
Proof.
  intros He Hg. unfold le_scaled.
  set (b := Z.min e g).
  assert (Hb : c <= b) by (unfold b; lia).
  replace (e - c) with (e - b + (b - c)) by lia.
  replace (g - c) with (g - b + (b - c)) by lia.
  rewrite !Z.pow_add_r by (unfold b; lia).
  assert (0 < 2 ^ (b - c)) by (apply Z.pow_pos_nonneg; lia).
  rewrite !Z.mul_assoc. split; intros H1.
  - eapply Z.mul_le_mono_pos_r; eassumption.
  - apply Z.mul_le_mono_nonneg_r; [lia|exact H1].
Qed.

(** Rounding never passes a number [N * 2 ^ g] that is above the exact
    value and that the rounded format holds. *)
Lemma rounded_le prec emax m e l N g :
  0 < prec -> 0 <= m ->
  Z.max e (fexp prec emax (Zdigits2 m + e)) <= g ->
  le_scaled (match l with loc_Exact => m | _ => m + 1 end) e N g ->
  le_scaled (rounded prec emax m e l).1 (rounded prec emax m e l).2 N g.
Proof.
  intros Hprec Hm Hg Hle. unfold rounded, shr_fexp.
  set (n := fexp prec emax (Zdigits2 m + e) - e) in *.
  destruct (shr_spec (shr_record_of_loc m l) e n) as (Hq & He1 & Hr).
  { by rewrite shr_record_of_loc_m. }
  rewrite shr_record_of_loc_m in Hq, Hr.
  assert (Hr0 : n <= 0 -> shr (shr_record_of_loc m l) e n = (shr_record_of_loc m l, e)).
  { intros Hn. destruct n; try reflexivity; lia. }
  set (r1 := shr (shr_record_of_loc m l) e n) in *.
  destruct (round_nearest_even_bounds r1.1) as [Hm1 Hup].
  set (m1 := round_nearest_even (shr_m r1.1) (loc_of_shr_record r1.1)) in *.
  set (n2 := fexp prec emax (Zdigits2 m1 + r1.2) - r1.2).
  assert (Hq0 : 0 <= shr_m r1.1) by (rewrite Hq; apply Z.div_pos; lia).
  destruct (shr_spec (shr_record_of_loc m1 loc_Exact) r1.2 n2) as (Hm2 & He2 & _).
  { cbn. lia. }
  rewrite shr_record_of_loc_m in Hm2. rewrite Hm2, He2. cbn [fst snd].
  set (k1 := Z.max n 0) in *. set (k2 := Z.max n2 0) in *.
  assert (Hk1 : 0 <= k1) by (unfold k1; lia).
  assert (Hk2 : 0 <= k2) by (unfold k2; lia).
  assert (He1g : r1.2 <= g).
  { rewrite He1. unfold k1, n. clear - Hg. lia. }
  apply (le_scaled_base _ _ _ _ r1.2); [lia|exact He1g|].
  replace (r1.2 + k2 - r1.2) with k2 by lia.
  (* the rounded mantissa is at most the bound at the rounding exponent *)
  assert (Hbound : m1 <= N * 2 ^ (g - r1.2)).
  { set (N' := N * 2 ^ (g - r1.2)).
    assert (H2k : 0 < 2 ^ k1) by (apply Z.pow_pos_nonneg; lia).
    assert (HNe : N * 2 ^ (g - e) = N' * 2 ^ k1).
    { unfold N'. rewrite <- Z.mul_assoc, <- Z.pow_add_r by lia.
      do 2 f_equal. lia. }
    assert (Hle0 : m <= N' * 2 ^ k1).
    { rewrite <- HNe.
      assert (Hle' : le_scaled m e N g).
      { destruct l; [exact Hle|].
        revert Hle. unfold le_scaled.
        assert (0 <= 2 ^ (e - Z.min e g)) by (apply Z.pow_nonneg; lia). nia. }
      apply (le_scaled_base _ _ _ _ e) in Hle'; [|lia..].
      by rewrite Z.sub_diag, Z.pow_0_r, Z.mul_1_r in Hle'. }
    assert (HqN : shr_m r1.1 <= N').
    { rewrite Hq. fold k1.
      apply Z.div_le_upper_bound; [lia|]. rewrite Z.mul_comm. exact Hle0. }
    destruct (Z.eq_dec m1 (shr_m r1.1)) as [->|Hne]; [exact HqN|].
    specialize (Hup Hne).
    assert (shr_m r1.1 < N'); [|lia].
    destruct (Z.le_gt_cases n 0) as [Hn|Hn].
    - (* no shift: the location given was inexact *)
      specialize (Hr0 Hn). fold r1 in Hr0.
      rewrite Hr0 in Hup |- *. cbn [fst] in Hup |- *.
      rewrite shr_record_of_loc_m.
      assert (Hk10 : k1 = 0) by (unfold k1; lia).
      rewrite Hk10, Z.pow_0_r, Z.mul_1_r in HNe.
      destruct l as [|c]; [discriminate Hup|].
      apply (le_scaled_base _ _ _ _ e) in Hle; [|lia..].
      rewrite Z.sub_diag, Z.pow_0_r, Z.mul_1_r in Hle. lia.
    - (* a shift that dropped a bit *)
      specialize (Hr Hn Hup).
      assert (Hk1n : k1 = n) by (unfold k1; lia).
      rewrite Hk1n in *.
      pose proof (Z.div_mod m (2 ^ n) ltac:(lia)) as Hdm.
      rewrite Hq. nia. }
  assert (H2k2 : 0 < 2 ^ k2) by (apply Z.pow_pos_nonneg; lia).
  pose proof (Z.mul_div_le m1 (2 ^ k2) H2k2) as Hdiv.
  lia.
Qed.

(** ** The sensitivity factor *)

Lemma new_location_exact nb k :
  new_location nb k = loc_Exact <-> k = 0.
Proof.
  unfold new_location, new_location_even, new_location_odd.
  destruct (Z.even nb); cbv beta;
    (destruct (Z.eqb_spec k 0) as [->|Hk]; split; intros H;
     first [reflexivity | discriminate H | contradiction]).
Qed.

Lemma SFdiv_core_binary_spec prec emax m1 e1 m2 e2 :
  SFdiv_core_binary prec emax m1 e1 m2 e2 =
  let e' := Z.min (fexp prec emax (Zdigits2 m1 + e1 - (Zdigits2 m2 + e2))) (e1 - e2) in
  let m' := m1 * 2 ^ (e1 - e2 - e') in
  (m' / m2, e', new_location m2 (m' mod m2)).
Proof.
  unfold SFdiv_core_binary. cbv zeta.
  set (e' := Z.min _ (e1 - e2)).
  assert (Hs : 0 <= e1 - e2 - e') by (unfold e'; lia).
  assert (Hm' : match e1 - e2 - e' with
                | 0 => m1
                | Z.pos _ => Z.shiftl m1 (e1 - e2 - e')
                | Z.neg _ => 0
                end = m1 * 2 ^ (e1 - e2 - e')).
  { destruct (e1 - e2 - e') eqn:Heq; [lia| |lia].
    by rewrite Z.shiftl_mul_pow2. }
  rewrite Hm'. unfold Z.div, Z.modulo.
  by destruct (Z.div_eucl _ m2).
Qed.

Lemma binary64_of_pos_exact sx p :
  Z.pos p < 2 ^ 53 ->
  exists m,
    binary_round 53 1024 sx p 0 = S754_finite sx m (Zdigits2 (Z.pos p) - 53) /\
    Z.pos m = Z.pos p * 2 ^ (53 - Zdigits2 (Z.pos p)) /\
    Zdigits2 (Z.pos m) = 53.
Proof.
  intros Hlt.
  assert (Hd : Zdigits2 (Z.pos p) <= 53) by (apply Zdigits2_le_of_lt; lia).
  pose proof (Zdigits2_pos (Z.pos p) eq_refl) as Hd0.
  assert (Hfe : fexp 53 1024 (Zdigits2 (Z.pos p) + 0) = Zdigits2 (Z.pos p) - 53)
    by (unfold fexp, emin; lia).
  destruct (binary_round_exact 53 1024 sx p 0) as (mz & Hr & Hmz);
    [rewrite Hfe; lia..|].
  rewrite Hfe in Hr, Hmz. exists mz. split; [exact Hr|].
  replace (0 - (Zdigits2 (Z.pos p) - 53)) with (53 - Zdigits2 (Z.pos p)) in Hmz by lia.
  split; [exact Hmz|]. rewrite Hmz, Zdigits2_mul_pow2; lia.
Qed.

(** An integer of at most 53 bits converts to [double] exactly. *)
Lemma double_of_int_exact v :
  v <> 0 -> Z.abs v < 2 ^ 53 ->
  exists m,
    double_of_int v = S754_finite (v <? 0) m (Zdigits2 v - 53) /\
    Z.pos m = Z.abs v * 2 ^ (53 - Zdigits2 v) /\
    Zdigits2 (Z.pos m) = 53.
Proof.
  intros Hv Hlt. unfold double_of_int, binary_normalize.
  destruct v as [|p|p]; [congruence| |].
  - exact (binary64_of_pos_exact false p Hlt).
  - exact (binary64_of_pos_exact true p Hlt).
Qed.

Lemma le_scaled_digits m e N g B :
  0 < m -> 0 <= B -> le_scaled m e N g -> N < 2 ^ B -> Zdigits2 m + e <= B + g.
Proof.
  intros Hm HB Hle HN. unfold le_scaled in Hle.
  set (c := Z.min e g) in *.
  assert (Hec : 0 <= e - c) by (unfold c; lia).
  assert (Hgc : 0 <= g - c) by (unfold c; lia).
  assert (Hlt : m * 2 ^ (e - c) < 2 ^ (B + (g - c))).
  { rewrite Z.pow_add_r by lia.
    assert (0 < 2 ^ (g - c)) by (apply Z.pow_pos_nonneg; lia). nia. }
  assert (0 < 2 ^ (e - c)) by (apply Z.pow_pos_nonneg; lia).
  pose proof (Zdigits2_le_of_lt (m * 2 ^ (e - c)) (B + (g - c))) as Hd.
  rewrite Zdigits2_mul_pow2 in Hd by lia.
  specialize (Hd ltac:(nia) ltac:(lia)). lia.
Qed.

Lemma le_scaled_same_value m e m' e' N g :
  e' <= e -> m' = m * 2 ^ (e - e') -> le_scaled m e N g -> le_scaled m' e' N g.
Proof.
  intros He -> Hle.
  apply (proj1 (le_scaled_base _ e' N g (Z.min e' g) ltac:(lia) ltac:(lia))).
  apply (proj2 (le_scaled_base m e N g (Z.min e' g) ltac:(lia) ltac:(lia))) in Hle.
  rewrite <- Z.mul_assoc, <- Z.pow_add_r by lia.
  replace (e - e' + (e' - Z.min e' g)) with (e - Z.min e' g) by lia.
  exact Hle.
Qed.

(** [100.0], as a [double]. *)
Lemma double_of_int_100 :
  double_of_int 100 = S754_finite false 7036874417766400 (-46).
Proof. reflexivity. Qed.

(** The division [s / 100.0] is one rounding of the quotient of
    [|s| * 2 ^ (106 - digits s)] by [100 * 2 ^ 46], at exponent
    [digits s - 60]. *)
Lemma double_div_100 s :
  s <> 0 -> Z.abs s < 2 ^ 53 ->
  let my := 7036874417766400 in
  let m' := Z.abs s * 2 ^ (106 - Zdigits2 s) in
  let e' := Zdigits2 s - 60 in
  double_div (double_of_int s) (double_of_int 100) =
  match (rounded 53 1024 (m' / my) e' (new_location my (m' mod my))).1 with
  | 0 => S754_zero (s <? 0)
  | Z.pos p =>
      if (rounded 53 1024 (m' / my) e' (new_location my (m' mod my))).2 <=? 1024 - 53
      then S754_finite (s <? 0) p
             (rounded 53 1024 (m' / my) e' (new_location my (m' mod my))).2
      else S754_infinity (s <? 0)
  | Z.neg _ => S754_nan
  end.
Proof.
  intros Hs Hlt my m' e'.
  destruct (double_of_int_exact s Hs Hlt) as (ms & Hds & Hms & Hdig).
  assert (Hd : Zdigits2 s <= 53).
  { replace (Zdigits2 s) with (Zdigits2 (Z.abs s)) by (by destruct s).
    apply Zdigits2_le_of_lt; lia. }
  assert (Hd0 : 0 < Zdigits2 s) by (destruct s; [congruence|reflexivity..]).
  rewrite Hds, double_of_int_100. unfold double_div. cbn [SFdiv].
  rewrite SFdiv_core_binary_spec. cbv zeta.
  rewrite Hdig. change (Zdigits2 7036874417766400) with 53.
  assert (He : Z.min (fexp 53 1024 (53 + (Zdigits2 s - 53) - (53 + -46)))
                     (Zdigits2 s - 53 - -46) = e')
    by (unfold fexp, emin, e'; lia).
  rewrite He.
  assert (Hm : Z.pos ms * 2 ^ (Zdigits2 s - 53 - -46 - e') = m').
  { unfold m', e'. rewrite Hms, <- Z.mul_assoc, <- Z.pow_add_r by lia.
    do 2 f_equal. lia. }
  rewrite Hm, binary_round_aux_rounded.
  replace (xorb (s <? 0) false) with (s <? 0) by (by destruct (s <? 0)).
  reflexivity.
Qed.

(** The conversion to [float] is one rounding of the aligned mantissa. *)
Lemma float_of_double_finite sx p e :
  exists mz ez,
    ez <= e /\ ez <= fexp 24 128 (Zdigits2 (Z.pos p) + e) /\
    Z.pos mz = Z.pos p * 2 ^ (e - ez) /\
    Zdigits2 (Z.pos mz) + ez = Zdigits2 (Z.pos p) + e /\
    float_of_double (S754_finite sx p e) =
    match (rounded 24 128 (Z.pos mz) ez loc_Exact).1 with
    | 0 => S754_zero sx
    | Z.pos m =>
        if (rounded 24 128 (Z.pos mz) ez loc_Exact).2 <=? 128 - 24
        then S754_finite sx m (rounded 24 128 (Z.pos mz) ez loc_Exact).2
        else S754_infinity sx
    | Z.neg _ => S754_nan
    end.
Proof.
  cbn [float_of_double]. unfold binary_round.
  change (Z.pos (digits2_pos p)) with (Zdigits2 (Z.pos p)).
  destruct (shl_align_spec p e (fexp 24 128 (Zdigits2 (Z.pos p) + e))) as [Hez Hmz].
  destruct (shl_align p e _) as [mz ez]. cbn [fst snd] in Hez, Hmz.
  exists mz, ez. rewrite <- Hez in Hmz.
  split; [lia|]. split; [lia|]. split; [exact Hmz|].
  split; [rewrite Hmz, Zdigits2_mul_pow2; lia|].
  apply binary_round_aux_rounded.
Qed.

Lemma le_scaled_15 m e N :
  le_scaled m e N (-15) -> e <= 0 -> 32768 * m <= N * 2 ^ (- e).
Proof.
  intros Hle He. unfold le_scaled in Hle.
  set (c := Z.min e (-15)) in *.
  assert (H1 : 0 <= 15 + c - e) by (unfold c; lia).
  assert (H2 : 0 < 2 ^ (15 + c - e)) by (apply Z.pow_pos_nonneg; lia).
  assert (Hl : m * 2 ^ (e - c) * 2 ^ (15 + c - e) = 32768 * m).
  { rewrite <- Z.mul_assoc, <- Z.pow_add_r by (unfold c; lia).
    replace (e - c + (15 + c - e)) with 15 by lia. lia. }
  assert (Hr : N * 2 ^ (-15 - c) * 2 ^ (15 + c - e) = N * 2 ^ (- e)).
  { rewrite <- Z.mul_assoc, <- Z.pow_add_r by (unfold c; lia).
    do 2 f_equal. lia. }
  rewrite <- Hl, <- Hr. apply Z.mul_le_mono_nonneg_r; lia.
Qed.

Lemma factor_0 : factor 0 = S754_zero false.
Proof. reflexivity. Qed.

Lemma stick_bound_spec s : 32768 * s <= 100 * stick_bound s < 32768 * s + 100.
Proof. unfold stick_bound. pose proof (Z.div_mod (32768 * s + 99) 100). 
  pose proof (Z.mod_pos_bound (32768 * s + 99) 100). lia. Qed.

(** For a sensitivity whose bound stays below [2 ^ 24], the factor is a
    zero or a positive number whose product with 0x8000 is at most the
    bound. *)
Lemma factor_below_bound s :
  0 <= s -> stick_bound s < 2 ^ 24 ->
  factor s = S754_zero false \/
  exists mk ek,
    factor s = S754_finite false mk ek /\ ek <= 0 /\
    32768 * Z.pos mk <= stick_bound s * 2 ^ (- ek).
Proof.
  intros Hs0 HN.
  destruct (Z.eq_dec s 0) as [->|Hne]; [left; exact factor_0|].
  assert (Hs : 0 < s) by lia.
  pose proof (stick_bound_spec s) as [HN100 _].
  set (N := stick_bound s) in *.
  assert (Hd : Zdigits2 s <= 16) by (apply Zdigits2_le_of_lt; lia).
  pose proof (Zdigits2_pos s Hs) as Hd0.
  unfold factor. rewrite double_div_100 by lia. cbv zeta.
  replace (s <? 0) with false by (symmetry; apply Z.ltb_ge; lia).
  rewrite (Z.abs_eq s) by lia.
  set (my := 7036874417766400).
  set (m' := s * 2 ^ (106 - Zdigits2 s)).
  set (e' := Zdigits2 s - 60).
  set (q := m' / my). set (r := m' mod my).
  set (N' := N * 2 ^ (-15 - e')).
  assert (Hmy : my = 100 * 2 ^ 46) by reflexivity.
  assert (H2 : 0 < 2 ^ (91 - Zdigits2 s)) by (apply Z.pow_pos_nonneg; lia).
  assert (Hm'N : m' <= my * N').
  { unfold m', N', e'.
    replace (106 - Zdigits2 s) with (15 + (91 - Zdigits2 s)) by lia.
    replace (-15 - (Zdigits2 s - 60)) with (91 - Zdigits2 s - 46) by lia.
    assert (H46 : 2 ^ (91 - Zdigits2 s) = 2 ^ 46 * 2 ^ (91 - Zdigits2 s - 46)).
    { rewrite <- Z.pow_add_r by lia. f_equal. lia. }
    rewrite Z.pow_add_r, H46, Hmy by lia.
    assert (0 < 2 ^ (91 - Zdigits2 s - 46)) by (apply Z.pow_pos_nonneg; lia).
    change (2 ^ 15) with 32768. nia. }
  assert (Hm'0 : 0 <= m') by (unfold m'; nia).
  assert (Hq0 : 0 <= q) by (apply Z.div_pos; [exact Hm'0|reflexivity]).
  assert (HqN : q <= N') by (apply Z.div_le_upper_bound; [reflexivity|exact Hm'N]).
  assert (Hr : r <> 0 -> q + 1 <= N').
  { intros Hr. pose proof (Z.div_mod m' my ltac:(discriminate)) as Hdm.
    pose proof (Z.mod_pos_bound m' my eq_refl) as Hrb.
    fold q r in Hdm, Hrb. assert (0 < my) by reflexivity. nia. }
  assert (He' : e' <= -15) by (unfold e'; lia).
  assert (Hbase : forall x, x <= N' -> le_scaled x e' N (-15)).
  { intros x Hx.
    apply (proj1 (le_scaled_base x e' N (-15) e' ltac:(lia) He')).
    rewrite Z.sub_diag, Z.pow_0_r, Z.mul_1_r. exact Hx. }
  assert (Hdq : Zdigits2 q + e' <= 9).
  { destruct (Z.eq_dec q 0) as [->|Hq]; [cbn; lia|].
    apply (le_scaled_digits q e' N (-15) 24); [lia|lia|by apply Hbase|exact HN]. }
  pose proof (rounded_le 53 1024 q e' (new_location my r) N (-15) eq_refl Hq0) as HleD.
  pose proof (rounded_bounds 53 1024 q e' (new_location my r) eq_refl Hq0)
    as (HmD & HeD & _).
  assert (HleD' : le_scaled (rounded 53 1024 q e' (new_location my r)).1
                    (rounded 53 1024 q e' (new_location my r)).2 N (-15)).
  { apply HleD; [unfold fexp, emin; lia|].
    destruct (new_location my r) eqn:Hloc; [by apply Hbase|].
    apply Hbase, Hr. intros Hr0.
    apply (proj2 (new_location_exact my r)) in Hr0. congruence. }
  clear HleD.
  destruct (rounded 53 1024 q e' (new_location my r)) as [mD eD].
  cbn [fst snd] in *.
  destruct mD as [|pD|pD]; [left; reflexivity| |lia].
  assert (HeD' : eD <= 1024 - 53) by (unfold emin in *; lia).
  destruct (Z.leb_spec eD (1024 - 53)); [|lia].
  destruct (float_of_double_finite false pD eD)
    as (mz & ez & Hez & Hezf & Hmz & Hdz & ->).
  assert (HdD : Zdigits2 (Z.pos pD) + eD <= 9)
    by (apply (le_scaled_digits _ _ N (-15) 24); [lia|lia|exact HleD'|exact HN]).
  assert (Hlez : le_scaled (Z.pos mz) ez N (-15))
    by (exact (le_scaled_same_value _ _ _ _ _ _ Hez Hmz HleD')).
  pose proof (rounded_le 24 128 (Z.pos mz) ez loc_Exact N (-15) eq_refl ltac:(lia))
    as Hlek.
  specialize (Hlek ltac:(unfold fexp, emin in *; lia) Hlez).
  pose proof (rounded_bounds 24 128 (Z.pos mz) ez loc_Exact eq_refl ltac:(lia))
    as (Hmk & Hek & _).
  destruct (rounded 24 128 (Z.pos mz) ez loc_Exact) as [mk ek].
  cbn [fst snd] in *.
  destruct mk as [|pk|pk]; [left; reflexivity| |lia].
  assert (Hek' : ek <= -14) by (unfold fexp, emin in *; lia).
  destruct (Z.leb_spec ek (128 - 24)); [|lia].
  right. exists pk, ek. split; [reflexivity|]. split; [lia|].
  apply le_scaled_15; [exact Hlek|lia].
Qed.

(** Whatever the 32-bit sensitivity, the factor is a zero or finite. *)
Lemma factor_finite s :
  Z.abs s < 2 ^ 32 ->
  match factor s with
  | S754_zero _ | S754_finite _ _ _ => True
  | _ => False
  end.
Proof.
  intros Hlt.
  destruct (Z.eq_dec s 0) as [->|Hne]; [exact I|].
  assert (Hd : Zdigits2 s <= 32).
  { replace (Zdigits2 s) with (Zdigits2 (Z.abs s)) by (by destruct s).
    apply Zdigits2_le_of_lt; lia. }
  assert (Hd0 : 0 < Zdigits2 s) by (destruct s; [congruence|reflexivity..]).
  unfold factor. rewrite double_div_100 by lia. cbv zeta.
  set (my := 7036874417766400).
  set (m' := Z.abs s * 2 ^ (106 - Zdigits2 s)).
  set (e' := Zdigits2 s - 60).
  set (q := m' / my). set (r := m' mod my).
  assert (H2 : 0 < 2 ^ (106 - Zdigits2 s)) by (apply Z.pow_pos_nonneg; lia).
  assert (Hm'0 : 0 < m') by (unfold m'; nia).
  assert (Hq0 : 0 <= q) by (apply Z.div_pos; [lia|reflexivity]).
  assert (Hqm : q <= m').
  { apply Z.div_le_upper_bound; [reflexivity|]. unfold my. lia. }
  assert (Hdm : Zdigits2 m' = 106).
  { unfold m'. rewrite Zdigits2_mul_pow2 by lia.
    replace (Zdigits2 (Z.abs s)) with (Zdigits2 s) by (by destruct s). lia. }
  assert (Hdq : Zdigits2 q <= 106) by (rewrite <- Hdm; apply Zdigits2_le; lia).
  pose proof (rounded_bounds 53 1024 q e' (new_location my r) eq_refl Hq0)
    as (HmD & HeD & HdD).
  destruct (rounded 53 1024 q e' (new_location my r)) as [mD eD].
  cbn [fst snd] in *.
  destruct mD as [|pD|pD]; [exact I| |lia].
  assert (HeD' : eD <= 1024 - 53) by (unfold emin, e' in *; lia).
  destruct (Z.leb_spec eD (1024 - 53)); [|lia].
  destruct (float_of_double_finite (s <? 0) pD eD)
    as (mz & ez & Hez & Hezf & Hmz & Hdz & ->).
  pose proof (rounded_bounds 24 128 (Z.pos mz) ez loc_Exact eq_refl ltac:(lia))
    as (Hmk & Hek & _).
  destruct (rounded 24 128 (Z.pos mz) ez loc_Exact) as [mk ek].
  cbn [fst snd] in *.
  destruct mk as [|pk|pk]; [exact I| |lia].
  assert (Hek' : ek <= 128 - 24) by (unfold fexp, emin, e' in *; lia).
  destruct (Z.leb_spec ek (128 - 24)); [exact I|lia].
Qed.

(** ** Rounding above a representable bound *)

(** The second alignment of a rounding loses nothing: it only happens when
    the mantissa was rounded up to [2 ^ prec]. *)
Lemma rounded_value prec emax m e l :
  0 < prec -> 0 <= m ->
  (shr_fexp prec emax m e l).2 <= (rounded prec emax m e l).2 /\
  (rounded prec emax m e l).1
    * 2 ^ ((rounded prec emax m e l).2 - (shr_fexp prec emax m e l).2) =
  round_nearest_even (shr_m (shr_fexp prec emax m e l).1)
    (loc_of_shr_record (shr_fexp prec emax m e l).1).
Proof.
  intros Hprec Hm. unfold rounded, shr_fexp.
  set (n := fexp prec emax (Zdigits2 m + e) - e).
  destruct (shr_spec (shr_record_of_loc m l) e n) as (Hq & He1 & _).
  { by rewrite shr_record_of_loc_m. }
  rewrite shr_record_of_loc_m in Hq.
  set (r1 := shr (shr_record_of_loc m l) e n) in *.
  destruct (round_nearest_even_bounds r1.1) as [Hm1 _].
  set (m1 := round_nearest_even (shr_m r1.1) (loc_of_shr_record r1.1)) in *.
  assert (Hq0 : 0 <= shr_m r1.1) by (rewrite Hq; apply Z.div_pos; lia).
  set (n2 := fexp prec emax (Zdigits2 m1 + r1.2) - r1.2).
  destruct (shr_spec (shr_record_of_loc m1 loc_Exact) r1.2 n2) as (Hm2 & He2 & _).
  { cbn. lia. }
  rewrite shr_record_of_loc_m in Hm2. rewrite Hm2, He2. cbn [fst snd].
  split; [lia|].
  replace (r1.2 + Z.max n2 0 - r1.2) with (Z.max n2 0) by lia.
  destruct (Z.le_gt_cases n2 0) as [Hn2|Hn2].
  { rewrite Z.max_r by lia. by rewrite Z.pow_0_r, Z.div_1_r, Z.mul_1_r. }
  (* a second shift: the mantissa has one digit too many *)
  assert (Hdq : Zdigits2 (shr_m r1.1) <= Z.max (Zdigits2 m - Z.max n 0) 0).
  { rewrite Hq. apply Zdigits2_div_pow2; lia. }
  pose proof (Zdigits2_nonneg m) as Hdm.
  assert (Hdq' : Zdigits2 (shr_m r1.1) <= prec).
  { clear - Hdq Hdm Hprec. subst n. unfold fexp in *. lia. }
  assert (Hqlt : shr_m r1.1 < 2 ^ prec).
  { destruct (Z.eq_dec (shr_m r1.1) 0) as [->|Hne]; [lia|].
    destruct (Zdigits2_bounds (shr_m r1.1)) as [_ Hhi]; [lia|].
    eapply Z.lt_le_trans; [exact Hhi|]. apply Z.pow_le_mono_r; lia. }
  assert (He1min : emin prec emax <= r1.2).
  { clear - He1. subst n. unfold fexp in *. lia. }
  assert (Hd1 : prec < Zdigits2 m1).
  { clear - Hn2 He1min. subst n2. unfold fexp in *. lia. }
  assert (Hm1eq : m1 = 2 ^ prec).
  { destruct (Z.lt_ge_cases m1 (2 ^ prec)) as [Hlt|Hge]; [|lia].
    pose proof (Zdigits2_le_of_lt m1 prec ltac:(lia) ltac:(lia)). lia. }
  assert (Hd1' : Zdigits2 m1 = prec + 1).
  { apply Zdigits2_unique; [lia|]. rewrite Hm1eq.
    replace (prec + 1 - 1) with prec by lia.
    rewrite Z.pow_add_r, Z.pow_1_r by lia. lia. }
  assert (Hn2' : n2 = 1).
  { clear - Hd1' He1min. subst n2. rewrite Hd1'. unfold fexp in *. lia. }
  rewrite Hn2', Hm1eq. change (Z.max 1 0) with 1. rewrite Z.pow_1_r.
  assert (Hp : 2 ^ prec = 2 ^ (prec - 1) * 2).
  { rewrite Z.mul_comm, <- Z.pow_succ_r by lia. f_equal. lia. }
  rewrite Hp, Z.div_mul by lia. reflexivity.
Qed.

(** Rounding never passes a number [N * 2 ^ g] that is below the exact
    value and that the rounded format holds. *)
Lemma rounded_ge prec emax m e l N g :
  0 < prec -> 0 <= m ->
  Z.max e (fexp prec emax (Zdigits2 m + e)) <= g ->
  le_scaled N g m e ->
  le_scaled N g (rounded prec emax m e l).1 (rounded prec emax m e l).2.
Proof.
  intros Hprec Hm Hg Hle.
  destruct (rounded_value prec emax m e l Hprec Hm) as [He2 Hval].
  revert He2 Hval. unfold shr_fexp.
  set (n := fexp prec emax (Zdigits2 m + e) - e) in *.
  destruct (shr_spec (shr_record_of_loc m l) e n) as (Hq & He1 & _).
  { by rewrite shr_record_of_loc_m. }
  rewrite shr_record_of_loc_m in Hq.
  set (r1 := shr (shr_record_of_loc m l) e n) in *.
  destruct (round_nearest_even_bounds r1.1) as [Hm1 _].
  set (m1 := round_nearest_even (shr_m r1.1) (loc_of_shr_record r1.1)) in *.
  set (m2 := (rounded prec emax m e l).1). set (e2 := (rounded prec emax m e l).2).
  intros He2 Hval.
  set (k1 := Z.max n 0) in *.
  assert (Hk1 : 0 <= k1) by (unfold k1; lia).
  assert (He1g : r1.2 <= g).
  { rewrite He1. unfold k1, n. clear - Hg. lia. }
  apply (le_scaled_base _ _ _ _ r1.2); [exact He1g|exact He2|].
  rewrite Hval.
  set (N' := N * 2 ^ (g - r1.2)).
  assert (H2k : 0 < 2 ^ k1) by (apply Z.pow_pos_nonneg; lia).
  assert (HNe : N * 2 ^ (g - e) = N' * 2 ^ k1).
  { unfold N'. rewrite <- Z.mul_assoc, <- Z.pow_add_r by lia.
    do 2 f_equal. lia. }
  assert (Hle0 : N' * 2 ^ k1 <= m).
  { rewrite <- HNe.
    apply (le_scaled_base _ _ _ _ e) in Hle; [|lia..].
    by rewrite Z.sub_diag, Z.pow_0_r, Z.mul_1_r in Hle. }
  assert (HqN : N' <= shr_m r1.1).
  { rewrite Hq. fold k1. apply Z.div_le_lower_bound; [lia|].
    rewrite Z.mul_comm. exact Hle0. }
  lia.
Qed.

Lemma le_scaled_same_value_l N g m e m' e' :
  e' <= e -> m' = m * 2 ^ (e - e') -> le_scaled N g m e -> le_scaled N g m' e'.
Proof.
  intros He -> Hle.
  apply (proj1 (le_scaled_base N g _ e' (Z.min e' g) ltac:(lia) ltac:(lia))).
  apply (proj2 (le_scaled_base N g m e (Z.min e' g) ltac:(lia) ltac:(lia))) in Hle.
  rewrite <- Z.mul_assoc, <- Z.pow_add_r by lia.
  replace (e - e' + (e' - Z.min e' g)) with (e - Z.min e' g) by lia.
  exact Hle.
Qed.

(** The two comparisons against [N * 2 ^ g], without exponents below 0. *)
Lemma le_scaled_upper m e N g :
  e <= 0 -> g <= 0 -> le_scaled m e N g -> 2 ^ (- g) * m <= N * 2 ^ (- e).
Proof.
  intros He Hg Hle. unfold le_scaled in Hle.
  set (c := Z.min e g) in *.
  assert (H2 : 0 < 2 ^ (- e - g + c)) by (apply Z.pow_pos_nonneg; unfold c; lia).
  assert (Hl : m * 2 ^ (e - c) * 2 ^ (- e - g + c) = 2 ^ (- g) * m).
  { rewrite <- Z.mul_assoc, <- Z.pow_add_r by (unfold c; lia).
    replace (e - c + (- e - g + c)) with (- g) by lia. lia. }
  assert (Hr : N * 2 ^ (g - c) * 2 ^ (- e - g + c) = N * 2 ^ (- e)).
  { rewrite <- Z.mul_assoc, <- Z.pow_add_r by (unfold c; lia).
    do 2 f_equal. lia. }
  rewrite <- Hl, <- Hr. apply Z.mul_le_mono_nonneg_r; lia.
Qed.

Lemma le_scaled_lower N g m e :
  e <= 0 -> g <= 0 -> le_scaled N g m e -> N * 2 ^ (- e) <= 2 ^ (- g) * m.
Proof.
  intros He Hg Hle.
  pose proof (le_scaled_upper N g m e Hg He Hle). lia.
Qed.

(** ** The sensitivity factor, from both sides *)

(** The factor lies between any two numbers [Nlo * 2 ^ g] and
    [Nup * 2 ^ g] of 24 bits that [sensibility / 100] lies between: neither
    of the two roundings, to [double] and then to [float], passes a number
    the format holds. *)
Lemma factor_between s Nlo Nup g :
  0 < s < 2 ^ 16 -> -40 <= g <= -1 -> Nup < 2 ^ 24 ->
  100 * Nlo <= s * 2 ^ (- g) <= 100 * Nup ->
  (factor s = S754_zero false /\ Nlo <= 0) \/
  exists mk ek,
    factor s = S754_finite false mk ek /\ ek <= 0 /\
    Nlo * 2 ^ (- ek) <= 2 ^ (- g) * Z.pos mk <= Nup * 2 ^ (- ek).
Proof.
  intros [Hs Hs16] Hg HN [Hlo Hup].
  assert (Hd : Zdigits2 s <= 16) by (apply Zdigits2_le_of_lt; lia).
  pose proof (Zdigits2_pos s Hs) as Hd0.
  unfold factor. rewrite double_div_100 by lia. cbv zeta.
  replace (s <? 0) with false by (symmetry; apply Z.ltb_ge; lia).
  rewrite (Z.abs_eq s) by lia.
  set (my := 7036874417766400).
  set (m' := s * 2 ^ (106 - Zdigits2 s)).
  set (e' := Zdigits2 s - 60).
  set (q := m' / my). set (r := m' mod my).
  set (P := 2 ^ (106 - Zdigits2 s + g)).
  assert (HP : 0 < P) by (apply Z.pow_pos_nonneg; lia).
  assert (H2g : 0 < 2 ^ (- g)) by (apply Z.pow_pos_nonneg; lia).
  assert (Hm' : m' = s * 2 ^ (- g) * P).
  { unfold m', P. rewrite <- Z.mul_assoc, <- Z.pow_add_r by lia.
    do 2 f_equal. lia. }
  assert (Hmy : forall N, my * (N * 2 ^ (g - e')) = 100 * N * P).
  { intros N. unfold P, e'.
    replace (106 - Zdigits2 s + g) with (46 + (g - (Zdigits2 s - 60))) by lia.
    rewrite Z.pow_add_r by lia. change my with (100 * 2 ^ 46). ring. }
  set (Nlo' := Nlo * 2 ^ (g - e')). set (Nup' := Nup * 2 ^ (g - e')).
  assert (Hm'up : m' <= my * Nup').
  { unfold Nup'. rewrite Hmy, Hm'. apply Z.mul_le_mono_nonneg_r; lia. }
  assert (Hm'lo : my * Nlo' <= m').
  { unfold Nlo'. rewrite Hmy, Hm'. apply Z.mul_le_mono_nonneg_r; lia. }
  assert (Hm'0 : 0 <= m') by (unfold m'; nia).
  assert (Hq0 : 0 <= q) by (apply Z.div_pos; [exact Hm'0|reflexivity]).
  assert (Hqup : q <= Nup') by (apply Z.div_le_upper_bound; [reflexivity|exact Hm'up]).
  assert (Hqlo : Nlo' <= q) by (apply Z.div_le_lower_bound; [reflexivity|exact Hm'lo]).
  assert (Hr : r <> 0 -> q + 1 <= Nup').
  { intros Hr. pose proof (Z.div_mod m' my ltac:(discriminate)) as Hdm.
    pose proof (Z.mod_pos_bound m' my eq_refl) as Hrb.
    fold q r in Hdm, Hrb. assert (0 < my) by reflexivity. nia. }
  assert (He' : e' <= g) by (unfold e'; lia).
  assert (Hbase : forall x, x <= Nup' -> le_scaled x e' Nup g).
  { intros x Hx.
    apply (proj1 (le_scaled_base x e' Nup g e' ltac:(lia) He')).
    rewrite Z.sub_diag, Z.pow_0_r, Z.mul_1_r. exact Hx. }
  assert (Hbase' : forall x, Nlo' <= x -> le_scaled Nlo g x e').
  { intros x Hx.
    apply (proj1 (le_scaled_base Nlo g x e' e' He' ltac:(lia))).
    rewrite Z.sub_diag, Z.pow_0_r, Z.mul_1_r. exact Hx. }
  assert (Hzero : forall e, le_scaled Nlo g 0 e -> Nlo <= 0).
  { intros e Hle. unfold le_scaled in Hle. rewrite Z.mul_0_l in Hle.
    assert (0 < 2 ^ (g - Z.min g e)) by (apply Z.pow_pos_nonneg; lia). nia. }
  assert (Hdq : Zdigits2 q + e' <= 24 + g).
  { destruct (Z.eq_dec q 0) as [->|Hq]; [cbn; lia|].
    apply (le_scaled_digits q e' Nup g 24); [lia|lia|by apply Hbase|exact HN]. }
  assert (HfD : Z.max e' (fexp 53 1024 (Zdigits2 q + e')) <= g)
    by (unfold fexp, emin; lia).
  pose proof (rounded_le 53 1024 q e' (new_location my r) Nup g eq_refl Hq0 HfD)
    as HleD.
  pose proof (rounded_ge 53 1024 q e' (new_location my r) Nlo g eq_refl Hq0 HfD
                (Hbase' q Hqlo)) as HgeD.
  pose proof (rounded_bounds 53 1024 q e' (new_location my r) eq_refl Hq0)
    as (HmD & HeD & _).
  assert (HleD' : le_scaled (rounded 53 1024 q e' (new_location my r)).1
                    (rounded 53 1024 q e' (new_location my r)).2 Nup g).
  { apply HleD.
    destruct (new_location my r) eqn:Hloc; [by apply Hbase|].
    apply Hbase, Hr. intros Hr0.
    apply (proj2 (new_location_exact my r)) in Hr0. congruence. }
  clear HleD.
  destruct (rounded 53 1024 q e' (new_location my r)) as [mD eD].
  cbn [fst snd] in *.
  destruct mD as [|pD|pD]; [left; split; [reflexivity|by apply (Hzero eD)]| |lia].
  assert (HeD' : eD <= 1024 - 53) by (unfold emin in *; lia).
  destruct (Z.leb_spec eD (1024 - 53)); [|lia].
  destruct (float_of_double_finite false pD eD)
    as (mz & ez & Hez & Hezf & Hmz & Hdz & ->).
  assert (HdD : Zdigits2 (Z.pos pD) + eD <= 24 + g)
    by (apply (le_scaled_digits _ _ Nup g 24); [lia|lia|exact HleD'|exact HN]).
  assert (Hlez : le_scaled (Z.pos mz) ez Nup g)
    by (exact (le_scaled_same_value _ _ _ _ _ _ Hez Hmz HleD')).
  assert (Hgez : le_scaled Nlo g (Z.pos mz) ez)
    by (exact (le_scaled_same_value_l _ _ _ _ _ _ Hez Hmz HgeD)).
  assert (Hfk : Z.max ez (fexp 24 128 (Zdigits2 (Z.pos mz) + ez)) <= g)
    by (unfold fexp, emin in *; lia).
  pose proof (rounded_le 24 128 (Z.pos mz) ez loc_Exact Nup g eq_refl ltac:(lia)
                Hfk Hlez) as Hlek.
  pose proof (rounded_ge 24 128 (Z.pos mz) ez loc_Exact Nlo g eq_refl ltac:(lia)
                Hfk Hgez) as Hgek.
  pose proof (rounded_bounds 24 128 (Z.pos mz) ez loc_Exact eq_refl ltac:(lia))
    as (Hmk & Hek & _).
  destruct (rounded 24 128 (Z.pos mz) ez loc_Exact) as [mk ek].
  cbn [fst snd] in *.
  destruct mk as [|pk|pk]; [left; split; [reflexivity|by apply (Hzero ek)]| |lia].
  assert (Hek' : ek <= 0) by (unfold fexp, emin in *; lia).
  destruct (Z.leb_spec ek (128 - 24)); [|lia].
  right. exists pk, ek. split; [reflexivity|]. split; [exact Hek'|].
  split.
  - apply le_scaled_lower; [exact Hek'|lia|exact Hgek].
  - apply le_scaled_upper; [exact Hek'|lia|exact Hlek].
Qed.

(** ** The scaled value, from both sides *)

Lemma floor_scaled_nonpos_exp m e : e <= 0 -> floor_scaled m e = m / 2 ^ (- e).
Proof.
  intros He. unfold floor_scaled. destruct (Z.ltb_spec e 0); [reflexivity|].
  replace e with 0 by lia. cbn. by rewrite Z.mul_1_r, Z.div_1_r.
Qed.

Lemma le_scaled_floor N m e : le_scaled N 0 m e -> N <= floor_scaled m e.
Proof.
  unfold le_scaled, floor_scaled. intros Hle.
  destruct (Z.ltb_spec e 0) as [He|He].
  - rewrite Z.min_r, Z.sub_diag, Z.pow_0_r, Z.mul_1_r, Z.sub_0_l in Hle by lia.
    apply Z.div_le_lower_bound; [apply Z.pow_pos_nonneg; lia|].
    rewrite Z.mul_comm. exact Hle.
  - rewrite Z.min_l in Hle by lia.
    rewrite !Z.sub_0_r, Z.pow_0_r, Z.mul_1_r in Hle. exact Hle.
Qed.

(** [value *= k] for a positive factor [mk * 2 ^ ek]: when the exact product
    lies between two integers, the second below [2 ^ 24], the result is
    defined, has the sign of the value and a magnitude between the two. *)
Lemma scale_between v mk ek Clo Cup :
  v <> 0 -> Z.abs v < 2 ^ 24 -> ek <= 0 ->
  Clo * 2 ^ (- ek) <= Z.abs v * Z.pos mk <= Cup * 2 ^ (- ek) -> Cup < 2 ^ 24 ->
  exists a,
    scale v (S754_finite false mk ek) = Some (cond_Zopp (v <? 0) a) /\
    0 <= a /\ Clo <= a <= Cup.
Proof.
  intros Hv Hlt Hek [Hlo Hup] HC.
  destruct (float_of_int_exact v Hv Hlt) as (mv & ev & Hf & Hev & Hmv).
  unfold scale, float_mul. rewrite Hf. cbn [SFmul].
  rewrite binary_round_aux_rounded, xorb_false_r.
  set (M := Z.pos (mv * mk)). set (e := ev + ek).
  assert (H2k : 0 < 2 ^ (- ek)) by lia.
  assert (H2v : 0 < 2 ^ (- ev)) by lia.
  assert (H2e : 2 ^ (- e) = 2 ^ (- ev) * 2 ^ (- ek)).
  { unfold e. rewrite <- Z.pow_add_r by lia. f_equal. lia. }
  assert (HC0 : 0 < Cup) by nia.
  assert (HMeq : M = Z.abs v * Z.pos mk * 2 ^ (- ev)).
  { unfold M. rewrite Pos2Z.inj_mul, Hmv. ring. }
  assert (HMup : M <= Cup * 2 ^ (- e)) by (rewrite HMeq, H2e; nia).
  assert (HMlo : Clo * 2 ^ (- e) <= M) by (rewrite HMeq, H2e; nia).
  assert (Hdig : Zdigits2 M + e <= 24).
  { assert (Zdigits2 M <= 24 - e); [|lia].
    apply Zdigits2_le_of_lt; [|lia]. split; [lia|].
    replace (24 - e) with (24 + - e) by lia.
    rewrite Z.pow_add_r by lia. nia. }
  destruct (rounded_bounds 24 128 M e loc_Exact) as (Hm2 & He2 & _); [lia..|].
  pose proof (rounded_exact_floor 24 128 M e) as Hfl.
  specialize (Hfl ltac:(cbv; discriminate) ltac:(lia) ltac:(lia) Hdig).
  assert (Hceil : (M + 2 ^ (- e) - 1) / 2 ^ (- e) <= Cup).
  { assert ((M + 2 ^ (- e) - 1) / 2 ^ (- e) < Cup + 1); [|lia].
    apply Z.div_lt_upper_bound; lia. }
  assert (Hge : le_scaled Clo 0 (rounded 24 128 M e loc_Exact).1
                  (rounded 24 128 M e loc_Exact).2).
  { apply rounded_ge; [lia|lia|unfold fexp, emin; lia|].
    apply (le_scaled_base Clo 0 M e e); [lia..|].
    by rewrite Z.sub_diag, Z.pow_0_r, Z.mul_1_r, Z.sub_0_l. }
  apply le_scaled_floor in Hge.
  destruct (rounded 24 128 M e loc_Exact) as [m2 e2]; cbn [fst snd] in *.
  destruct m2 as [|p|p]; [| |lia].
  - exists 0. split; [by destruct (v <? 0)|].
    unfold floor_scaled in Hge. destruct (e2 <? 0);
      rewrite ?Zdiv_0_l, ?Z.mul_0_l in Hge; lia.
  - assert (He2' : e2 <= 128 - 24) by (unfold emin in *; lia).
    destruct (Z.leb_spec e2 (128 - 24)); [|lia].
    cbn [int_of_float]. rewrite truncate_floor_scaled.
    pose proof (floor_scaled_nonneg (Z.pos p) e2 ltac:(lia)) as Hnn.
    set (a := floor_scaled (Z.pos p) e2) in *.
    exists a. split; [|lia].
    assert (Hmin : INT_MIN = - 2 ^ 31) by reflexivity.
    assert (Hmax : INT_MAX = 2 ^ 31 - 1) by reflexivity.
    assert (Ha : Z.abs (cond_Zopp (v <? 0) a) <= Cup)
      by (rewrite abs_cond_Zopp; lia).
    destruct (Z.leb_spec INT_MIN (cond_Zopp (v <? 0) a));
      destruct (Z.leb_spec (cond_Zopp (v <? 0) a) INT_MAX);
      cbn [andb]; [reflexivity|lia..].
Qed.

(** Two numbers of equal value have the same integer part. *)
Lemma le_scaled_antisym_floor m e N g :
  e <= 0 -> g <= 0 -> le_scaled m e N g -> le_scaled N g m e ->
  m / 2 ^ (- e) = N / 2 ^ (- g).
Proof.
  intros He Hg Hle Hge.
  pose proof (le_scaled_upper m e N g He Hg Hle) as H1.
  pose proof (le_scaled_lower N g m e He Hg Hge) as H2.
  assert (Heq : 2 ^ (- g) * m = N * 2 ^ (- e)) by lia.
  assert (H2e : 0 < 2 ^ (- e)) by (apply Z.pow_pos_nonneg; lia).
  assert (H2g : 0 < 2 ^ (- g)) by (apply Z.pow_pos_nonneg; lia).
  rewrite <- (Z.div_mul_cancel_l m (2 ^ (- e)) (2 ^ (- g))) by lia.
  rewrite <- (Z.div_mul_cancel_r N (2 ^ (- g)) (2 ^ (- e))) by lia.
  rewrite Heq. reflexivity.
Qed.

(** A small [int] converts to a [float] whose exponent is known. *)
Lemma float_of_int_16 v :
  v <> 0 -> Z.abs v <= 2 ^ 15 ->
  exists m e,
    float_of_int v = S754_finite (v <? 0) m e /\ e <= -8 /\
    Z.pos m = Z.abs v * 2 ^ (- e).
Proof.
  intros Hv Hlt. unfold float_of_int, binary_normalize.
  destruct v as [|p|p]; [congruence| |].
  - assert (Hd : Zdigits2 (Z.pos p) <= 16) by (apply Zdigits2_le_of_lt; lia).
    pose proof (Zdigits2_pos (Z.pos p) eq_refl) as Hd0.
    destruct (binary_round_exact 24 128 false p 0) as (mz & Hr & Hmz);
      [unfold fexp, emin; lia..|].
    exists mz, (fexp 24 128 (Zdigits2 (Z.pos p) + 0)).
    split; [exact Hr|]. split; [unfold fexp, emin; lia|].
    rewrite Hmz, Z.sub_0_l. reflexivity.
  - assert (Hd : Zdigits2 (Z.pos p) <= 16) by (apply Zdigits2_le_of_lt; lia).
    pose proof (Zdigits2_pos (Z.pos p) eq_refl) as Hd0.
    destruct (binary_round_exact 24 128 true p 0) as (mz & Hr & Hmz);
      [unfold fexp, emin; lia..|].
    exists mz, (fexp 24 128 (Zdigits2 (Z.pos p) + 0)).
    split; [exact Hr|]. split; [unfold fexp, emin; lia|].
    rewrite Hmz, Z.sub_0_l. reflexivity.
Qed.

(** [value *= k] for a factor that is exactly [q / 4]: the product is
    exact, and its conversion truncates it toward zero. *)
Lemma scale_quarters v mk ek q :
  v <> 0 -> Z.abs v <= 2 ^ 15 -> ek <= 0 -> 0 < q ->
  4 * Z.pos mk = q * 2 ^ (- ek) -> Z.abs v * q < 2 ^ 24 ->
  scale v (S754_finite false mk ek) = Some (Z.quot (v * q) 4).
Proof.
  intros Hv Hv16 Hek Hq Hmk Hlt.
  destruct (float_of_int_16 v Hv Hv16) as (mv & ev & Hf & Hev & Hmv).
  unfold scale, float_mul. rewrite Hf. cbn [SFmul].
  rewrite binary_round_aux_rounded, xorb_false_r.
  set (M := Z.pos (mv * mk)). set (e := ev + ek).
  set (N := Z.abs v * q).
  assert (HN0 : 0 < N) by (unfold N; nia).
  assert (H2k : 0 < 2 ^ (- ek)) by lia.
  assert (H2v : 0 < 2 ^ (- ev)) by lia.
  assert (He : e <= -8) by (unfold e; lia).
  assert (H2e : 2 ^ (- e) = 2 ^ (- ev) * 2 ^ (- ek)).
  { unfold e. rewrite <- Z.pow_add_r by lia. f_equal. lia. }
  assert (HM : 4 * M = N * 2 ^ (- e)).
  { unfold M, N. rewrite Pos2Z.inj_mul, Hmv, H2e. nia. }
  assert (H2e2 : 2 ^ (- e) = 4 * 2 ^ (- 2 - e)).
  { change 4 with (2 ^ 2). rewrite <- Z.pow_add_r by lia. f_equal. lia. }
  assert (H2e20 : 0 < 2 ^ (- 2 - e)) by (apply Z.pow_pos_nonneg; lia).
  assert (HM' : M = N * 2 ^ (- 2 - e)) by (rewrite H2e2 in HM; nia).
  assert (Hboth : le_scaled M e N (-2) /\ le_scaled N (-2) M e).
  { split.
    - apply (le_scaled_base M e N (-2) e); [lia..|].
      rewrite Z.sub_diag, Z.pow_0_r, Z.mul_1_r. lia.
    - apply (le_scaled_base N (-2) M e e); [lia..|].
      rewrite Z.sub_diag, Z.pow_0_r, Z.mul_1_r. lia. }
  destruct Hboth as [Hle Hge].
  assert (Hdig : Zdigits2 M + e <= 22).
  { apply (le_scaled_digits M e N (-2) 24); [lia|lia|exact Hle|exact Hlt]. }
  assert (Hfe : Z.max e (fexp 24 128 (Zdigits2 M + e)) <= -2)
    by (unfold fexp, emin; lia).
  pose proof (rounded_le 24 128 M e loc_Exact N (-2) eq_refl ltac:(lia) Hfe Hle)
    as Hle2.
  pose proof (rounded_ge 24 128 M e loc_Exact N (-2) eq_refl ltac:(lia) Hfe Hge)
    as Hge2.
  destruct (rounded_bounds 24 128 M e loc_Exact) as (Hm2 & He2 & _); [lia..|].
  destruct (rounded 24 128 M e loc_Exact) as [m2 e2]; cbn [fst snd] in *.
  assert (He2' : e2 <= 0) by (unfold emin in *; lia).
  pose proof (le_scaled_antisym_floor m2 e2 N (-2) He2' ltac:(lia) Hle2 Hge2) as Hfloor.
  change (2 ^ (- -2)) with 4 in Hfloor.
  assert (Hquot : cond_Zopp (v <? 0) (N / 4) = Z.quot (v * q) 4).
  { unfold N. destruct (Z.ltb_spec v 0) as [Hneg|Hpos]; cbn [cond_Zopp].
    - rewrite (Z.abs_neq v) by lia.
      replace (v * q) with (- (- v * q)) by ring.
      rewrite Z.quot_opp_l by lia. f_equal.
      symmetry. apply Z.quot_div_nonneg; nia.
    - rewrite (Z.abs_eq v) by lia. symmetry. apply Z.quot_div_nonneg; nia. }
  assert (Hsmall : N / 4 < 2 ^ 24).
  { apply Z.div_lt_upper_bound; lia. }
  assert (Hnn : 0 <= N / 4) by (apply Z.div_pos; lia).
  destruct m2 as [|p|p]; [| |lia].
  - rewrite Zdiv_0_l in Hfloor. cbn [int_of_float].
    rewrite <- Hquot, <- Hfloor. by destruct (v <? 0).
  - destruct (Z.leb_spec e2 (128 - 24)); [|lia].
    cbn [int_of_float]. rewrite truncate_floor_scaled.
    rewrite floor_scaled_nonpos_exp by exact He2'. rewrite Hfloor, Hquot.
    assert (Hmin : INT_MIN = - 2 ^ 31) by reflexivity.
    assert (Hmax : INT_MAX = 2 ^ 31 - 1) by reflexivity.
    assert (Habs : Z.abs (Z.quot (v * q) 4) < 2 ^ 24)
      by (rewrite <- Hquot, abs_cond_Zopp; lia).
    destruct (Z.leb_spec INT_MIN (Z.quot (v * q) 4));
      destruct (Z.leb_spec (Z.quot (v * q) 4) INT_MAX);
      cbn [andb]; [reflexivity|lia..].
Qed.

(** ** Input *)

Lemma to_Sint16_range x : -32768 <= to_Sint16 x <= 32767.
Proof. unfold to_Sint16. pose proof (Z.mod_pos_bound (x + 32768) 65536). lia. Qed.

Lemma stick_bound_below s : 0 <= s <= 51199 -> 0 <= stick_bound s < 2 ^ 24.
Proof. intros Hs. pose proof (stick_bound_spec s). lia. Qed.

(** Scaling a raw axis value by the factor of a sensitivity of at most
    51199 percent is defined, and bounded by [stick_bound]. *)
Lemma scale_stick_bound s v :
  0 <= s <= 51199 -> -32768 <= v <= 32767 ->
  exists z, scale v (factor s) = Some z /\ Z.abs z <= stick_bound s.
Proof.
  intros Hs Hv. destruct (stick_bound_below s Hs) as [HN0 HN].
  destruct (Z.eq_dec v 0) as [->|Hv0].
  { exists 0. split; [|cbn; lia]. unfold scale, float_mul.
    change (float_of_int 0) with (S754_zero false).
    destruct (factor_below_bound s) as [->|(mk & ek & -> & _)]; [lia|exact HN|..];
      reflexivity. }
  destruct (factor_below_bound s) as [->|(mk & ek & -> & Hek & Hk)]; [lia|exact HN|..].
  - exists 0. split; [|cbn; lia]. unfold scale, float_mul.
    destruct (float_of_int_exact v Hv0) as (mv & ev & -> & _); [lia|reflexivity].
  - apply scale_bound; [exact Hv0|lia|exact Hek| |exact HN].
    assert (0 < 2 ^ (- ek)) by (apply Z.pow_pos_nonneg; lia). nia.
Qed.

(** A raw value of 0 scales to 0 whatever the 32-bit sensitivity. *)
Lemma scale_zero s : Z.abs s < 2 ^ 32 -> scale 0 (factor s) = Some 0.
Proof.
  intros Hs. unfold scale, float_mul.
  change (float_of_int 0) with (S754_zero false).
  pose proof (factor_finite s Hs) as Hfin.
  destruct (factor s); try contradiction; reflexivity.
Qed.

(** Scaling by the factor of a sensitivity of at most 51199 percent gives
    [value * sensibility / 100] to within two units. *)
Lemma scale_accuracy s v :
  0 <= s <= 51199 -> -32768 <= v <= 32767 ->
  exists z, scale v (factor s) = Some z /\ Z.abs z <= stick_bound s /\
            Z.abs (100 * z - v * s) < 200.
Proof.
  intros Hs Hv. destruct (stick_bound_below s Hs) as [HN0 HN].
  destruct (Z.eq_dec v 0) as [->|Hv0].
  { exists 0. rewrite scale_zero by lia. split; [reflexivity|]. cbn. lia. }
  destruct (Z.eq_dec s 0) as [->|Hs0].
  { exists 0. rewrite factor_0. split; [|cbn; lia].
    unfold scale, float_mul.
    destruct (float_of_int_exact v Hv0) as (mv & ev & -> & _); [lia|reflexivity]. }
  set (Nlo := 32768 * s / 100). set (Nup := stick_bound s) in *.
  pose proof (Z.div_mod (32768 * s) 100 ltac:(lia)) as Hdlo.
  pose proof (Z.mod_pos_bound (32768 * s) 100 ltac:(lia)) as Hrlo.
  fold Nlo in Hdlo.
  pose proof (stick_bound_spec s) as [Hup1 Hup2]. fold Nup in Hup1, Hup2.
  destruct (factor_between s Nlo Nup (-15))
    as [[_ Hz]|(mk & ek & -> & Hek & Hklo & Hkup)]; [lia|lia|exact HN| | |].
  { change (2 ^ (- -15)) with 32768. lia. }
  { lia. }
  change (2 ^ (- -15)) with 32768 in Hklo, Hkup.
  set (A := Z.abs v) in *.
  assert (HA : 0 < A <= 32768) by (unfold A; lia).
  set (E := 2 ^ (- ek)) in *.
  assert (HE : 0 < E) by (unfold E; apply Z.pow_pos_nonneg; lia).
  set (Clo := A * Nlo / 32768). set (Cup := (A * Nup + 32767) / 32768).
  pose proof (Z.div_mod (A * Nlo) 32768 ltac:(lia)) as Hdc.
  pose proof (Z.mod_pos_bound (A * Nlo) 32768 ltac:(lia)) as Hrc.
  fold Clo in Hdc.
  pose proof (Z.div_mod (A * Nup + 32767) 32768 ltac:(lia)) as Hdu.
  pose proof (Z.mod_pos_bound (A * Nup + 32767) 32768 ltac:(lia)) as Hru.
  fold Cup in Hdu.
  assert (HNlo0 : 0 <= Nlo) by (unfold Nlo; apply Z.div_pos; lia).
  assert (HANup : A * Nup <= 32768 * Nup) by nia.
  assert (HCup : Cup <= Nup) by lia.
  assert (Hprod_lo : Clo * E <= A * Z.pos mk).
  { assert (32768 * (Clo * E) <= 32768 * (A * Z.pos mk)); [|lia].
    transitivity (A * Nlo * E).
    - assert (32768 * Clo <= A * Nlo) by lia. nia.
    - assert (A * (Nlo * E) <= A * (32768 * Z.pos mk))
        by (apply Z.mul_le_mono_nonneg_l; lia). lia. }
  assert (Hprod_up : A * Z.pos mk <= Cup * E).
  { assert (32768 * (A * Z.pos mk) <= 32768 * (Cup * E)); [|lia].
    transitivity (A * Nup * E).
    - assert (A * (32768 * Z.pos mk) <= A * (Nup * E))
        by (apply Z.mul_le_mono_nonneg_l; lia). lia.
    - assert (A * Nup <= 32768 * Cup) by lia. nia. }
  destruct (scale_between v mk ek Clo Cup Hv0 ltac:(lia) Hek
              (conj Hprod_lo Hprod_up) ltac:(lia))
    as (a & Hscale & Ha0 & Halo & Haup).
  exists (cond_Zopp (v <? 0) a). split; [exact Hscale|].
  split; [rewrite abs_cond_Zopp; lia|].
  assert (HAs1 : A * (100 * Nlo) >= A * (32768 * s - 99)) by nia.
  assert (HAs2 : A * (100 * Nup) <= A * (32768 * s + 99)) by nia.
  assert (Hacc : - 200 < 100 * a - A * s < 200) by lia.
  unfold A in Hacc.
  destruct (Z.ltb_spec v 0); cbn [cond_Zopp]; lia.
Qed.

(** At a sensitivity that is a multiple of 25 percent, up to 12775, the
    factor is a number of quarters and the scaling is the exact
    [value * sensibility / 100], truncated toward zero. *)
Lemma scale_multiple_of_25 q v :
  0 <= q <= 511 -> -32768 <= v <= 32767 ->
  scale v (factor (25 * q)) = Some (Z.quot (v * (25 * q)) 100).
Proof.
  intros Hq Hv.
  assert (Hquot : Z.quot (v * (25 * q)) 100 = Z.quot (v * q) 4).
  { replace (v * (25 * q)) with (25 * (v * q)) by ring.
    change 100 with (25 * 4). apply Z.quot_mul_cancel_l; lia. }
  rewrite Hquot.
  destruct (Z.eq_dec q 0) as [->|Hq0].
  { change (25 * 0) with 0. rewrite (Z.mul_0_r v), factor_0.
    change (Z.quot 0 4) with 0. unfold scale, float_mul.
    destruct (Z.eq_dec v 0) as [->|Hv0]; [reflexivity|].
    destruct (float_of_int_exact v Hv0) as (mv & ev & -> & _); [lia|reflexivity]. }
  destruct (factor_between (25 * q) q q (-2))
    as [[_ Hz]|(mk & ek & -> & Hek & Hklo & Hkup)]; [lia|lia|lia| | |].
  { change (2 ^ (- -2)) with 4. lia. }
  { lia. }
  change (2 ^ (- -2)) with 4 in Hklo, Hkup.
  destruct (Z.eq_dec v 0) as [->|Hv0]; [reflexivity|].
  apply scale_quarters; [exact Hv0|lia|exact Hek|lia|lia|nia].
Qed.

(** A product that is, as a [float], of magnitude exactly [D] converts to
    [D] or [- D]. *)
Lemma int_of_float_magnitude p D :
  0 <= D < 2 ^ 24 -> SFabs p = float_of_int D ->
  exists z, int_of_float p = Some z /\ Z.abs z = D.
Proof.
  intros HD Hp.
  destruct (Z.eq_dec D 0) as [->|HD0].
  { change (float_of_int 0) with (S754_zero false) in Hp.
    destruct p; try discriminate Hp. exists 0. by split. }
  destruct (float_of_int_exact D HD0) as (m & e & Hf & He & Hm); [lia|].
  rewrite Hf in Hp. destruct p as [| | |sx mp ep]; try discriminate Hp.
  cbn [SFabs] in Hp. injection Hp as _ -> ->.
  cbn [int_of_float]. rewrite truncate_floor_scaled.
  assert (Hfl : floor_scaled (Z.pos m) e = D).
  { unfold floor_scaled. rewrite Hm, Z.abs_eq by lia.
    assert (0 < 2 ^ (- e)) by (apply Z.pow_pos_nonneg; lia).
    destruct (Z.ltb_spec e 0).
    - apply Z.div_mul. lia.
    - replace e with 0 by lia. cbn. lia. }
  rewrite Hfl. exists (cond_Zopp sx D).
  assert (Habs : Z.abs (cond_Zopp sx D) = D) by (rewrite abs_cond_Zopp; lia).
  split; [|exact Habs].
  assert (Hmin : INT_MIN = - 2 ^ 31) by reflexivity.
  assert (Hmax : INT_MAX = 2 ^ 31 - 1) by reflexivity.
  destruct (Z.leb_spec INT_MIN (cond_Zopp sx D));
    destruct (Z.leb_spec (cond_Zopp sx D) INT_MAX); cbn [andb]; [reflexivity|lia..].
Qed.

Section Input.

Variable PAD_L2 PAD_R2 : nat.
Variable IsAnalogKey : nat -> bool.
Variable sdl : SDL.

#[local] Abbreviation get_input := (GetInput PAD_L2 PAD_R2 IsAnalogKey).

Lemma GetInput_stick g_conf d input code v' :
  IsAnalogKey input = true ->
  m_bindings d !! input = Some code ->
  scale (to_Sint16 (SDL_GameControllerGetAxis sdl (m_controller d) code))
        (factor (get_sensibility g_conf)) = Some v' ->
  v' <> INT_MIN ->
  get_input g_conf sdl d input = Some (if Z.abs v' >? m_deadzone d then v' else 0).
Proof.
  intros Hkey Hcode Hscale Hmin.
  unfold GetInput. rewrite Hkey, Hcode.
  unfold axis, sensibility_factor. rewrite Hscale.
  unfold abs. destruct (Z.eqb_spec v' INT_MIN); [contradiction|reflexivity].
Qed.

(** C2: for a stick direction, [GetInput] reads the raw axis value [v]
    under the bound code, scales it by [k = sensibility / 100.0] and returns
    the scaled value [v'] when its magnitude is strictly above the dead
    zone, 0 otherwise; a scaled magnitude equal to the dead zone gives 0,
    and so does a product that is, as a [float], of magnitude exactly the
    dead zone.  The scaled value is [v * sensibility / 100]: for every
    sensitivity from 0 to 51199 percent it is defined and within two units
    of it, and at every multiple of 25 percent up to 12775, where the
    factor is exact, it is exactly [v * sensibility / 100] truncated toward
    zero. *)
Theorem stick_input g_conf d input code :
  IsAnalogKey input = true ->
  m_bindings d !! input = Some code ->
  let v := to_Sint16 (SDL_GameControllerGetAxis sdl (m_controller d) code) in
  let s := get_sensibility g_conf in
  let k := factor s in
  (forall v', scale v k = Some v' -> v' <> INT_MIN ->
     get_input g_conf sdl d input =
       Some (if Z.abs v' >? m_deadzone d then v' else 0) /\
     (Z.abs v' = m_deadzone d -> get_input g_conf sdl d input = Some 0)) /\
  (0 <= m_deadzone d < 2 ^ 24 ->
   SFabs (float_mul (float_of_int v) k) = float_of_int (m_deadzone d) ->
   get_input g_conf sdl d input = Some 0) /\
  (0 <= s <= 51199 ->
   exists v', scale v k = Some v' /\ v' <> INT_MIN /\
              Z.abs (100 * v' - v * s) < 200) /\
  (forall q, 0 <= q <= 511 -> s = 25 * q ->
     scale v k = Some (Z.quot (v * s) 100) /\
     get_input g_conf sdl d input =
       Some (if Z.abs (Z.quot (v * s) 100) >? m_deadzone d
             then Z.quot (v * s) 100 else 0)).
Proof.
  intros Hkey Hcode v s k. split; [|split; [|split]].
  2:{ intros HD Hp.
      destruct (int_of_float_magnitude _ _ HD Hp) as (z & Hz & Habs).
      rewrite (GetInput_stick g_conf d input code z Hkey Hcode Hz)
        by (unfold INT_MIN; lia).
      rewrite Habs.
      destruct (Z.gtb_spec (m_deadzone d) (m_deadzone d)); [lia|reflexivity]. }
  - intros v' Hscale Hmin.
    pose proof (GetInput_stick g_conf d input code v' Hkey Hcode Hscale Hmin) as Hget.
    split; [exact Hget|].
    intros Heq. rewrite Hget, Heq.
    destruct (Z.gtb_spec (m_deadzone d) (m_deadzone d)); [lia|reflexivity].
  - intros Hs.
    destruct (scale_accuracy s v Hs (to_Sint16_range _)) as (z & Hz & Hb & Hacc).
    exists z. split; [exact Hz|]. split; [|exact Hacc].
    pose proof (stick_bound_below _ Hs). unfold INT_MIN. lia.
  - intros q Hq Hsq.
    assert (Hscale : scale v k = Some (Z.quot (v * s) 100)).
    { unfold k. rewrite Hsq. apply scale_multiple_of_25; [exact Hq|].
      apply to_Sint16_range. }
    split; [exact Hscale|].
    apply (GetInput_stick g_conf d input code _ Hkey Hcode Hscale).
    pose proof (to_Sint16_range
                  (SDL_GameControllerGetAxis sdl (m_controller d) code)) as Hv.
    fold v in Hv.
    assert (Habs : Z.abs (Z.quot (v * s) 100) <= Z.abs (v * s)).
    { rewrite <- (Z.abs_eq 100) at 1 by lia. rewrite <- Z.quot_abs by lia.
      apply Z.quot_le_upper_bound; [lia|]. pose proof (Z.abs_nonneg (v * s)). lia. }
    assert (Z.abs (v * s) < 2 ^ 31); [|unfold INT_MIN; lia].
    rewrite Z.abs_mul. clearbody v. subst s. rewrite Hsq. nia.
Qed.

(** C3: for a trigger, which is no stick direction, [GetInput] returns the
    raw axis value divided by 128, truncating toward zero, when the raw
    value is strictly above the dead zone, and 0 otherwise, whatever the
    sensitivity; a raw value equal to the dead zone gives 0, one unit above
    it gives [(D + 1) / 128]. *)
Theorem trigger_input g_conf d input code :
  input = PAD_L2 \/ input = PAD_R2 ->
  IsAnalogKey input = false ->
  m_bindings d !! input = Some code ->
  let v := to_Sint16 (SDL_GameControllerGetAxis sdl (m_controller d) code) in
  get_input g_conf sdl d input =
    Some (if v >? m_deadzone d then Z.quot v 128 else 0) /\
  (forall g_conf', get_input g_conf' sdl d input = get_input g_conf sdl d input) /\
  (v = m_deadzone d -> get_input g_conf sdl d input = Some 0) /\
  (v = m_deadzone d + 1 ->
   get_input g_conf sdl d input = Some (Z.quot (m_deadzone d + 1) 128)).
Proof.
  intros Htrig Hkey Hcode v.
  assert (Hget : forall c, get_input c sdl d input =
                           Some (if v >? m_deadzone d then Z.quot v 128 else 0)).
  { intros c. unfold GetInput. rewrite Hkey, Hcode.
    rewrite bool_decide_eq_true_2 by exact Htrig. reflexivity. }
  split; [apply Hget|]. split; [intros c; by rewrite !Hget|].
  split; intros Hv; rewrite Hget, Hv.
  - destruct (Z.gtb_spec (m_deadzone d) (m_deadzone d)); [lia|reflexivity].
  - destruct (Z.gtb_spec (m_deadzone d + 1) (m_deadzone d)); [reflexivity|lia].
Qed.

(** C4, as the code has it: for a stick direction, every raw axis value
    and every sensitivity from 0 to 51199 percent, [GetInput] is defined and
    its magnitude is at most [ceil (0x8000 * sensibility / 100)]; and for
    every 32-bit sensitivity and every dead zone a raw axis value of 0
    gives 0. *)
Theorem stick_input_bounded g_conf d input code :
  IsAnalogKey input = true ->
  m_bindings d !! input = Some code ->
  (0 <= get_sensibility g_conf <= 51199 ->
   exists z, get_input g_conf sdl d input = Some z /\
             Z.abs z <= stick_bound (get_sensibility g_conf) /\
             100 * stick_bound (get_sensibility g_conf)
               < 32768 * get_sensibility g_conf + 100) /\
  (Z.abs (get_sensibility g_conf) < 2 ^ 32 ->
   to_Sint16 (SDL_GameControllerGetAxis sdl (m_controller d) code) = 0 ->
   get_input g_conf sdl d input = Some 0).
Proof.
  intros Hkey Hcode. split.
  - intros Hs.
    destruct (scale_stick_bound (get_sensibility g_conf)
                (to_Sint16 (SDL_GameControllerGetAxis sdl (m_controller d) code))
                Hs (to_Sint16_range _)) as (z & Hz & Hb).
    pose proof (stick_bound_below _ Hs) as HN.
    rewrite (GetInput_stick g_conf d input code z Hkey Hcode Hz)
      by (unfold INT_MIN; lia).
    eexists. split; [reflexivity|].
    split; [|apply stick_bound_spec].
    destruct (_ >? _); lia.
  - intros Hs Hraw.
    rewrite (GetInput_stick g_conf d input code 0 Hkey Hcode).
    + by destruct (_ >? _).
    + rewrite Hraw. by apply scale_zero.
    + discriminate.
Qed.

End Input.

(** At 100 percent a raw value of 8000 against a dead zone of 8000 reads
    0; at 150 percent a raw value of 20001 reads 30001, the exact 30001.5
    truncated; at 110 percent, where the factor is rounded, the scaled
    value is within two units of 22001.1. *)
Lemma stick_input_witness :
  Example.IsAnalogKey Example.PAD_L_UP = true /\
  m_bindings (Example.pad 8000) !! Example.PAD_L_UP = Some 1 /\
  scale 8000 (factor 100) = Some 8000 /\
  8000 <> INT_MIN /\
  Z.abs 8000 = m_deadzone (Example.pad 8000) /\
  0 <= m_deadzone (Example.pad 8000) < 2 ^ 24 /\
  SFabs (float_mul (float_of_int 8000) (factor 100)) = float_of_int 8000 /\
  0 <= get_sensibility (Example.config 110 true) <= 51199 /\
  get_sensibility (Example.config 150 true) = 25 * 6 /\
  GetInput Example.PAD_L2 Example.PAD_R2 Example.IsAnalogKey
    (Example.config 100 true) (Example.machine 0 8000 0) (Example.pad 8000)
    Example.PAD_L_UP = Some 0 /\
  GetInput Example.PAD_L2 Example.PAD_R2 Example.IsAnalogKey
    (Example.config 150 true) (Example.machine 0 20001 0) (Example.pad 8000)
    Example.PAD_L_UP = Some 30001 /\
  exists v',
    scale (to_Sint16 (SDL_GameControllerGetAxis (Example.machine 0 20001 0)
                        (m_controller (Example.pad 8000)) 1))
          (factor (get_sensibility (Example.config 110 true))) = Some v' /\
    v' <> INT_MIN /\
    Z.abs (100 * v' - 20001 * 110) < 200.
Proof.
  assert (Hkey : Example.IsAnalogKey Example.PAD_L_UP = true) by reflexivity.
  assert (Hcode : m_bindings (Example.pad 8000) !! Example.PAD_L_UP = Some 1)
    by reflexivity.
  assert (Hscale : scale 8000 (factor 100) = Some 8000) by (vm_compute; reflexivity).
  assert (Hmin : 8000 <> INT_MIN) by (vm_compute; discriminate).
  assert (Habs : Z.abs 8000 = m_deadzone (Example.pad 8000)) by reflexivity.
  assert (Hs : 0 <= get_sensibility (Example.config 110 true) <= 51199)
    by (vm_compute; split; discriminate).
  assert (Hq : get_sensibility (Example.config 150 true) = 25 * 6) by reflexivity.
  assert (HD : 0 <= m_deadzone (Example.pad 8000) < 2 ^ 24)
    by (vm_compute; split; [discriminate|reflexivity]).
  assert (Hp : SFabs (float_mul (float_of_int 8000) (factor 100)) = float_of_int 8000)
    by (vm_compute; reflexivity).
  destruct (stick_input Example.PAD_L2 Example.PAD_R2 Example.IsAnalogKey
              (Example.machine 0 8000 0) (Example.config 100 true)
              (Example.pad 8000) Example.PAD_L_UP 1 Hkey Hcode)
    as (_ & Hfloat & _).
  destruct (stick_input Example.PAD_L2 Example.PAD_R2 Example.IsAnalogKey
              (Example.machine 0 20001 0) (Example.config 150 true)
              (Example.pad 8000) Example.PAD_L_UP 1 Hkey Hcode)
    as (_ & _ & _ & Hexact).
  destruct (stick_input Example.PAD_L2 Example.PAD_R2 Example.IsAnalogKey
              (Example.machine 0 20001 0) (Example.config 110 true)
              (Example.pad 8000) Example.PAD_L_UP 1 Hkey Hcode)
    as (_ & _ & Hnear & _).
  split; [exact Hkey|]. split; [exact Hcode|]. split; [exact Hscale|].
  split; [exact Hmin|]. split; [exact Habs|]. split; [exact HD|].
  split; [exact Hp|]. split; [exact Hs|]. split; [exact Hq|].
  split; [exact (Hfloat HD Hp)|].
  split; [exact (proj2 (Hexact 6 ltac:(lia) Hq))|].
  exact (Hnear Hs).
Defined.

Lemma trigger_input_witness :
  (Example.PAD_L2 = Example.PAD_L2 \/ Example.PAD_L2 = Example.PAD_R2) /\
  Example.IsAnalogKey Example.PAD_L2 = false /\
  m_bindings (Example.pad 1500) !! Example.PAD_L2 = Some 4 /\
  to_Sint16 (SDL_GameControllerGetAxis (Example.machine 0 1501 0)
               (m_controller (Example.pad 1500)) 4) = m_deadzone (Example.pad 1500) + 1 /\
  GetInput Example.PAD_L2 Example.PAD_R2 Example.IsAnalogKey
    (Example.config 100 true) (Example.machine 0 1501 0) (Example.pad 1500)
    Example.PAD_L2 = Some 11 /\
  to_Sint16 (SDL_GameControllerGetAxis (Example.machine 0 1500 0)
               (m_controller (Example.pad 1500)) 4) = m_deadzone (Example.pad 1500) /\
  GetInput Example.PAD_L2 Example.PAD_R2 Example.IsAnalogKey
    (Example.config 100 true) (Example.machine 0 1500 0) (Example.pad 1500)
    Example.PAD_L2 = Some 0.
Proof.
  assert (Htrig : Example.PAD_L2 = Example.PAD_L2 \/ Example.PAD_L2 = Example.PAD_R2)
    by (left; reflexivity).
  assert (Hkey : Example.IsAnalogKey Example.PAD_L2 = false) by reflexivity.
  assert (Hcode : m_bindings (Example.pad 1500) !! Example.PAD_L2 = Some 4)
    by reflexivity.
  assert (Hv1 : to_Sint16 (SDL_GameControllerGetAxis (Example.machine 0 1501 0)
                             (m_controller (Example.pad 1500)) 4)
                = m_deadzone (Example.pad 1500) + 1) by reflexivity.
  assert (Hv0 : to_Sint16 (SDL_GameControllerGetAxis (Example.machine 0 1500 0)
                             (m_controller (Example.pad 1500)) 4)
                = m_deadzone (Example.pad 1500)) by reflexivity.
  split; [exact Htrig|]. split; [exact Hkey|]. split; [exact Hcode|].
  split; [exact Hv1|]. split.
  - exact (proj2 (proj2 (proj2
             (trigger_input Example.PAD_L2 Example.PAD_R2 Example.IsAnalogKey
                (Example.machine 0 1501 0) (Example.config 100 true)
                (Example.pad 1500) Example.PAD_L2 4 Htrig Hkey Hcode))) Hv1).
  - split; [exact Hv0|].
    exact (proj1 (proj2 (proj2
             (trigger_input Example.PAD_L2 Example.PAD_R2 Example.IsAnalogKey
                (Example.machine 0 1500 0) (Example.config 100 true)
                (Example.pad 1500) Example.PAD_L2 4 Htrig Hkey Hcode))) Hv0).
Defined.

Lemma stick_input_bounded_witness :
  Example.IsAnalogKey Example.PAD_L_UP = true /\
  m_bindings (Example.pad 1500) !! Example.PAD_L_UP = Some 1 /\
  0 <= get_sensibility (Example.config 100 true) <= 51199 /\
  (exists z,
     GetInput Example.PAD_L2 Example.PAD_R2 Example.IsAnalogKey
       (Example.config 100 true) (Example.machine 0 (-32768) 0) (Example.pad 1500)
       Example.PAD_L_UP = Some z /\
     Z.abs z <= stick_bound (get_sensibility (Example.config 100 true)) /\
     100 * stick_bound (get_sensibility (Example.config 100 true))
       < 32768 * get_sensibility (Example.config 100 true) + 100) /\
  Z.abs (get_sensibility (Example.config 4294967295 true)) < 2 ^ 32 /\
  to_Sint16 (SDL_GameControllerGetAxis (Example.machine 0 0 0)
               (m_controller (Example.pad 1500)) 1) = 0 /\
  GetInput Example.PAD_L2 Example.PAD_R2 Example.IsAnalogKey
    (Example.config 4294967295 true) (Example.machine 0 0 0) (Example.pad 1500)
    Example.PAD_L_UP = Some 0.
Proof.
  assert (Hkey : Example.IsAnalogKey Example.PAD_L_UP = true) by reflexivity.
  assert (Hcode : m_bindings (Example.pad 1500) !! Example.PAD_L_UP = Some 1)
    by reflexivity.
  assert (Hs : 0 <= get_sensibility (Example.config 100 true) <= 51199)
    by (vm_compute; split; discriminate).
  assert (Hs' : Z.abs (get_sensibility (Example.config 4294967295 true)) < 2 ^ 32)
    by (vm_compute; reflexivity).
  assert (Hraw : to_Sint16 (SDL_GameControllerGetAxis (Example.machine 0 0 0)
                              (m_controller (Example.pad 1500)) 1) = 0) by reflexivity.
  split; [exact Hkey|]. split; [exact Hcode|]. split; [exact Hs|].
  split.
  - exact (proj1 (stick_input_bounded Example.PAD_L2 Example.PAD_R2
                    Example.IsAnalogKey (Example.machine 0 (-32768) 0)
                    (Example.config 100 true) (Example.pad 1500)
                    Example.PAD_L_UP 1 Hkey Hcode) Hs).
  - split; [exact Hs'|]. split; [exact Hraw|].
    exact (proj2 (stick_input_bounded Example.PAD_L2 Example.PAD_R2
                    Example.IsAnalogKey (Example.machine 0 0 0)
                    (Example.config 4294967295 true) (Example.pad 1500)
                    Example.PAD_L_UP 1 Hkey Hcode) Hs' Hraw).
Defined.

(** C4, as the spec states it, fails at the raw value -32768, which a
    signed 16-bit axis can take: at a sensitivity of 100 percent the result
    is -32768, above [ceil (0x7FFF * 100 / 100)] in magnitude.  And at a
    sensitivity of 102404 percent the result exceeds even
    [ceil (0x8000 * sensibility / 100)], the factor having been rounded
    up. *)
Lemma stick_input_exceeds_stated_bound :
  GetInput Example.PAD_L2 Example.PAD_R2 Example.IsAnalogKey
    (Example.config 100 true) (Example.machine 0 (-32768) 0) (Example.pad 0)
    Example.PAD_L_UP = Some (-32768) /\
  stated_stick_bound 100 = 32767 /\
  ~ Z.abs (-32768) <= stated_stick_bound 100 /\
  GetInput Example.PAD_L2 Example.PAD_R2 Example.IsAnalogKey
    (Example.config 102404 true) (Example.machine 0 (-32768) 0) (Example.pad 0)
    Example.PAD_L_UP = Some (-33555744) /\
  ~ Z.abs (-33555744) <= stick_bound 102404.
Proof.
  split; [vm_compute; reflexivity|]. split; [reflexivity|].
  split; [vm_compute; intros H; apply H; reflexivity|].
  split; [vm_compute; reflexivity|].
  vm_compute. intros H; apply H; reflexivity.
Qed.

(** ** The scenarios of the spec, run *)

Example dead_zone_is_strict :
  GetInput Example.PAD_L2 Example.PAD_R2 Example.IsAnalogKey
    (Example.config 100 true) (Example.machine 0 7999 0) (Example.pad 8000)
    Example.PAD_L_UP = Some 0 /\
  GetInput Example.PAD_L2 Example.PAD_R2 Example.IsAnalogKey
    (Example.config 100 true) (Example.machine 0 8001 0) (Example.pad 8000)
    Example.PAD_L_UP = Some 8001 /\
  GetInput Example.PAD_L2 Example.PAD_R2 Example.IsAnalogKey
    (Example.config 100 true) (Example.machine 0 (-8001) 0) (Example.pad 8000)
    Example.PAD_L_UP = Some (-8001).
Proof. vm_compute. repeat split; reflexivity. Qed.

Example half_sensitivity :
  GetInput Example.PAD_L2 Example.PAD_R2 Example.IsAnalogKey
    (Example.config 50 true) (Example.machine 0 20000 0) (Example.pad 1500)
    Example.PAD_L_UP = Some 10000.
Proof. vm_compute. reflexivity. Qed.

Example pressed_button :
  GetInput Example.PAD_L2 Example.PAD_R2 Example.IsAnalogKey
    (Example.config 100 true) (Example.machine 0 0 0) (Example.pad 1500)
    Example.PAD_CROSS = Some 255.
Proof. vm_compute. reflexivity. Qed.

Example rumble_disabled_or_out_of_range :
  (Rumble (Example.config 100 false) (Example.machine 0 0 0) (Example.pad 1500) 0 0 []).2 = [] /\
  (Rumble (Example.config 100 true) (Example.machine 0 0 0) (Example.pad 1500) 5 0 []).2 = [] /\
  (Rumble (Example.config 100 true) (Example.machine 0 0 0) (Example.pad 1500) 0 0 []).2
    = [Call_HapticRunEffect 30%nat 0 1].
Proof. vm_compute. repeat split; reflexivity. Qed.

Example one_recognised_controller_of_two :
  (EnumerateSDL2 2 Example.MAX_KEYS 1500 Example.defaults Example.hash
     (Example.config 100 true) (Example.machine 24 0 0) [] []).1 = [Example.pad 1500].
Proof. vm_compute. reflexivity. Qed.

(** * Further properties *)

(** ** Buttons, triggers and the domain of [GetInput] *)

Section MoreInput.

Variable PAD_L2 PAD_R2 : nat.
Variable IsAnalogKey : nat -> bool.

#[local] Abbreviation get_input := (GetInput PAD_L2 PAD_R2 IsAnalogKey).

(** X1: for a logical input that is neither a stick direction nor a
    trigger, [GetInput] is 255 when the bound button is down and 0 when it
    is up, and it depends on nothing but the binding table and the
    controller: not on the sensitivity, not on the dead zone. *)
Theorem button_input g_conf sdl d input code :
  IsAnalogKey input = false -> input <> PAD_L2 -> input <> PAD_R2 ->
  m_bindings d !! input = Some code ->
  get_input g_conf sdl d input =
    Some (if SDL_GameControllerGetButton sdl (m_controller d) code =? 0
          then 0 else 255) /\
  (get_input g_conf sdl d input = Some 0 \/
   get_input g_conf sdl d input = Some 255) /\
  (forall g_conf' d',
     m_bindings d' = m_bindings d -> m_controller d' = m_controller d ->
     get_input g_conf' sdl d' input = get_input g_conf sdl d input).
Proof.
  intros Hkey HL HR Hcode.
  assert (Hget : forall c d', m_bindings d' = m_bindings d ->
                   m_controller d' = m_controller d ->
                   get_input c sdl d' input =
                   Some (if SDL_GameControllerGetButton sdl (m_controller d) code =? 0
                         then 0 else 255)).
  { intros c d' Hb Hc. unfold GetInput. rewrite Hkey, Hb, Hc, Hcode.
    rewrite bool_decide_eq_false_2 by (intros [?|?]; contradiction). reflexivity. }
  split; [by apply Hget|]. split.
  - rewrite (Hget g_conf d eq_refl eq_refl). destruct (_ =? 0); [by left|by right].
  - intros c d' Hb Hc. by rewrite !Hget.
Qed.

Lemma GetInput_trigger g_conf sdl d input code :
  input = PAD_L2 \/ input = PAD_R2 -> IsAnalogKey input = false ->
  m_bindings d !! input = Some code ->
  get_input g_conf sdl d input =
    Some (let v := to_Sint16 (SDL_GameControllerGetAxis sdl (m_controller d) code) in
          if v >? m_deadzone d then Z.quot v 128 else 0).
Proof.
  intros Htrig Hkey Hcode. unfold GetInput. rewrite Hkey, Hcode.
  rewrite bool_decide_eq_true_2 by exact Htrig. reflexivity.
Qed.

(** X2: with a dead zone that is not negative, a trigger reads between 0
    and 255, and a larger raw value never reads smaller. *)
Theorem trigger_input_range_monotone g_conf sdl sdl' d input code :
  input = PAD_L2 \/ input = PAD_R2 -> IsAnalogKey input = false ->
  m_bindings d !! input = Some code ->
  0 <= m_deadzone d ->
  exists z z',
    get_input g_conf sdl d input = Some z /\
    get_input g_conf sdl' d input = Some z' /\
    0 <= z <= 255 /\
    (to_Sint16 (SDL_GameControllerGetAxis sdl (m_controller d) code)
     <= to_Sint16 (SDL_GameControllerGetAxis sdl' (m_controller d) code) ->
     z <= z').
Proof.
  intros Htrig Hkey Hcode HD.
  rewrite !(GetInput_trigger _ _ d input code Htrig Hkey Hcode). cbv zeta.
  pose proof (to_Sint16_range (SDL_GameControllerGetAxis sdl (m_controller d) code)) as Hv.
  pose proof (to_Sint16_range (SDL_GameControllerGetAxis sdl' (m_controller d) code)) as Hv'.
  set (v := to_Sint16 _) in *. set (v' := to_Sint16 _) in Hv' |- *.
  clearbody v v'.
  eexists _, _. split; [reflexivity|]. split; [reflexivity|].
  assert (Hq : forall x, 0 <= x <= 32767 -> 0 <= Z.quot x 128 <= 255).
  { intros x Hx. split; [apply Z.quot_pos; lia|].
    assert (Z.quot x 128 < 256); [|lia].
    apply Z.quot_lt_upper_bound; lia. }
  split.
  - destruct (Z.gtb_spec v (m_deadzone d)); [apply Hq|]; lia.
  - intros Hle.
    destruct (Z.gtb_spec v (m_deadzone d)); destruct (Z.gtb_spec v' (m_deadzone d)).
    + apply Z.quot_le_mono; lia.
    + lia.
    + apply Hq. lia.
    + lia.
Qed.

(** X3: for every sensitivity from 0 to 51199 percent, [GetInput] has no
    defined result exactly when the logical input is past the end of the
    binding table. *)
Theorem GetInput_defined_iff_bound g_conf sdl d input :
  0 <= get_sensibility g_conf <= 51199 ->
  (GetInput PAD_L2 PAD_R2 IsAnalogKey g_conf sdl d input = None <->
   (length (m_bindings d) <= input)%nat).
Proof.
  intros Hs. split.
  - intros Hnone.
    destruct (m_bindings d !! input) as [code|] eqn:Hcode;
      [|by apply lookup_ge_None].
    exfalso. revert Hnone.
    destruct (IsAnalogKey input) eqn:Hkey.
    + destruct (scale_stick_bound (get_sensibility g_conf)
                  (to_Sint16 (SDL_GameControllerGetAxis sdl (m_controller d) code))
                  Hs (to_Sint16_range _)) as (z & Hz & Hb).
      pose proof (stick_bound_below _ Hs) as HN.
      rewrite (GetInput_stick PAD_L2 PAD_R2 IsAnalogKey sdl g_conf d input code z
                 Hkey Hcode Hz) by (unfold INT_MIN; lia).
      discriminate.
    + unfold GetInput. rewrite Hkey, Hcode. by destruct (bool_decide _).
  - intros Hlen. apply lookup_ge_None in Hlen.
    unfold GetInput. rewrite Hlen.
    destruct (IsAnalogKey input); [reflexivity|]. by destruct (bool_decide _).
Qed.

End MoreInput.

Lemma button_input_witness :
  Example.IsAnalogKey Example.PAD_CROSS = false /\
  Example.PAD_CROSS <> Example.PAD_L2 /\ Example.PAD_CROSS <> Example.PAD_R2 /\
  m_bindings (Example.pad 1500) !! Example.PAD_CROSS = Some 0 /\
  GetInput Example.PAD_L2 Example.PAD_R2 Example.IsAnalogKey
    (Example.config 100 true) (Example.machine 0 0 0) (Example.pad 1500)
    Example.PAD_CROSS = Some 255.
Proof.
  assert (Hkey : Example.IsAnalogKey Example.PAD_CROSS = false) by reflexivity.
  assert (HL : Example.PAD_CROSS <> Example.PAD_L2) by discriminate.
  assert (HR : Example.PAD_CROSS <> Example.PAD_R2) by discriminate.
  assert (Hcode : m_bindings (Example.pad 1500) !! Example.PAD_CROSS = Some 0)
    by reflexivity.
  split; [exact Hkey|]. split; [exact HL|]. split; [exact HR|].
  split; [exact Hcode|].
  exact (proj1 (button_input Example.PAD_L2 Example.PAD_R2 Example.IsAnalogKey
                  (Example.config 100 true) (Example.machine 0 0 0)
                  (Example.pad 1500) Example.PAD_CROSS 0 Hkey HL HR Hcode)).
Defined.

Lemma trigger_input_range_monotone_witness :
  (Example.PAD_R2 = Example.PAD_L2 \/ Example.PAD_R2 = Example.PAD_R2) /\
  Example.IsAnalogKey Example.PAD_R2 = false /\
  m_bindings (Example.pad 1500) !! Example.PAD_R2 = Some 5 /\
  0 <= m_deadzone (Example.pad 1500) /\
  exists z z',
    GetInput Example.PAD_L2 Example.PAD_R2 Example.IsAnalogKey
      (Example.config 100 true) (Example.machine 0 2000 0) (Example.pad 1500)
      Example.PAD_R2 = Some z /\
    GetInput Example.PAD_L2 Example.PAD_R2 Example.IsAnalogKey
      (Example.config 100 true) (Example.machine 0 32767 0) (Example.pad 1500)
      Example.PAD_R2 = Some z' /\
    0 <= z <= 255 /\
    (to_Sint16 (SDL_GameControllerGetAxis (Example.machine 0 2000 0)
                  (m_controller (Example.pad 1500)) 5)
     <= to_Sint16 (SDL_GameControllerGetAxis (Example.machine 0 32767 0)
                     (m_controller (Example.pad 1500)) 5) ->
     z <= z').
Proof.
  assert (Htrig : Example.PAD_R2 = Example.PAD_L2 \/ Example.PAD_R2 = Example.PAD_R2)
    by (right; reflexivity).
  assert (Hkey : Example.IsAnalogKey Example.PAD_R2 = false) by reflexivity.
  assert (Hcode : m_bindings (Example.pad 1500) !! Example.PAD_R2 = Some 5)
    by reflexivity.
  assert (HD : 0 <= m_deadzone (Example.pad 1500)) by (vm_compute; discriminate).
  split; [exact Htrig|]. split; [exact Hkey|]. split; [exact Hcode|].
  split; [exact HD|].
  exact (trigger_input_range_monotone Example.PAD_L2 Example.PAD_R2
           Example.IsAnalogKey (Example.config 100 true)
           (Example.machine 0 2000 0) (Example.machine 0 32767 0)
           (Example.pad 1500) Example.PAD_R2 5 Htrig Hkey Hcode HD).
Defined.

Lemma GetInput_defined_iff_bound_witness :
  0 <= get_sensibility (Example.config 100 true) <= 51199 /\
  (length (m_bindings (Example.pad 1500)) <= 24)%nat /\
  GetInput Example.PAD_L2 Example.PAD_R2 Example.IsAnalogKey
    (Example.config 100 true) (Example.machine 0 0 0) (Example.pad 1500) 24 = None.
Proof.
  assert (Hs : 0 <= get_sensibility (Example.config 100 true) <= 51199)
    by (vm_compute; split; discriminate).
  assert (Hlen : (length (m_bindings (Example.pad 1500)) <= 24)%nat)
    by (vm_compute; lia).
  split; [exact Hs|]. split; [exact Hlen|].
  exact (proj2 (GetInput_defined_iff_bound Example.PAD_L2 Example.PAD_R2
                  Example.IsAnalogKey (Example.config 100 true)
                  (Example.machine 0 0 0) (Example.pad 1500) 24 Hs) Hlen).
Defined.

(** ** The binding table, with repeated keys *)

(** X4: after [ResetBindingsToDefault] an entry of the table holds the raw
    code of the last pair of the defaults table that names it, and its
    former value when no pair names it; the size of the table is kept, and
    resetting twice is resetting once. *)
Theorem reset_bindings_last_pair_wins sdl2_defaults d :
  (forall i v, default_of sdl2_defaults i = Some v ->
     (i < length (m_bindings d))%nat ->
     m_bindings (ResetBindingsToDefault sdl2_defaults d) !! i = Some v) /\
  (forall i, default_of sdl2_defaults i = None ->
     m_bindings (ResetBindingsToDefault sdl2_defaults d) !! i = m_bindings d !! i) /\
  length (m_bindings (ResetBindingsToDefault sdl2_defaults d)) = length (m_bindings d) /\
  ResetBindingsToDefault sdl2_defaults (ResetBindingsToDefault sdl2_defaults d)
    = ResetBindingsToDefault sdl2_defaults d.
Proof.
  split; [|split; [|split]].
  - intros i v Hdef Hlt. cbn. rewrite store_defaults_lookup, Hdef.
    by destruct (decide _).
  - intros i Hdef. cbn. by rewrite store_defaults_lookup, Hdef.
  - cbn. apply store_defaults_length.
  - unfold ResetBindingsToDefault, set_bindings. cbn. f_equal.
    apply list_eq. intros i.
    rewrite !store_defaults_lookup, store_defaults_length.
    by destruct (default_of sdl2_defaults i).
Qed.

Lemma reset_bindings_last_pair_wins_witness :
  default_of [(2%nat, 7); (2%nat, 9)] 2 = Some 9 /\
  (2 < length (m_bindings (Example.pad 1500)))%nat /\
  m_bindings (ResetBindingsToDefault [(2%nat, 7); (2%nat, 9)] (Example.pad 1500))
    !! 2%nat = Some 9 /\
  default_of [(2%nat, 7); (2%nat, 9)] 0 = None /\
  m_bindings (ResetBindingsToDefault [(2%nat, 7); (2%nat, 9)] (Example.pad 1500))
    !! 0%nat = Some 4.
Proof.
  pose proof (reset_bindings_last_pair_wins [(2%nat, 7); (2%nat, 9)] (Example.pad 1500))
    as (Hlast & Hkeep & _ & _).
  assert (Hdef : default_of [(2%nat, 7); (2%nat, 9)] 2 = Some 9) by reflexivity.
  assert (Hlt : (2 < length (m_bindings (Example.pad 1500)))%nat) by (vm_compute; lia).
  assert (Hnone : default_of [(2%nat, 7); (2%nat, 9)] 0 = None) by reflexivity.
  split; [exact Hdef|]. split; [exact Hlt|].
  split; [exact (Hlast _ _ Hdef Hlt)|]. split; [exact Hnone|].
  rewrite (Hkeep _ Hnone). reflexivity.
Defined.

(** ** Construction, case by case *)

Section MoreConstruction.

Variable NB_EFFECT MAX_KEYS : nat.
Variable default_deadzone : Z.
Variable sdl2_defaults : list (nat * Z).
Variable hash_me : string -> Z.
Variable g_conf : PADconf.
Variable sdl : SDL.

#[local] Abbreviation new :=
  (SDL2Gamepad_new NB_EFFECT MAX_KEYS default_deadzone sdl2_defaults hash_me g_conf sdl).
#[local] Abbreviation upload := (upload_effects NB_EFFECT g_conf sdl).

(** The ways the constructor returns: the device did not open, the joystick
    is no game controller, or the controller is there, with or without a
    haptic side. *)
Lemma new_cases id t :
  let d := (new id t).1 in
  let name := SDL_JoystickNameForIndex sdl id in
  (m_no_error d = false /\ m_haptic d = None /\
   m_effects_id d = replicate NB_EFFECT (-1) /\
   exists oc,
     (new id t).2 = t ++ [oc; Call_fprintf stderr (Msg_failed_to_open id)] /\
     ((SDL_IsGameController sdl id = true /\ oc = Call_GameControllerOpen id /\
       m_controller d = SDL_GameControllerOpen sdl t id /\
       SDL_GameControllerGetJoystick sdl (SDL_GameControllerOpen sdl t id) = None) \/
      (SDL_IsGameController sdl id = false /\ oc = Call_JoystickOpen id /\
       m_controller d = None /\ SDL_JoystickOpen sdl t id = None))) \/
  (m_no_error d = false /\ m_haptic d = None /\ m_controller d = None /\
   m_effects_id d = replicate NB_EFFECT (-1) /\
   exists j oc,
     (new id t).2 =
       t ++ [oc; Call_fprintf stderr
                   (Msg_not_supported name (SDL_JoystickGetGUIDString sdl j))]
         ++ (if 4 <=? SDL_MINOR_VERSION sdl then [Call_JoystickClose j] else []) /\
     ((SDL_IsGameController sdl id = true /\ oc = Call_GameControllerOpen id /\
       SDL_GameControllerOpen sdl t id = None /\
       SDL_GameControllerGetJoystick sdl None = Some j) \/
      (SDL_IsGameController sdl id = false /\ oc = Call_JoystickOpen id /\
       SDL_JoystickOpen sdl t id = Some j))) \/
  (exists c j,
     SDL_IsGameController sdl id = true /\
     SDL_GameControllerOpen sdl t id = Some c /\
     SDL_GameControllerGetJoystick sdl (Some c) = Some j /\
     m_no_error d = true /\ m_controller d = Some c /\
     m_unique_id d = hash_me (SDL_JoystickGetGUIDString sdl j) /\
     m_device_name d = name /\
     ((SDL_JoystickIsHaptic sdl j = false /\ m_haptic d = None /\
       m_effects_id d = replicate NB_EFFECT (-1) /\
       (new id t).2 =
         t ++ [Call_GameControllerOpen id;
               Call_fprintf stdout
                 (Msg_detected name false (SDL_JoystickGetGUIDString sdl j))]) \/
      (SDL_JoystickIsHaptic sdl j = true /\
       let u := upload (SDL_HapticOpenFromJoystick sdl (t ++ [Call_GameControllerOpen id]) j)
                  [] (replicate NB_EFFECT (-1))
                  (t ++ [Call_GameControllerOpen id; Call_HapticOpenFromJoystick j]) in
       m_haptic d = u.1.1 /\ m_effects_id d = u.1.2 /\
       (new id t).2 =
         u.2 ++ [Call_fprintf stdout
                   (Msg_detected name (bool_decide (is_Some u.1.1))
                      (SDL_JoystickGetGUIDString sdl j))]))).
Proof.
  cbn zeta.
  unfold SDL2Gamepad_new, SDL2Gamepad_from, ClearBindings, ResetBindingsToDefault,
    Device_base.
  cbn [m_bindings m_effects_id set_effects_id set_bindings set_controller
       set_haptic m_controller m_haptic m_unique_id m_device_name m_deadzone
       m_no_error].
  rewrite !length_replicate. rewrite bind_eq.
  destruct (SDL_IsGameController sdl id) eqn:Hgc.
  - rewrite bind_eq, ask_eq, ret_eq. cbn [fst snd].
    destruct (SDL_GameControllerOpen sdl t id) as [c|] eqn:Hopen.
    + destruct (SDL_GameControllerGetJoystick sdl (Some c)) as [j|] eqn:Hjoy.
      * right; right. exists c, j.
        cbn [set_controller set_device_name set_unique_id m_controller
             m_haptic m_unique_id m_device_name m_effects_id m_no_error m_bindings
             m_deadzone].
        rewrite bind_eq.
        destruct (SDL_JoystickIsHaptic sdl j) eqn:Hhap.
        -- rewrite !bind_eq, ask_eq, ret_eq, call_eq, ret_eq.
           cbn [fst snd set_effects_id set_haptic set_no_error m_controller
                m_haptic m_unique_id m_device_name m_effects_id m_no_error].
           rewrite <- !app_assoc. cbn [app].
           repeat (split; [first [reflexivity | assumption]|]). right.
           repeat (split; [first [reflexivity | assumption]|]). reflexivity.
        -- rewrite ret_eq, bind_eq, call_eq, ret_eq.
           cbn [fst snd set_effects_id set_haptic set_no_error m_controller
                m_haptic m_unique_id m_device_name m_effects_id m_no_error].
           rewrite <- !app_assoc. cbn [app].
           repeat (split; [first [reflexivity | assumption]|]). left.
           repeat (split; [first [reflexivity | assumption]|]). reflexivity.
      * left. rewrite bind_eq, call_eq, ret_eq. cbn.
        repeat (split; [first [reflexivity | assumption]|]).
        exists (Call_GameControllerOpen id). rewrite <- !app_assoc.
        split; [reflexivity|]. left. by repeat split.
    + destruct (SDL_GameControllerGetJoystick sdl None) as [j|] eqn:Hjoy.
      * right; left. cbn [set_controller set_device_name m_controller m_device_name].
        rewrite !bind_eq, call_eq. cbn [fst snd].
        destruct (4 <=? SDL_MINOR_VERSION sdl);
          rewrite ?call_eq, !ret_eq; cbn;
          repeat (split; [first [reflexivity | assumption]|]);
          exists j, (Call_GameControllerOpen id); rewrite <- !app_assoc; cbn [app];
          (split; [reflexivity|]); left; by repeat split.
      * left. rewrite bind_eq, call_eq, ret_eq. cbn.
        repeat (split; [first [reflexivity | assumption]|]).
        exists (Call_GameControllerOpen id). rewrite <- !app_assoc.
        split; [reflexivity|]. left. by repeat split.
  - rewrite bind_eq, ask_eq, ret_eq. cbn [fst snd].
    destruct (SDL_JoystickOpen sdl t id) as [j|] eqn:Hopen.
    + right; left. cbn [set_controller set_device_name m_controller m_device_name].
      rewrite !bind_eq, call_eq. cbn [fst snd].
      destruct (4 <=? SDL_MINOR_VERSION sdl);
        rewrite ?call_eq, !ret_eq; cbn;
        repeat (split; [first [reflexivity | assumption]|]);
        exists j, (Call_JoystickOpen id); rewrite <- !app_assoc; cbn [app];
        (split; [reflexivity|]); right; by repeat split.
    + left. rewrite bind_eq, call_eq, ret_eq. cbn.
      repeat (split; [first [reflexivity | assumption]|]).
      exists (Call_JoystickOpen id). rewrite <- !app_assoc.
      split; [reflexivity|]. right. by repeat split.
Qed.

(** The upload loop either goes through, keeping the handle and storing an
    id of at least 0 in every slot, or stops at the first negative answer:
    the slots before it hold what was answered, the slot itself the
    negative answer, the slots after it what they held, and the handle is
    dropped.  Its log only grows, and by nothing but uploads and the error
    message. *)
Lemma upload_effects_shape h visited rest t :
  let r := upload h visited rest t in
  (exists calls, r.2 = t ++ calls /\
     Forall (fun c => match c with
                      | Call_HapticNewEffect _ _ | Call_fprintf _ _ => True
                      | _ => False
                      end) calls) /\
  ((r.1.1 = h /\
    exists ids, r.1.2 = visited ++ ids /\ length ids = length rest /\
                Forall (fun eid => 0 <= eid) ids) \/
   (r.1.1 = None /\
    exists ids eid, r.1.2 = visited ++ ids ++ eid :: drop (S (length ids)) rest /\
                    (length ids < length rest)%nat /\
                    Forall (fun eid => 0 <= eid) ids /\ eid < 0)).
Proof.
  revert visited t; induction rest as [|x rest IH]; intros visited t;
    cbn [upload_effects].
  - rewrite ret_eq; cbn [fst snd]. split.
    + exists []. by rewrite app_nil_r.
    + left. split; [reflexivity|]. exists []. by rewrite app_nil_r.
  - rewrite bind_eq, ask_eq; cbn [fst snd].
    set (e := default (haptic_effect g_conf 0) (effects NB_EFFECT g_conf !! 0%nat)).
    destruct (Z.ltb_spec (SDL_HapticNewEffect sdl t h e) 0) as [Hneg|Hpos].
    + rewrite bind_eq, call_eq, ret_eq; cbn [fst snd]. split.
      * eexists. rewrite <- app_assoc. split; [reflexivity|]. by repeat constructor.
      * right. split; [reflexivity|].
        exists [], (SDL_HapticNewEffect sdl t h e). cbn [app length drop].
        rewrite drop_0. repeat split; [lia|constructor|exact Hneg].
    + destruct (IH (visited ++ [SDL_HapticNewEffect sdl t h e])
                  (t ++ [Call_HapticNewEffect h e]))
        as [(calls & Hlog & Hcalls) Hres].
      split.
      * exists (Call_HapticNewEffect h e :: calls).
        rewrite Hlog, <- app_assoc. split; [reflexivity|]. by constructor.
      * destruct Hres as [(Hh & ids & Hids & Hlen & Hall)
                         |(Hh & ids & eid & Hids & Hlen & Hall & Heid)].
        -- left. split; [exact Hh|].
           exists (SDL_HapticNewEffect sdl t h e :: ids).
           rewrite Hids, <- app_assoc. cbn [app length].
           repeat split; [lia|]. by constructor.
        -- right. split; [exact Hh|].
           exists (SDL_HapticNewEffect sdl t h e :: ids), eid.
           rewrite Hids, <- app_assoc. cbn [app length drop].
           repeat split; [lia| |exact Heid]. by constructor.
Qed.

(** X5: the constructor sets [m_no_error] exactly when the index names a
    game controller, the controller opens and it has a joystick.  The
    device then holds the handle that was opened, the name of the index and
    the hash of the GUID string, which is what [GetUniqueIdentifier]
    returns: two controllers whose GUID strings agree get the same
    identifier.  When [m_no_error] stays false the identifier is still
    that of the base object: the constructor has not assigned it. *)
Theorem construction_succeeds_iff id t :
  let d := (new id t).1 in
  (m_no_error d = true <->
   SDL_IsGameController sdl id = true /\
   exists c j, SDL_GameControllerOpen sdl t id = Some c /\
               SDL_GameControllerGetJoystick sdl (Some c) = Some j) /\
  (forall c j,
     SDL_IsGameController sdl id = true ->
     SDL_GameControllerOpen sdl t id = Some c ->
     SDL_GameControllerGetJoystick sdl (Some c) = Some j ->
     m_controller d = Some c /\
     m_device_name d = SDL_JoystickNameForIndex sdl id /\
     GetUniqueIdentifier d = hash_me (SDL_JoystickGetGUIDString sdl j) /\
     forall id' t' c' j',
       SDL_IsGameController sdl id' = true ->
       SDL_GameControllerOpen sdl t' id' = Some c' ->
       SDL_GameControllerGetJoystick sdl (Some c') = Some j' ->
       SDL_JoystickGetGUIDString sdl j' = SDL_JoystickGetGUIDString sdl j ->
       GetUniqueIdentifier (new id' t').1 = GetUniqueIdentifier d) /\
  (m_no_error d = false ->
   GetUniqueIdentifier d =
   GetUniqueIdentifier (Device_base NB_EFFECT MAX_KEYS default_deadzone)).
Proof.
  intros d.
  assert (Hok : forall id t c j,
            SDL_IsGameController sdl id = true ->
            SDL_GameControllerOpen sdl t id = Some c ->
            SDL_GameControllerGetJoystick sdl (Some c) = Some j ->
            m_no_error (new id t).1 = true /\
            m_controller (new id t).1 = Some c /\
            m_device_name (new id t).1 = SDL_JoystickNameForIndex sdl id /\
            m_unique_id (new id t).1 = hash_me (SDL_JoystickGetGUIDString sdl j)).
  { clear d id t. intros id t c j Hgc Hopen Hjoy.
    destruct (new_cases id t)
      as [(_ & _ & _ & oc & _ & [(_ & _ & _ & Hj)|(Hgc' & _)])
         |[(_ & _ & _ & _ & j' & oc & _ & [(_ & _ & Hopen' & _)|(Hgc' & _)])
          |(c' & j' & _ & Hopen' & Hjoy' & Hno & Hc & Hid & Hname & _)]];
      try congruence.
    rewrite Hopen in Hopen'. injection Hopen' as <-.
    rewrite Hjoy in Hjoy'. injection Hjoy' as <-. done. }
  split; [|split].
  - split.
    + intros Hno.
      destruct (new_cases id t)
        as [(Hno' & _)|[(Hno' & _)|(c & j & Hgc & Hopen & Hjoy & _)]];
        [fold d in Hno'; congruence..|].
      split; [exact Hgc|]. by exists c, j.
    + intros (Hgc & c & j & Hopen & Hjoy).
      exact (proj1 (Hok id t c j Hgc Hopen Hjoy)).
  - intros c j Hgc Hopen Hjoy.
    destruct (Hok id t c j Hgc Hopen Hjoy) as (_ & Hc & Hname & Hid).
    repeat split; [exact Hc|exact Hname|exact Hid|].
    intros id' t' c' j' Hgc' Hopen' Hjoy' Hguid.
    destruct (Hok id' t' c' j' Hgc' Hopen' Hjoy') as (_ & _ & _ & Hid').
    unfold GetUniqueIdentifier. fold d in Hid. by rewrite Hid, Hid', Hguid.
  - intros Hno. unfold GetUniqueIdentifier, d.
    destruct (m_no_error d) eqn:Hd; [congruence|]. clear Hno. revert Hd.
    unfold d, SDL2Gamepad_new, SDL2Gamepad_from, ClearBindings, ResetBindingsToDefault, Device_base.
    repeat first
      [ rewrite bind_eq | rewrite ask_eq | rewrite call_eq | rewrite ret_eq
      | progress cbn [fst snd m_bindings m_effects_id set_effects_id set_bindings
                      set_controller set_haptic set_unique_id set_device_name
                      set_no_error m_controller m_haptic m_unique_id
                      m_device_name m_deadzone m_no_error]
      | match goal with
        | |- context [if ?b then _ else _] => destruct b
        | |- context [match ?o with Some _ => _ | None => _ end] => destruct o
        end ];
      first [reflexivity | discriminate].
Qed.

(** X6: a device the constructor leaves with a haptic handle is properly
    set up and holds an uploaded id, at least 0, in every effect slot.
    Hence its destructor destroys every slot before it closes the handle;
    [Rumble] only ever runs an id of at least 0, once, on that handle; and
    [TestForce] can only succeed on such a device. *)
Theorem constructed_haptic_slots_uploaded id t :
  let d := (new id t).1 in
  (forall h, m_haptic d = Some h ->
     m_no_error d = true /\
     length (m_effects_id d) = NB_EFFECT /\
     Forall (fun eid => 0 <= eid) (m_effects_id d) /\
     forall sdl' t',
       (destroy sdl' d t').2 =
       t' ++ map (Call_HapticDestroyEffect h) (m_effects_id d)
          ++ [Call_HapticClose h] ++ controller_release sdl' d) /\
  (forall g_conf' sdl' type pad t' h eid n,
     In (Call_HapticRunEffect h eid n) (Rumble g_conf' sdl' d type pad t').2 ->
     In (Call_HapticRunEffect h eid n) t' \/
     (m_haptic d = Some h /\ m_effects_id d !! type = Some eid /\
      0 <= eid /\ n = 1)) /\
  (forall play strength tr,
     (TestForce play d strength tr).1 = true ->
     m_no_error d = true /\ Forall (fun eid => 0 <= eid) (m_effects_id d)).
Proof.
  intros d.
  assert (Hinv : forall h, m_haptic d = Some h ->
            m_no_error d = true /\ Forall (fun eid => 0 <= eid) (m_effects_id d)).
  { intros h Hh.
    destruct (new_cases id t)
      as [(_ & Hh' & _)|[(_ & Hh' & _)
         |(c & j & _ & _ & _ & Hno & _ & _ & _ & [(_ & Hh' & _)|(_ & Hu)])]];
      try (fold d in Hh'; congruence).
    cbv zeta in Hu. fold d in Hno, Hu. destruct Hu as (Hhu & Hids & _).
    split; [exact Hno|]. rewrite Hids.
    destruct (upload_effects_shape
                (SDL_HapticOpenFromJoystick sdl (t ++ [Call_GameControllerOpen id]) j)
                [] (replicate NB_EFFECT (-1))
                (t ++ [Call_GameControllerOpen id; Call_HapticOpenFromJoystick j]))
      as [_ [(_ & ids & -> & _ & Hall)|(Hnone & _)]].
    - exact Hall.
    - rewrite Hhu in Hh. congruence. }
  split; [|split].
  - intros h Hh. destruct (Hinv h Hh) as [Hno Hall].
    split; [exact Hno|]. split.
    { apply (new_device NB_EFFECT MAX_KEYS default_deadzone sdl2_defaults hash_me
               g_conf sdl id t). }
    split; [exact Hall|].
    intros sdl' t'. rewrite destroy_log. cbn [snd]. unfold haptic_release.
    rewrite Hh, <- app_assoc. do 3 f_equal.
    clear -Hall. induction Hall as [|x l Hx _ IH]; [reflexivity|].
    rewrite filter_cons. destruct (decide (0 <= x)); [|lia]. by rewrite IH.
  - intros g_conf' sdl' type pad t' h eid n. unfold Rumble.
    destruct (decide (length (m_effects_id d) <= type)%nat) as [|Hty];
      [rewrite ret_eq; by left|].
    destruct (forcefeedback g_conf' pad); cbn [negb]; [|rewrite ret_eq; by left].
    destruct (m_haptic d) as [h'|] eqn:Hh; [|rewrite ret_eq; by left].
    destruct (Hinv h' eq_refl) as [_ Hall].
    destruct (lookup_lt_is_Some_2 (m_effects_id d) type) as [eid' Heid']; [lia|].
    rewrite Heid'. cbn [default from_option].
    assert (Hpos : 0 <= eid').
    { rewrite Forall_lookup in Hall. exact (Hall type eid' Heid'). }
    assert (Hin : In (Call_HapticRunEffect h eid n)
                    (t' ++ [Call_HapticRunEffect h' eid' 1]) ->
                  In (Call_HapticRunEffect h eid n) t' \/
                  Some h' = Some h /\ Some eid' = Some eid /\ 0 <= eid /\ n = 1).
    { rewrite in_app_iff. intros [Hin|[Heq|[]]]; [by left|].
      injection Heq as -> -> ->. by right. }
    rewrite bind_eq, ask_eq; cbn [fst snd].
    destruct (negb _).
    + rewrite bind_eq, call_eq, ret_eq; cbn [fst snd].
      rewrite in_app_iff. intros [Hin'|[Heq|[]]]; [by apply Hin|discriminate].
    + rewrite ret_eq; cbn [fst snd]. exact Hin.
  - intros play strength tr. unfold TestForce.
    destruct (m_haptic d) as [h|] eqn:Hh; [|discriminate].
    intros _. exact (Hinv h eq_refl).
Qed.

(** The loop, by what the library answers: when every answer is at least 0
    each slot holds its answer and the handle is kept; the first negative
    answer is stored, ends the loop and drops the handle. *)
Lemma upload_answer_shift h t k :
  upload_answer g_conf sdl h
    (t ++ [Call_HapticNewEffect h (haptic_effect g_conf 0)]) k =
  upload_answer g_conf sdl h t (S k).
Proof. unfold upload_answer. by rewrite <- app_assoc. Qed.

Lemma map_seq_S {A} (f : nat -> A) n :
  map f (seq 0 (S n)) = f 0%nat :: map (fun k => f (S k)) (seq 0 n).
Proof. cbn [seq map]. f_equal. by rewrite <- List.seq_shift, List.map_map. Qed.

Lemma upload_answer_0 h t :
  SDL_HapticNewEffect sdl t h (haptic_effect g_conf 0) =
  upload_answer g_conf sdl h t 0.
Proof. unfold upload_answer. cbn [replicate]. by rewrite app_nil_r. Qed.

Lemma effects_0 n :
  default (haptic_effect g_conf 0) (effects n g_conf !! 0%nat) = haptic_effect g_conf 0.
Proof. by destruct n. Qed.

Lemma upload_effects_all h visited rest t :
  (forall k, (k < length rest)%nat -> 0 <= upload_answer g_conf sdl h t k) ->
  upload h visited rest t =
  ((h, visited ++ map (upload_answer g_conf sdl h t) (seq 0 (length rest))),
   t ++ replicate (length rest) (Call_HapticNewEffect h (haptic_effect g_conf 0))).
Proof.
  revert visited t; induction rest as [|x rest IH]; intros visited t Hall;
    cbn [upload_effects length].
  - by rewrite ret_eq, !app_nil_r.
  - rewrite bind_eq, ask_eq, effects_0; cbn [fst snd]. rewrite !upload_answer_0.
    destruct (Z.ltb_spec (upload_answer g_conf sdl h t 0) 0) as [Hneg|_].
    { specialize (Hall 0%nat). cbn [length] in Hall. lia. }
    rewrite IH.
    + rewrite map_seq_S, <- !app_assoc. cbn [app replicate].
      erewrite map_ext; [reflexivity|]. intros k. apply upload_answer_shift.
    + intros k Hk. rewrite upload_answer_shift. apply Hall. cbn [length]. lia.
Qed.

Lemma upload_effects_first_failure h visited rest t k :
  (k < length rest)%nat ->
  (forall i, (i < k)%nat -> 0 <= upload_answer g_conf sdl h t i) ->
  upload_answer g_conf sdl h t k < 0 ->
  upload h visited rest t =
  ((None, visited ++ map (upload_answer g_conf sdl h t) (seq 0 (S k))
                  ++ drop (S k) rest),
   t ++ replicate (S k) (Call_HapticNewEffect h (haptic_effect g_conf 0))
     ++ [Call_fprintf stderr Msg_effect_not_uploaded]).
Proof.
  revert visited t k; induction rest as [|x rest IH]; intros visited t k Hk Hok Hneg;
    cbn [upload_effects length] in *; [lia|].
  rewrite bind_eq, ask_eq, effects_0; cbn [fst snd]. rewrite !upload_answer_0.
  destruct k as [|k].
  - destruct (Z.ltb_spec (upload_answer g_conf sdl h t 0) 0) as [_|Hpos]; [|lia].
    rewrite bind_eq, call_eq, ret_eq; cbn [fst snd].
    cbn [seq map drop replicate app]. rewrite drop_0.
    by rewrite <- !app_assoc.
  - destruct (Z.ltb_spec (upload_answer g_conf sdl h t 0) 0) as [Hneg0|_].
    { specialize (Hok 0%nat). lia. }
    rewrite (IH _ _ k).
    + rewrite (map_seq_S _ (S k)), <- !app_assoc.
      cbn [app replicate drop].
      erewrite map_ext; [reflexivity|]. intros i. apply upload_answer_shift.
    + lia.
    + intros i Hi. rewrite upload_answer_shift. apply Hok. lia.
    + by rewrite upload_answer_shift.
Qed.

(** X7: a game controller whose joystick is haptic and whose haptic device
    opens is set up either way, and what becomes of the haptic side is
    decided by what [SDL_HapticNewEffect] answers.  When every one of the
    [NB_EFFECT] uploads is answered with an id of at least 0, the handle is
    kept and each slot holds its answer.  When an upload is answered with a
    negative id the loop stops at the first such answer: the slots up to
    and including it hold their answers, the later slots -1, there has been
    no further upload, the message is printed, the handle is dropped
    although [m_no_error] is set, and the destructor makes no haptic call:
    the haptic device that was opened is never closed, nor are the effects
    uploaded before the failure destroyed. *)
Theorem failed_upload_drops_the_handle id t c j h :
  SDL_IsGameController sdl id = true ->
  SDL_GameControllerOpen sdl t id = Some c ->
  SDL_GameControllerGetJoystick sdl (Some c) = Some j ->
  SDL_JoystickIsHaptic sdl j = true ->
  SDL_HapticOpenFromJoystick sdl (t ++ [Call_GameControllerOpen id]) j = Some h ->
  let d := (new id t).1 in
  let t0 := t ++ [Call_GameControllerOpen id; Call_HapticOpenFromJoystick j] in
  let answer := upload_answer g_conf sdl (Some h) t0 in
  let upload_call := Call_HapticNewEffect (Some h) (haptic_effect g_conf 0) in
  let detected rumble :=
    Call_fprintf stdout
      (Msg_detected (SDL_JoystickNameForIndex sdl id) rumble
         (SDL_JoystickGetGUIDString sdl j)) in
  m_no_error d = true /\
  ((forall k, (k < NB_EFFECT)%nat -> 0 <= answer k) ->
   m_haptic d = Some h /\
   m_effects_id d = map answer (seq 0 NB_EFFECT) /\
   (new id t).2 = t0 ++ replicate NB_EFFECT upload_call ++ [detected true]) /\
  (forall k,
     (k < NB_EFFECT)%nat -> (forall i, (i < k)%nat -> 0 <= answer i) ->
     answer k < 0 ->
     m_haptic d = None /\
     m_effects_id d =
       map answer (seq 0 (S k)) ++ replicate (NB_EFFECT - S k) (-1) /\
     (new id t).2 =
       t0 ++ replicate (S k) upload_call
          ++ [Call_fprintf stderr Msg_effect_not_uploaded; detected false] /\
     forall sdl' t', (destroy sdl' d t').2 = t' ++ controller_release sdl' d).
Proof.
  intros Hgc Hopen Hjoy Hhap Hh d t0 answer upload_call detected.
  destruct (new_cases id t)
    as [(_ & _ & _ & oc & _ & [(_ & _ & _ & Hj)|(Hgc' & _)])
       |[(_ & _ & _ & _ & j' & oc & _ & [(_ & _ & Hopen' & _)|(Hgc' & _)])
        |(c' & j' & _ & Hopen' & Hjoy' & Hno & _ & _ & _ & Hcases)]];
    try congruence.
  rewrite Hopen in Hopen'. injection Hopen' as <-.
  rewrite Hjoy in Hjoy'. injection Hjoy' as <-.
  destruct Hcases as [(Hhap' & _)|(_ & Hu)]; [congruence|].
  cbv zeta in Hu. rewrite Hh in Hu. fold d t0 in Hno, Hu.
  destruct Hu as (Hhu & Hids & Hlog).
  split; [exact Hno|]. split.
  - intros Hall.
    rewrite (upload_effects_all (Some h) [] (replicate NB_EFFECT (-1)) t0)
      in Hhu, Hids, Hlog by (rewrite length_replicate; exact Hall).
    rewrite length_replicate in Hids, Hlog. cbn [fst snd app] in Hhu, Hids, Hlog.
    split; [exact Hhu|]. split; [exact Hids|].
    rewrite bool_decide_eq_true_2 in Hlog by (by exists h).
    by rewrite Hlog, <- app_assoc.
  - intros k Hk Hok Hneg.
    rewrite (upload_effects_first_failure (Some h) [] (replicate NB_EFFECT (-1)) t0 k)
      in Hhu, Hids, Hlog by (rewrite ?length_replicate; assumption).
    cbn [fst snd app] in Hhu, Hids, Hlog. rewrite drop_replicate in Hids.
    split; [exact Hhu|]. split; [exact Hids|]. split.
    + rewrite bool_decide_eq_false_2 in Hlog by (intros [? [=]]).
      by rewrite Hlog, <- !app_assoc.
    + intros sdl' t'. rewrite destroy_log. cbn [snd]. unfold haptic_release.
      by rewrite Hhu.
Qed.
(** X8: a device the constructor did not set up is destroyed at once by
    the enumeration.  Construction and destruction together then make no
    haptic call.  On a build with [SDL_MINOR_VERSION] at least 4 they close
    the game controller or the joystick that was opened by index; on an
    older build they close nothing. *)
Theorem dropped_device_closes_what_it_opened id t :
  let d := (new id t).1 in
  m_no_error d = false ->
  exists calls,
    (destroy sdl d (new id t).2).2 = t ++ calls /\
    Forall (fun c => is_haptic_call c = false) calls /\
    (4 <= SDL_MINOR_VERSION sdl ->
     (forall c, SDL_IsGameController sdl id = true ->
                SDL_GameControllerOpen sdl t id = Some c ->
                In (Call_GameControllerClose c) calls) /\
     (forall j, SDL_IsGameController sdl id = false ->
                SDL_JoystickOpen sdl t id = Some j ->
                In (Call_JoystickClose j) calls)) /\
    (SDL_MINOR_VERSION sdl < 4 ->
     Forall (fun c => match c with
                      | Call_GameControllerClose _ | Call_JoystickClose _ => False
                      | _ => True
                      end) calls).
Proof.
  intros d Hno. rewrite destroy_log. cbn [snd].
  unfold haptic_release, controller_release.
  destruct (new_cases id t)
    as [(_ & Hh & _ & oc & Hlog & Hopen)
       |[(_ & Hh & Hc & _ & j & oc & Hlog & Hopen)
        |(c & j & _ & _ & _ & Hno' & _)]];
    [| |fold d in Hno'; congruence]; fold d in Hh; rewrite Hh, Hlog; cbn [app].
  - destruct Hopen as [(Hgc & -> & Hc & Hjoy)|(Hgc & -> & Hc & Hjo)];
      fold d in Hc; rewrite Hc.
    + destruct (SDL_GameControllerOpen sdl t id) as [c|] eqn:Hopen.
      * destruct (Z.leb_spec 4 (SDL_MINOR_VERSION sdl)) as [Hv|Hv];
          eexists; rewrite <- app_assoc; (split; [reflexivity|]);
          (split; [by repeat constructor|]);
          (split; [intros Hv'|intros Hv'; try lia; by repeat constructor]);
          try lia.
        split; [|congruence]. intros c' _ [= <-]. cbn. tauto.
      * eexists; rewrite app_nil_r; split; [reflexivity|].
        split; [by repeat constructor|].
        split; [|intros _; by repeat constructor].
        intros _. split; [intros c' _ [=]|congruence].
    + eexists; rewrite app_nil_r; split; [reflexivity|].
      split; [by repeat constructor|].
      split; [|intros _; by repeat constructor].
      intros _. split; [congruence|]. intros j' _ Hj. congruence.
  - fold d in Hc. rewrite Hc.
    destruct (Z.leb_spec 4 (SDL_MINOR_VERSION sdl)) as [Hv|Hv];
      eexists; rewrite app_nil_r; (split; [reflexivity|]);
      (split; [destruct Hopen as [(_ & -> & _)|(_ & -> & _)]; by repeat constructor|]);
      (split; [intros Hv'; try lia
              |intros Hv'; try lia;
               destruct Hopen as [(_ & -> & _)|(_ & -> & _)]; by repeat constructor]).
    destruct Hopen as [(Hgc & _ & Hopen & _)|(Hgc & _ & Hjo)].
    + split; [intros c' _ Hc'; congruence|congruence].
    + split; [congruence|]. intros j' _ Hj'. rewrite Hjo in Hj'.
      injection Hj' as <-. cbn. tauto.
Qed.

(** The uploads of the loop all carry the descriptor of slot 0; there are
    as many as slots when the handle is kept. *)
Lemma upload_effects_count h visited rest t :
  exists n, (n <= length rest)%nat /\
    uploaded (upload h visited rest t).2 =
      uploaded t ++ replicate n (haptic_effect g_conf 0) /\
    (is_Some (upload h visited rest t).1.1 -> n = length rest).
Proof.
  assert (He : forall k, default (haptic_effect g_conf 0)
                           (effects k g_conf !! 0%nat) = haptic_effect g_conf 0).
  { intros [|k]; reflexivity. }
  revert visited t; induction rest as [|x rest IH]; intros visited t;
    cbn [upload_effects].
  - exists 0%nat. rewrite ret_eq; cbn. by rewrite app_nil_r.
  - rewrite bind_eq, ask_eq, He; cbn [fst snd].
    destruct (_ <? 0).
    + exists 1%nat. rewrite bind_eq, call_eq, ret_eq; cbn [fst snd].
      split; [cbn; lia|]. split.
      * rewrite !uploaded_app. cbn. by rewrite app_nil_r.
      * intros [? [=]].
    + destruct (IH (visited ++ [SDL_HapticNewEffect sdl t h (haptic_effect g_conf 0)])
                  (t ++ [Call_HapticNewEffect h (haptic_effect g_conf 0)]))
        as (n & Hn & Hup & Hkept).
      exists (S n). split; [cbn; lia|]. split.
      * rewrite Hup, uploaded_app. cbn. by rewrite <- app_assoc.
      * intros Hsome. cbn [length]. f_equal. by apply Hkept.
Qed.

(** X16: whatever the library answers, every descriptor the constructor
    uploads is the one built for slot 0, the sine effect of the small
    motor, with the configured intensity cast to 16 bits as its magnitude:
    the triangle effect built for the other slots is never uploaded.  There
    are at most [NB_EFFECT] uploads, exactly [NB_EFFECT] when the device
    keeps its haptic handle, and none when the constructor fails. *)
Theorem uploads_carry_slot_0 id t :
  let d := (new id t).1 in
  exists n,
    (n <= NB_EFFECT)%nat /\
    uploaded (new id t).2 = uploaded t ++ replicate n (haptic_effect g_conf 0) /\
    (is_Some (m_haptic d) -> n = NB_EFFECT) /\
    (m_no_error d = false -> n = 0%nat) /\
    eff_type (haptic_effect g_conf 0) = SDL_HAPTIC_SINE /\
    (forall i, i <> 0%nat -> eff_type (haptic_effect g_conf i) = SDL_HAPTIC_TRIANGLE) /\
    -32768 <= eff_magnitude (haptic_effect g_conf 0) <= 32767.
Proof.
  intros d.
  assert (Hdesc : eff_type (haptic_effect g_conf 0) = SDL_HAPTIC_SINE /\
            (forall i, i <> 0%nat ->
               eff_type (haptic_effect g_conf i) = SDL_HAPTIC_TRIANGLE) /\
            -32768 <= eff_magnitude (haptic_effect g_conf 0) <= 32767).
  { split; [reflexivity|]. split.
    - intros i Hi. cbn. by destruct (decide (i = 0%nat)).
    - apply to_Sint16_range. }
  destruct (new_cases id t)
    as [(Hno & Hh & _ & oc & Hlog & Hopen)
       |[(Hno & Hh & _ & _ & j & oc & Hlog & Hopen)
        |(c & j & _ & _ & _ & Hno & _ & _ & _ & [(_ & Hh & _ & Hlog)|(_ & Hu)])]].
  - exists 0%nat. fold d in Hh. rewrite Hlog, uploaded_app, Hh.
    split; [lia|]. split.
    { destruct Hopen as [(_ & -> & _)|(_ & -> & _)]; reflexivity. }
    split; [intros [? [=]]|]. by split.
  - exists 0%nat. fold d in Hh. rewrite Hlog, uploaded_app, Hh.
    split; [lia|]. split.
    { destruct Hopen as [(_ & -> & _)|(_ & -> & _)];
        by destruct (4 <=? SDL_MINOR_VERSION sdl). }
    split; [intros [? [=]]|]. by split.
  - exists 0%nat. fold d in Hh, Hno. rewrite Hlog, uploaded_app, Hh.
    split; [lia|]. split; [reflexivity|].
    split; [intros [? [=]]|]. split; [congruence|exact Hdesc].
  - cbv zeta in Hu. fold d in Hu, Hno. destruct Hu as (Hh & _ & Hlog).
    destruct (upload_effects_count
                (SDL_HapticOpenFromJoystick sdl (t ++ [Call_GameControllerOpen id]) j)
                [] (replicate NB_EFFECT (-1))
                (t ++ [Call_GameControllerOpen id; Call_HapticOpenFromJoystick j]))
      as (n & Hn & Hup & Hkept).
    rewrite length_replicate in Hn, Hkept.
    exists n. split; [exact Hn|]. split.
    { rewrite Hlog, uploaded_app, Hup, uploaded_app. cbn. by rewrite !app_nil_r. }
    split; [by rewrite Hh|]. split; [congruence|exact Hdesc].
Qed.

End MoreConstruction.

Lemma construction_succeeds_iff_witness :
  let d := (SDL2Gamepad_new 2 Example.MAX_KEYS 1500 Example.defaults Example.hash
              (Example.config 100 true) (Example.machine 24 0 0) 0 []).1 in
  m_no_error d = true /\
  m_controller d = Some 10%nat /\
  m_device_name d = "pad"%string /\
  GetUniqueIdentifier d = Example.hash "030000004c050000c405000011010000".
Proof.
  intros d.
  destruct (construction_succeeds_iff 2 Example.MAX_KEYS 1500 Example.defaults
              Example.hash (Example.config 100 true) (Example.machine 24 0 0) 0 [])
    as (Hiff & Hok & _).
  split.
  - apply Hiff. split; [reflexivity|]. exists 10%nat, 20%nat. by split.
  - destruct (Hok 10%nat 20%nat eq_refl eq_refl eq_refl) as (Hc & Hname & Hid & _).
    by repeat split.
Defined.

Lemma constructed_haptic_slots_uploaded_witness :
  let d := (SDL2Gamepad_new 2 Example.MAX_KEYS 1500 Example.defaults Example.hash
              (Example.config 100 true) (Example.machine 24 0 0) 0 []).1 in
  m_haptic d = Some 30%nat /\
  m_no_error d = true /\
  Forall (fun eid => 0 <= eid) (m_effects_id d) /\
  (destroy (Example.machine 24 0 0) d []).2 =
    [] ++ map (Call_HapticDestroyEffect 30%nat) (m_effects_id d)
       ++ [Call_HapticClose 30%nat] ++ controller_release (Example.machine 24 0 0) d.
Proof.
  intros d.
  assert (Hh : m_haptic d = Some 30%nat) by reflexivity.
  destruct (proj1 (constructed_haptic_slots_uploaded 2 Example.MAX_KEYS 1500
                     Example.defaults Example.hash (Example.config 100 true)
                     (Example.machine 24 0 0) 0 []) 30%nat Hh)
    as (Hno & _ & Hall & Hd).
  split; [exact Hh|]. split; [exact Hno|]. split; [exact Hall|].
  exact (Hd (Example.machine 24 0 0) []).
Defined.

(** On a haptic device that takes one effect only, the second upload
    fails. *)
Lemma failed_upload_drops_the_handle_witness :
  let sdl := Example.worn_machine in
  let new := SDL2Gamepad_new 2 Example.MAX_KEYS 1500 Example.defaults Example.hash
               (Example.config 100 true) sdl 0 [] in
  let answer := upload_answer (Example.config 100 true) sdl (Some 30%nat)
                  [Call_GameControllerOpen 0; Call_HapticOpenFromJoystick 20%nat] in
  0 <= answer 0%nat /\ answer 1%nat < 0 /\
  m_no_error new.1 = true /\
  m_haptic new.1 = None /\
  m_effects_id new.1 = [0; -1] /\
  length (uploaded new.2) = 2%nat /\
  (destroy sdl new.1 []).2 = [Call_GameControllerClose 10%nat].
Proof.
  intros sdl new answer.
  assert (Hh : SDL_HapticOpenFromJoystick sdl ([] ++ [Call_GameControllerOpen 0]) 20%nat
               = Some 30%nat) by reflexivity.
  assert (H0 : 0 <= answer 0%nat) by (vm_compute; discriminate).
  assert (H1 : answer 1%nat < 0) by reflexivity.
  destruct (failed_upload_drops_the_handle 2 Example.MAX_KEYS 1500 Example.defaults
              Example.hash (Example.config 100 true) sdl 0 [] 10%nat 20%nat 30%nat
              eq_refl eq_refl eq_refl eq_refl Hh) as (Hno & _ & Hfail).
  destruct (Hfail 1%nat) as (Hnone & Hids & Hlog & Hd).
  { lia. }
  { intros i Hi. replace i with 0%nat by lia. exact H0. }
  { exact H1. }
  split; [exact H0|]. split; [exact H1|]. split; [exact Hno|].
  split; [exact Hnone|]. split; [exact Hids|]. split.
  - fold new in Hlog. rewrite Hlog. reflexivity.
  - exact (Hd sdl []).
Defined.

Lemma dropped_device_closes_what_it_opened_witness :
  let sdl := Example.machine 24 0 0 in
  let new := SDL2Gamepad_new 2 Example.MAX_KEYS 1500 Example.defaults Example.hash
               (Example.config 100 true) sdl 1 [] in
  m_no_error new.1 = false /\
  exists calls,
    (destroy sdl new.1 new.2).2 = [] ++ calls /\
    Forall (fun c => is_haptic_call c = false) calls /\
    In (Call_JoystickClose 21%nat) calls.
Proof.
  intros sdl new.
  assert (Hno : m_no_error new.1 = false) by reflexivity.
  destruct (dropped_device_closes_what_it_opened 2 Example.MAX_KEYS 1500
              Example.defaults Example.hash (Example.config 100 true) sdl 1 [] Hno)
    as (calls & Hlog & Hhap & Hclose & _).
  split; [exact Hno|]. exists calls. split; [exact Hlog|]. split; [exact Hhap|].
  assert (Hv : 4 <= SDL_MINOR_VERSION sdl) by (cbn; lia).
  exact (proj2 (Hclose Hv) 21%nat eq_refl eq_refl).
Defined.

Lemma uploads_carry_slot_0_witness :
  let r := SDL2Gamepad_new 2 Example.MAX_KEYS 1500 Example.defaults Example.hash
             (Example.config 100 true) (Example.machine 24 0 0) 0 [] in
  is_Some (m_haptic r.1) /\
  exists n, n = 2%nat /\
    uploaded r.2 = uploaded [] ++ replicate n (haptic_effect (Example.config 100 true) 0).
Proof.
  intros r.
  assert (Hh : is_Some (m_haptic r.1)) by (by exists 30%nat).
  destruct (uploads_carry_slot_0 2 Example.MAX_KEYS 1500 Example.defaults Example.hash
              (Example.config 100 true) (Example.machine 24 0 0) 0 [])
    as (n & _ & Hup & Hkept & _).
  split; [exact Hh|]. exists n. split; [exact (Hkept Hh)|exact Hup].
Defined.

(** ** Enumeration, as a whole *)

Lemma destroy_all_log sdl devices t :
  destroy_all sdl devices t = (tt, t ++ flat_map (release sdl) devices).
Proof.
  revert t; induction devices as [|d devices IH]; intros t; cbn [destroy_all flat_map].
  - by rewrite ret_eq, app_nil_r.
  - rewrite bind_eq, destroy_log; cbn [fst snd]. rewrite IH.
    unfold release. by rewrite <- !app_assoc.
Qed.

Lemma add_mappings_log maps t :
  add_mappings maps t = (tt, t ++ map Call_AddMapping maps).
Proof.
  revert t; induction maps as [|m maps IH]; intros t; cbn [add_mappings map].
  - by rewrite ret_eq, app_nil_r.
  - rewrite bind_eq, call_eq; cbn [fst snd]. rewrite IH. by rewrite <- app_assoc.
Qed.

Lemma init_library_passes g_conf sdl t :
  ~ init_fails sdl t ->
  init_library g_conf sdl t = (true, t ++ init_calls g_conf sdl t).
Proof.
  intros Hok. unfold init_library, init_calls.
  destruct (Z.eqb_spec (Z.land (SDL_WasInit sdl t) (init_flags sdl)) (init_flags sdl))
    as [Hup|Hdown]; cbn [negb].
  - by rewrite ret_eq, app_nil_r.
  - rewrite !bind_eq, call_eq, ask_eq; cbn [fst snd].
    destruct (Z.ltb_spec (SDL_Init sdl (t ++ [Call_SetHint_background_events])
                            (init_flags sdl)) 0) as [Hneg|_].
    { exfalso. apply Hok. by split. }
    rewrite !bind_eq, !call_eq; cbn [fst snd].
    rewrite add_mappings_log, ret_eq; cbn [fst snd].
    by rewrite <- !app_assoc.
Qed.

(** Increasing integers of a range are no more than the range has. *)
Lemma sorted_range_length ks :
  StronglySorted Z.lt ks ->
  forall lo n, Forall (fun k => lo <= k < lo + Z.of_nat n) ks -> (length ks <= n)%nat.
Proof.
  induction 1 as [|k ks _ IH Hlt]; intros lo n Hr; cbn [length]; [lia|].
  apply Forall_cons in Hr as [Hk Hr].
  destruct n as [|n]; [lia|].
  enough (length ks <= n)%nat by lia.
  apply (IH (k + 1)).
  rewrite Forall_forall in Hr, Hlt. apply Forall_forall. intros x Hx.
  specialize (Hr x Hx). specialize (Hlt x Hx). lia.
Qed.

Section MoreEnumeration.

Variable NB_EFFECT MAX_KEYS : nat.
Variable default_deadzone : Z.
Variable sdl2_defaults : list (nat * Z).
Variable hash_me : string -> Z.

#[local] Abbreviation new :=
  (SDL2Gamepad_new NB_EFFECT MAX_KEYS default_deadzone sdl2_defaults hash_me).
#[local] Abbreviation enum_from :=
  (enumerate_from NB_EFFECT MAX_KEYS default_deadzone sdl2_defaults hash_me).
#[local] Abbreviation enumerate :=
  (EnumerateSDL2 NB_EFFECT MAX_KEYS default_deadzone sdl2_defaults hash_me).

(** The loop keeps what the registry holds and adds, in the order of their
    indices, the devices that were set up. *)
Lemma enumerate_from_added g_conf sdl n i devices t :
  exists added ks,
    (enum_from g_conf sdl n i devices t).1 = devices ++ added /\
    Forall2 (fun d k =>
               exists t', t `prefix_of` t' /\ d = (new g_conf sdl k t').1 /\
                          m_no_error d = true) added ks /\
    Forall (fun k => i <= k < i + Z.of_nat n) ks /\
    StronglySorted Z.lt ks /\
    t `prefix_of` (enum_from g_conf sdl n i devices t).2.
Proof.
  revert i devices t; induction n as [|n IH]; intros i devices t.
  - exists [], []. cbn [enumerate_from]. rewrite ret_eq, app_nil_r; cbn [fst snd].
    split; [reflexivity|]. split; [by constructor|]. split; [by constructor|].
    split; [by constructor|reflexivity].
  - rewrite enumerate_from_step.
    assert (Hgrow : t `prefix_of` (new g_conf sdl i t).2).
    { destruct (new_cases NB_EFFECT MAX_KEYS default_deadzone sdl2_defaults hash_me
                  g_conf sdl i t)
        as [(_ & _ & _ & oc & -> & _)
           |[(_ & _ & _ & _ & j & oc & -> & _)
            |(c & j & _ & _ & _ & _ & _ & _ & _ & [(_ & _ & _ & ->)|(_ & Hu)])]];
        try by apply prefix_app_r.
      cbv zeta in Hu. destruct Hu as (_ & _ & ->).
      destruct (upload_effects_shape NB_EFFECT g_conf sdl
                  (SDL_HapticOpenFromJoystick sdl (t ++ [Call_GameControllerOpen i]) j)
                  [] (replicate NB_EFFECT (-1))
                  (t ++ [Call_GameControllerOpen i; Call_HapticOpenFromJoystick j]))
        as [(calls & -> & _) _].
      rewrite <- !app_assoc. by apply prefix_app_r. }
    destruct (m_no_error (new g_conf sdl i t).1) eqn:Hno.
    + destruct (IH (i + 1) (devices ++ [(new g_conf sdl i t).1])
                  (new g_conf sdl i t).2) as (added & ks & Hreg & Hall & Hrange & Hsort & Hlog).
      exists ((new g_conf sdl i t).1 :: added), (i :: ks).
      split; [by rewrite Hreg, <- app_assoc|].
      split; [|split; [|split]].
      * constructor; [by exists t|].
        eapply Forall2_impl; [exact Hall|].
        intros d k (t' & Ht' & Hd). exists t'. split; [|exact Hd].
        by transitivity (new g_conf sdl i t).2.
      * constructor; [lia|]. eapply Forall_impl; [exact Hrange|]. intros k; cbn; lia.
      * constructor; [exact Hsort|]. eapply Forall_impl; [exact Hrange|].
        intros k; cbn; lia.
      * by transitivity (new g_conf sdl i t).2.
    + destruct (IH (i + 1) devices
                  (destroy sdl (new g_conf sdl i t).1 (new g_conf sdl i t).2).2)
        as (added & ks & Hreg & Hall & Hrange & Hsort & Hlog).
      assert (Hgrow' : t `prefix_of`
                (destroy sdl (new g_conf sdl i t).1 (new g_conf sdl i t).2).2).
      { rewrite destroy_log; cbn [snd].
        transitivity (new g_conf sdl i t).2; [exact Hgrow|by apply prefix_app_r]. }
      exists added, ks. split; [exact Hreg|]. split; [|split; [|split]].
      * eapply Forall2_impl; [exact Hall|].
        intros d k (t' & Ht' & Hd). exists t'. split; [|exact Hd].
        by etransitivity.
      * eapply Forall_impl; [exact Hrange|]. intros k; cbn; lia.
      * exact Hsort.
      * by etransitivity.
Qed.

Lemma enumerate_passes g_conf sdl devices t :
  ~ init_fails sdl t ->
  enumerate g_conf sdl devices t =
  enum_from g_conf sdl (Z.to_nat (SDL_NumJoysticks sdl)) 0 []
    (t ++ init_calls g_conf sdl t ++ flat_map (release sdl) devices).
Proof.
  intros Hok. unfold EnumerateSDL2.
  rewrite bind_eq, (init_library_passes g_conf sdl t Hok); cbn [fst snd].
  unfold clear. rewrite !bind_eq, destroy_all_log, ret_eq; cbn [fst snd].
  by rewrite <- app_assoc.
Qed.

(** X9: a call of [EnumerateSDL2] that does not return from the
    initialisation first initialises the library if its subsystems are not
    up, and only then, adding the user's mappings in their order after the
    built-in database; then destroys the devices of the old registry in
    registry order; and only then opens devices, from index 0 and an empty
    registry. *)
Theorem enumerate_releases_then_opens g_conf sdl devices t :
  ~ init_fails sdl t ->
  (enumerate g_conf sdl devices t =
     enum_from g_conf sdl (Z.to_nat (SDL_NumJoysticks sdl)) 0 []
       (t ++ init_calls g_conf sdl t ++ flat_map (release sdl) devices)) /\
  (In (Call_Init (init_flags sdl)) (init_calls g_conf sdl t) <->
   Z.land (SDL_WasInit sdl t) (init_flags sdl) <> init_flags sdl) /\
  (forall m, In (Call_AddMapping m) (init_calls g_conf sdl t) ->
             In m (sdl2_mapping g_conf)).
Proof.
  intros Hok. split; [by apply enumerate_passes|].
  unfold init_calls.
  destruct (Z.eqb_spec (Z.land (SDL_WasInit sdl t) (init_flags sdl)) (init_flags sdl))
    as [Hup|Hdown].
  - split; [split; [intros []|contradiction]|intros m []].
  - split; [split; [done|intros _; cbn; tauto]|].
    intros m Hin. cbn in Hin.
    repeat (destruct Hin as [Hin|Hin]; [discriminate|]).
    apply in_map_iff in Hin as (m' & [= ->] & Hin). exact Hin.
Qed.

(** X10: after such a call the registry lists, by increasing index, devices
    the constructor set up for indices from 0 to below
    [SDL_NumJoysticks()], each a game controller of the library holding the
    handle that was opened for its index and the name of the index; so it
    has at most [SDL_NumJoysticks()] entries, none when that is 0 or less,
    and nothing of the old registry.  The log has only grown. *)
Theorem enumerate_registers_by_index g_conf sdl devices t :
  ~ init_fails sdl t ->
  let r := enumerate g_conf sdl devices t in
  (exists ks,
     Forall2 (fun d k =>
                exists t', t `prefix_of` t' /\ d = (new g_conf sdl k t').1 /\
                  SDL_IsGameController sdl k = true /\
                  m_controller d = SDL_GameControllerOpen sdl t' k /\
                  is_Some (m_controller d) /\
                  m_device_name d = SDL_JoystickNameForIndex sdl k) r.1 ks /\
     Forall (fun k => 0 <= k < SDL_NumJoysticks sdl) ks /\
     StronglySorted Z.lt ks) /\
  (length r.1 <= Z.to_nat (SDL_NumJoysticks sdl))%nat /\
  (SDL_NumJoysticks sdl <= 0 -> r.1 = []) /\
  t `prefix_of` r.2.
Proof.
  intros Hok r. unfold r. rewrite (enumerate_passes _ _ _ _ Hok).
  set (t0 := t ++ init_calls g_conf sdl t ++ flat_map (release sdl) devices).
  destruct (enumerate_from_added g_conf sdl (Z.to_nat (SDL_NumJoysticks sdl)) 0 [] t0)
    as (added & ks & Hreg & Hall & Hrange & Hsort & Hlog).
  cbn [app] in Hreg. rewrite Hreg.
  assert (Ht0 : t `prefix_of` t0) by apply prefix_app_r, reflexivity.
  assert (Hlen : (length added <= Z.to_nat (SDL_NumJoysticks sdl))%nat).
  { rewrite (Forall2_length _ _ _ Hall).
    exact (sorted_range_length ks Hsort 0 _ Hrange). }
  split; [|split; [|split]].
  - exists ks. split; [|split; [|exact Hsort]].
    + eapply Forall2_impl; [exact Hall|].
      intros d k (t' & Ht' & Hd & Hno). exists t'.
      split; [by transitivity t0|]. split; [exact Hd|].
      rewrite Hd in Hno.
      destruct (new_cases NB_EFFECT MAX_KEYS default_deadzone sdl2_defaults hash_me
                  g_conf sdl k t')
        as [(Hno' & _)|[(Hno' & _)
           |(c & j & Hgc & Hopen & _ & _ & Hc & _ & Hname & _)]];
        [congruence..|].
      rewrite Hd, Hc, Hopen, Hname. by repeat split.
    + eapply Forall_impl; [exact Hrange|]. intros k; cbn; lia.
  - exact Hlen.
  - intros Hn. replace (Z.to_nat (SDL_NumJoysticks sdl)) with 0%nat in Hlen by lia.
    destruct added; [reflexivity|cbn in Hlen; lia].
  - by transitivity t0.
Qed.

End MoreEnumeration.

Lemma enumerate_releases_then_opens_witness :
  let sdl := Example.machine 24 0 0 in
  let first := EnumerateSDL2 2 Example.MAX_KEYS 1500 Example.defaults Example.hash
                 (Example.config 100 true) sdl [] [] in
  ~ init_fails sdl [] /\
  first =
  enumerate_from 2 Example.MAX_KEYS 1500 Example.defaults Example.hash
    (Example.config 100 true) sdl (Z.to_nat (SDL_NumJoysticks sdl)) 0 []
    ([] ++ init_calls (Example.config 100 true) sdl [] ++ flat_map (release sdl) []).
Proof.
  intros sdl first.
  assert (Hok : ~ init_fails sdl []) by (intros [_ H]; vm_compute in H; discriminate).
  split; [exact Hok|].
  exact (proj1 (enumerate_releases_then_opens 2 Example.MAX_KEYS 1500 Example.defaults
                  Example.hash (Example.config 100 true) sdl [] [] Hok)).
Defined.

Lemma enumerate_registers_by_index_witness :
  let sdl := Example.machine 24 0 0 in
  let r := EnumerateSDL2 2 Example.MAX_KEYS 1500 Example.defaults Example.hash
             (Example.config 100 true) sdl [] [] in
  ~ init_fails sdl [] /\
  (length r.1 <= Z.to_nat (SDL_NumJoysticks sdl))%nat /\
  [] `prefix_of` r.2.
Proof.
  intros sdl r.
  assert (Hok : ~ init_fails sdl []) by (intros [_ H]; vm_compute in H; discriminate).
  destruct (enumerate_registers_by_index 2 Example.MAX_KEYS 1500 Example.defaults
              Example.hash (Example.config 100 true) sdl [] [] Hok)
    as (_ & Hlen & _ & Hlog).
  split; [exact Hok|]. split; [exact Hlen|exact Hlog].
Defined.

(** ** The rumble test and the names of the bindings *)

(** X11: [TestForce] answers true exactly when the device has a haptic
    handle and the rumble played on it was answered with 0.  Without a
    handle it calls nothing.  With one it initialises the rumble, then
    plays it at the given strength for 400 ms, and prints its message
    exactly when it answers false; the effect slots play no part. *)
Theorem TestForce_result play d strength t :
  let r := TestForce play d strength t in
  (r.1 = true <->
   exists h, m_haptic d = Some h /\ play (t ++ [Call_HapticRumbleInit h]) h = 0) /\
  (m_haptic d = None -> r = (false, t)) /\
  (forall h, m_haptic d = Some h ->
     r.2 = t ++ [Call_HapticRumbleInit h; Call_HapticRumblePlay h strength 400]
             ++ (if r.1 then [] else [Call_fprintf_rumble_not_working])) /\
  (forall d', m_haptic d' = m_haptic d -> TestForce play d' strength t = r).
Proof.
  cbv zeta. unfold TestForce. split; [|split; [|split]].
  - destruct (m_haptic d) as [h|]; cbn [fst].
    + destruct (Z.eqb_spec (play (t ++ [Call_HapticRumbleInit h]) h) 0) as [H0|Hne];
        cbn [negb fst].
      * split; [intros _; by exists h|reflexivity].
      * split; [discriminate|]. intros (h' & [= <-] & H0). contradiction.
    + split; [discriminate|]. intros (h & Hh & _). discriminate.
  - intros ->. reflexivity.
  - intros h ->. destruct (negb _); cbn [fst snd]; rewrite <- !app_assoc; reflexivity.
  - intros d' ->. reflexivity.
Qed.

Lemma TestForce_result_witness :
  let d := Example.pad 1500 in
  let r := TestForce (fun _ _ => 0) d (S754_finite false 10066330 (-24)) [] in
  m_haptic d = Some 30%nat /\
  r.1 = true /\
  r.2 = [] ++ [Call_HapticRumbleInit 30%nat;
               Call_HapticRumblePlay 30%nat (S754_finite false 10066330 (-24)) 400]
           ++ (if r.1 then [] else [Call_fprintf_rumble_not_working]).
Proof.
  intros d r.
  assert (Hh : m_haptic d = Some 30%nat) by reflexivity.
  destruct (TestForce_result (fun _ _ => 0) d (S754_finite false 10066330 (-24)) [])
    as (Hiff & _ & Hlog & _).
  split; [exact Hh|]. split.
  - apply Hiff. exists 30%nat. by split.
  - exact (Hlog 30%nat Hh).
Defined.

Section MoreBindings.

Variable NB_EFFECT MAX_KEYS : nat.
Variable default_deadzone : Z.
Variable sdl2_defaults : list (nat * Z).
Variable hash_me : string -> Z.
Variable PAD_L2 PAD_R2 : nat.
Variable IsAnalogKey : nat -> bool.

#[local] Abbreviation new :=
  (SDL2Gamepad_new NB_EFFECT MAX_KEYS default_deadzone sdl2_defaults hash_me).

(** X12: whichever way the constructor returns, a key of the device is
    bound to the raw code of the last pair of the defaults that names it,
    and to code 0 when none does.  So [GetBindingName] shows the name of
    that code, and a key that is no stick direction, no trigger and has no
    default reads the button of code 0: it reads 255 whenever that button
    is down.  Past the table there is no binding, no name and no input. *)
Theorem constructed_bindings g_conf sdl id t key :
  let d := (new g_conf sdl id t).1 in
  let code := default 0 (default_of sdl2_defaults key) in
  ((key < MAX_KEYS)%nat ->
   m_bindings d !! key = Some code /\
   (forall sdl2_key_names,
      0 <= code -> GetBindingName sdl2_key_names d key = sdl2_key_names !! Z.to_nat code) /\
   (forall g_conf' sdl',
      IsAnalogKey key = false -> key <> PAD_L2 -> key <> PAD_R2 ->
      default_of sdl2_defaults key = None ->
      GetInput PAD_L2 PAD_R2 IsAnalogKey g_conf' sdl' d key =
        Some (if SDL_GameControllerGetButton sdl' (m_controller d) 0 =? 0
              then 0 else 255))) /\
  ((MAX_KEYS <= key)%nat ->
   m_bindings d !! key = None /\
   (forall sdl2_key_names, GetBindingName sdl2_key_names d key = None) /\
   (forall g_conf' sdl', GetInput PAD_L2 PAD_R2 IsAnalogKey g_conf' sdl' d key = None)).
Proof.
  intros d code.
  destruct (new_device NB_EFFECT MAX_KEYS default_deadzone sdl2_defaults hash_me
              g_conf sdl id t) as (Hb & _).
  fold d in Hb.
  assert (Hlookup : m_bindings d !! key =
                    if decide (key < MAX_KEYS)%nat then Some code else None).
  { rewrite Hb, store_defaults_lookup, length_replicate. unfold code.
    destruct (default_of sdl2_defaults key) as [v|]; [reflexivity|].
    cbn [default from_option].
    destruct (decide (key < MAX_KEYS)%nat) as [Hlt|Hge].
    - by apply lookup_replicate_2.
    - apply lookup_ge_None. rewrite length_replicate. lia. }
  split.
  - intros Hlt. rewrite decide_True in Hlookup by exact Hlt.
    split; [exact Hlookup|]. split.
    + intros names Hcode. unfold GetBindingName. rewrite Hlookup.
      destruct (Z.ltb_spec code 0); [lia|reflexivity].
    + intros g_conf' sdl' Hkey HL HR Hnone. unfold GetInput.
      rewrite Hkey, Hlookup.
      rewrite bool_decide_eq_false_2 by (intros [?|?]; contradiction).
      unfold code. rewrite Hnone. reflexivity.
  - intros Hge. rewrite decide_False in Hlookup by lia.
    split; [exact Hlookup|]. split.
    + intros names. unfold GetBindingName. by rewrite Hlookup.
    + intros g_conf' sdl'. unfold GetInput. rewrite Hlookup.
      destruct (IsAnalogKey key); [reflexivity|]. by destruct (bool_decide _).
Qed.

End MoreBindings.

Lemma constructed_bindings_witness :
  let d := (SDL2Gamepad_new 2 Example.MAX_KEYS 1500 Example.defaults Example.hash
              (Example.config 100 true) (Example.machine 24 0 0) 0 []).1 in
  m_bindings d !! Example.PAD_CROSS = Some 0 /\
  m_bindings d !! 7%nat = Some 0 /\
  GetInput Example.PAD_L2 Example.PAD_R2 Example.IsAnalogKey
    (Example.config 100 true) (Example.machine 24 0 0) d 7 = Some 255 /\
  m_bindings d !! Example.MAX_KEYS = None.
Proof.
  intros d.
  pose proof (constructed_bindings 2 Example.MAX_KEYS 1500 Example.defaults
                Example.hash Example.PAD_L2 Example.PAD_R2 Example.IsAnalogKey
                (Example.config 100 true) (Example.machine 24 0 0) 0 []) as H.
  destruct (H Example.PAD_CROSS) as [Hc _].
  destruct (H 7%nat) as [H7 _].
  destruct (H Example.MAX_KEYS) as [_ Hm].
  assert (Hlt6 : (Example.PAD_CROSS < Example.MAX_KEYS)%nat) by (vm_compute; lia).
  assert (Hlt7 : (7 < Example.MAX_KEYS)%nat) by (vm_compute; lia).
  assert (Hge : (Example.MAX_KEYS <= Example.MAX_KEYS)%nat) by lia.
  destruct (Hc Hlt6) as (Hb6 & _).
  destruct (H7 Hlt7) as (Hb7 & _ & Hin7).
  destruct (Hm Hge) as (Hbm & _).
  split; [exact Hb6|]. split; [exact Hb7|]. split; [|exact Hbm].
  apply (Hin7 (Example.config 100 true) (Example.machine 24 0 0));
    [reflexivity|discriminate|discriminate|reflexivity].
Defined.

(** ** The scaling of a stick, further *)

(** An exact product below [2 ^ (prec - 1)] rounds to a number whose
    integer part is at least that of the product. *)
Lemma rounded_floor_ge prec emax m e :
  0 < prec -> emin prec emax <= 0 -> 0 <= m -> e <= 0 ->
  Zdigits2 m + e < prec ->
  m / 2 ^ (- e)
  <= floor_scaled (rounded prec emax m e loc_Exact).1 (rounded prec emax m e loc_Exact).2.
Proof.
  intros Hprec emin_neg Hm He Hd. unfold rounded, shr_fexp.
  set (n := fexp prec emax (Zdigits2 m + e) - e).
  destruct (shr_spec (shr_record_of_loc m loc_Exact) e n) as (Hq & He1 & _).
  { cbn. lia. }
  rewrite shr_record_of_loc_m in Hq.
  set (r1 := shr (shr_record_of_loc m loc_Exact) e n) in *.
  destruct (round_nearest_even_bounds r1.1) as [Hm1 _].
  set (m1 := round_nearest_even (shr_m r1.1) (loc_of_shr_record r1.1)) in *.
  assert (Hq0 : 0 <= shr_m r1.1) by (rewrite Hq; apply Z.div_pos; lia).
  set (n2 := fexp prec emax (Zdigits2 m1 + r1.2) - r1.2).
  destruct (shr_spec (shr_record_of_loc m1 loc_Exact) r1.2 n2) as (Hm2 & He2 & _).
  { cbn. lia. }
  rewrite shr_record_of_loc_m in Hm2.
  rewrite Hm2, He2. cbn [fst snd].
  assert (Hd1 : Zdigits2 m1 <= Zdigits2 (shr_m r1.1) + 1).
  { etransitivity; [apply (Zdigits2_le m1 (shr_m r1.1 + 1)); lia|].
    by apply Zdigits2_succ. }
  assert (Hdq : Zdigits2 (shr_m r1.1) <= Z.max (Zdigits2 m - Z.max n 0) 0).
  { rewrite Hq. apply Zdigits2_div_pow2; lia. }
  pose proof (Zdigits2_nonneg m) as Hdm.
  assert (He1' : r1.2 <= 0).
  { clear - He1 He Hd emin_neg. subst n. unfold fexp in *. clearbody r1. lia. }
  assert (He2' : r1.2 + Z.max n2 0 <= 0).
  { clear - He1 He Hd emin_neg Hd1 Hdq Hdm Hprec He1'.
    subst n n2. unfold fexp in *. clearbody m1 r1. lia. }
  rewrite floor_scaled_nonpos_exp by exact He2'.
  assert (Hn2 : 0 <= Z.max n2 0) by lia.
  assert (Hn : 0 <= Z.max n 0) by lia.
  rewrite Z.div_div, <- Z.pow_add_r by lia.
  replace (Z.max n2 0 + - (r1.2 + Z.max n2 0)) with (- r1.2) by lia.
  transitivity (shr_m r1.1 / 2 ^ (- r1.2)).
  - rewrite Hq, He1, Z.div_div, <- Z.pow_add_r by lia.
    replace (Z.max n 0 + - (e + Z.max n 0)) with (- e) by lia. lia.
  - apply Z.div_le_mono; [|lia]. apply Z.pow_pos_nonneg; lia.
Qed.

(** [value *= k] for a factor that is the integer [n]: the product is
    exact. *)
Lemma scale_integer v mk ek n :
  v <> 0 -> ek <= 0 -> 0 < n ->
  Z.pos mk = n * 2 ^ (- ek) -> Z.abs v * n < 2 ^ 23 ->
  scale v (S754_finite false mk ek) = Some (v * n).
Proof.
  intros Hv Hek Hn Hmk Hlt.
  assert (Hv24 : Z.abs v < 2 ^ 24) by nia.
  destruct (float_of_int_exact v Hv Hv24) as (mv & ev & Hf & Hev & Hmv).
  unfold scale, float_mul. rewrite Hf. cbn [SFmul].
  rewrite binary_round_aux_rounded.
  set (M := Z.pos (mv * mk)). set (e := ev + ek).
  assert (H2k : 0 < 2 ^ (- ek)) by lia.
  assert (H2v : 0 < 2 ^ (- ev)) by lia.
  assert (H2e : 2 ^ (- e) = 2 ^ (- ev) * 2 ^ (- ek)).
  { unfold e. rewrite <- Z.pow_add_r by lia. f_equal. lia. }
  set (q := Z.abs v * n).
  assert (Hq0 : 0 < q) by (unfold q; nia).
  assert (HM : M = q * 2 ^ (- e)).
  { unfold M, q. rewrite Pos2Z.inj_mul, Hmv, Hmk, H2e. ring. }
  assert (H2e0 : 0 < 2 ^ (- e)) by nia.
  assert (Hdig : Zdigits2 M + e < 24).
  { assert (Zdigits2 M <= 23 - e); [|lia].
    apply Zdigits2_le_of_lt; [|lia]. split; [lia|].
    replace (23 - e) with (23 + - e) by lia.
    rewrite Z.pow_add_r by lia. fold q in Hlt. nia. }
  destruct (rounded_bounds 24 128 M e loc_Exact) as (Hm2 & He2 & _); [lia..|].
  pose proof (rounded_exact_floor 24 128 M e) as Hup.
  specialize (Hup ltac:(cbv; discriminate) ltac:(lia) ltac:(lia) ltac:(lia)).
  pose proof (rounded_floor_ge 24 128 M e) as Hlow.
  specialize (Hlow ltac:(lia) ltac:(cbv; discriminate) ltac:(lia) ltac:(lia) Hdig).
  assert (Hfloor : M / 2 ^ (- e) = q) by (rewrite HM; apply Z.div_mul; lia).
  assert (Hceil : (M + 2 ^ (- e) - 1) / 2 ^ (- e) = q).
  { symmetry. apply (Z.div_unique _ _ q (2 ^ (- e) - 1)); lia. }
  rewrite Hfloor in Hlow. rewrite Hceil in Hup.
  destruct (rounded 24 128 M e loc_Exact) as [m2 e2]; cbn [fst snd] in *.
  destruct m2 as [|p|p]; [|clear Hm2|lia].
  { exfalso. unfold floor_scaled in Hlow.
    destruct (e2 <? 0); rewrite ?Zdiv_0_l, ?Z.mul_0_l in Hlow; clear - Hlow Hq0;
      clearbody q; lia. }
  assert (He2' : e2 <= 128 - 24) by (unfold emin in *; lia).
  destruct (Z.leb_spec e2 (128 - 24)); [|lia].
  cbn [int_of_float]. rewrite truncate_floor_scaled.
  assert (Hval : floor_scaled (Z.pos p) e2 = q) by lia.
  rewrite Hval, xorb_false_r.
  assert (Hz : cond_Zopp (v <? 0) q = v * n).
  { unfold q. destruct (Z.ltb_spec v 0); cbn [cond_Zopp]; nia. }
  rewrite Hz.
  assert (Hmin : INT_MIN = - 2 ^ 31) by reflexivity.
  assert (Hmax : INT_MAX = 2 ^ 31 - 1) by reflexivity.
  assert (Z.abs (v * n) < 2 ^ 23) by (rewrite Z.abs_mul; nia).
  destruct (Z.leb_spec INT_MIN (v * n)); destruct (Z.leb_spec (v * n) INT_MAX);
    cbn [andb]; [reflexivity|lia..].
Qed.

(** The sign of a rounded number is the sign that was given. *)
Lemma binary_round_aux_opp prec emax sx m e l :
  binary_round_aux prec emax (negb sx) m e l =
  SFopp (binary_round_aux prec emax sx m e l).
Proof.
  rewrite !binary_round_aux_rounded.
  destruct (rounded prec emax m e l).1; [reflexivity| |reflexivity].
  by destruct (_ <=? _).
Qed.

Lemma float_of_int_opp v : v <> 0 -> float_of_int (- v) = SFopp (float_of_int v).
Proof.
  intros Hv. unfold float_of_int, binary_normalize.
  destruct v as [|p|p]; [congruence|..].
  - change (- Z.pos p) with (Z.neg p). cbv beta iota. unfold binary_round.
    destruct (shl_align _ _ _) as [mz ez].
    exact (binary_round_aux_opp 24 128 false _ _ _).
  - change (- Z.neg p) with (Z.pos p). cbv beta iota. unfold binary_round.
    destruct (shl_align _ _ _) as [mz ez].
    exact (binary_round_aux_opp 24 128 true _ _ _).
Qed.

Lemma float_mul_opp x y : float_mul (SFopp x) y = SFopp (float_mul x y).
Proof.
  unfold float_mul.
  destruct x as [sx|sx| |sx mx ex], y as [sy|sy| |sy my ey]; cbn [SFmul SFopp];
    try reflexivity; try (by destruct sx, sy).
  replace (xorb (negb sx) sy) with (negb (xorb sx sy)) by (by destruct sx, sy).
  apply binary_round_aux_opp.
Qed.

Lemma int_of_float_range x z : int_of_float x = Some z -> INT_MIN <= z <= INT_MAX.
Proof.
  destruct x as [s|s| |s m e]; cbn [int_of_float]; try discriminate.
  - intros [= <-]. unfold INT_MIN, INT_MAX. lia.
  - destruct (Z.leb_spec INT_MIN (truncate s m e));
      destruct (Z.leb_spec (truncate s m e) INT_MAX); cbn [andb];
      try discriminate.
    intros [= <-]. lia.
Qed.

Lemma int_of_float_opp x z :
  int_of_float x = Some z -> z <> INT_MIN -> int_of_float (SFopp x) = Some (- z).
Proof.
  intros Hx Hmin. pose proof (int_of_float_range x z Hx) as Hr. revert Hx.
  destruct x as [s|s| |s m e]; cbn [int_of_float SFopp]; try discriminate.
  - by intros [= <-].
  - assert (Hopp : truncate (negb s) m e = - truncate s m e).
    { unfold truncate. destruct s; cbn [negb cond_Zopp]; lia. }
    rewrite Hopp.
    destruct (Z.leb_spec INT_MIN (truncate s m e));
      destruct (Z.leb_spec (truncate s m e) INT_MAX); cbn [andb];
      try discriminate.
    intros [= <-].
    assert (Hmm : INT_MIN = - INT_MAX - 1) by reflexivity.
    destruct (Z.leb_spec INT_MIN (- truncate s m e));
      destruct (Z.leb_spec (- truncate s m e) INT_MAX); cbn [andb];
      [reflexivity|lia..].
Qed.

(** Scaling is odd in the value. *)
Lemma scale_opp v k z :
  scale v k = Some z -> z <> INT_MIN ->
  scale (- v) k = Some (- z) /\ - z <> INT_MIN.
Proof.
  intros Hs Hmin.
  pose proof (int_of_float_range _ _ Hs) as Hr.
  assert (Hmm : INT_MIN = - INT_MAX - 1) by reflexivity.
  split; [|lia].
  destruct (Z.eq_dec v 0) as [->|Hv].
  - change (- 0) with 0. rewrite Hs. f_equal. revert Hs. unfold scale, float_mul.
    change (float_of_int 0) with (S754_zero false).
    destruct k as [sk|sk| |sk mk ek]; cbn; try discriminate; by intros [= <-].
  - unfold scale in *. rewrite float_of_int_opp, float_mul_opp by exact Hv.
    by apply int_of_float_opp.
Qed.

(** The sign of a converted integer. *)
Lemma float_of_int_sign v :
  match float_of_int v with
  | S754_finite s _ _ => s = (v <? 0)
  | _ => True
  end.
Proof.
  unfold float_of_int, binary_normalize.
  destruct v as [|p|p]; [exact I|..]; unfold binary_round;
    destruct (shl_align _ _ _) as [mz ez];
    rewrite binary_round_aux_rounded;
    (destruct (rounded 24 128 (Z.pos mz) ez loc_Exact).1; [exact I| |exact I]);
    by destruct (_ <=? _).
Qed.

(** Scaling by a factor that is not negative keeps the sign. *)
Lemma scale_sign v k z :
  match k with
  | S754_zero _ | S754_finite false _ _ => True
  | _ => False
  end ->
  scale v k = Some z -> 0 <= z * v.
Proof.
  intros Hk. unfold scale, float_mul.
  pose proof (float_of_int_sign v) as Hsign.
  destruct (float_of_int v) as [sv|sv| |sv mv ev],
           k as [sk|sk| |[|] mk ek]; try contradiction;
    cbn [SFmul int_of_float]; try discriminate; try (intros [= <-]; lia).
  rewrite binary_round_aux_rounded, xorb_false_r.
  destruct (rounded 24 128 (Z.pos (mv * mk)) (ev + ek) loc_Exact) as [m2 e2];
    cbn [fst snd].
  destruct m2 as [|p|p]; cbn [int_of_float]; try discriminate;
    [intros [= <-]; lia|].
  destruct (e2 <=? 128 - 24); cbn [int_of_float]; [|discriminate].
  destruct (_ && _); [|discriminate]. intros [= <-].
  rewrite truncate_floor_scaled.
  pose proof (floor_scaled_nonneg (Z.pos p) e2 ltac:(lia)) as Hnn.
  subst sv. destruct (Z.ltb_spec v 0); cbn [cond_Zopp]; nia.
Qed.

Section MoreStick.

Variable PAD_L2 PAD_R2 : nat.
Variable IsAnalogKey : nat -> bool.

#[local] Abbreviation get_input := (GetInput PAD_L2 PAD_R2 IsAnalogKey).

(** X13: a stick direction answers a mirrored raw value with the mirrored
    result, whatever the sensitivity and the dead zone: where the raw value
    [v] reads [z], the raw value [- v] reads [- z].  The raw value -32768
    has no mirror among the values an axis can take. *)
Theorem stick_input_mirrored g_conf sdl sdl' d input code :
  IsAnalogKey input = true ->
  m_bindings d !! input = Some code ->
  (axis sdl' d code = - axis sdl d code ->
   forall z, get_input g_conf sdl d input = Some z ->
             get_input g_conf sdl' d input = Some (- z)) /\
  (axis sdl d code = -32768 -> axis sdl' d code <> - axis sdl d code).
Proof.
  intros Hkey Hcode. split.
  - intros Hax z. unfold GetInput. rewrite Hkey, Hcode, Hax.
    destruct (scale (axis sdl d code) _) as [val|] eqn:Hs; [|discriminate].
    unfold abs at 1. destruct (Z.eqb_spec val INT_MIN) as [|Hmin]; [discriminate|].
    intros [= <-].
    destruct (scale_opp _ _ _ Hs Hmin) as [-> Hmin'].
    unfold abs. destruct (Z.eqb_spec (- val) INT_MIN); [contradiction|].
    rewrite Z.abs_opp. by destruct (_ >? _).
  - intros Hv Hax. rewrite Hv in Hax.
    pose proof (to_Sint16_range
                  (SDL_GameControllerGetAxis sdl' (m_controller d) code)) as Hr.
    unfold axis in Hax. lia.
Qed.

(** X14: for a sensitivity from 0 to 51199 percent a stick direction never
    changes the sign of what it reads: the result is 0 or has the sign of
    the raw value, and when it is not 0 its magnitude is above the dead
    zone.  A raw value of 0 reads 0, and at sensitivity 0 everything reads
    0. *)
Theorem stick_input_keeps_sign g_conf sdl d input code :
  IsAnalogKey input = true ->
  m_bindings d !! input = Some code ->
  0 <= get_sensibility g_conf <= 51199 ->
  exists z,
    get_input g_conf sdl d input = Some z /\
    0 <= z * axis sdl d code /\
    (z = 0 \/ m_deadzone d < Z.abs z) /\
    (axis sdl d code = 0 -> z = 0) /\
    (get_sensibility g_conf = 0 -> z = 0).
Proof.
  intros Hkey Hcode Hs. unfold axis.
  set (v := to_Sint16 (SDL_GameControllerGetAxis sdl (m_controller d) code)).
  destruct (scale_stick_bound (get_sensibility g_conf) v Hs (to_Sint16_range _))
    as (z0 & Hz0 & Hb).
  destruct (stick_bound_below _ Hs) as [HN0 HN].
  assert (Hmin : z0 <> INT_MIN) by (unfold INT_MIN; lia).
  assert (Hsign : 0 <= z0 * v).
  { apply (scale_sign v (factor (get_sensibility g_conf))); [|exact Hz0].
    destruct (factor_below_bound (get_sensibility g_conf))
      as [->|(mk & ek & -> & _)]; [lia|exact HN|exact I|exact I]. }
  exists (if Z.abs z0 >? m_deadzone d then z0 else 0).
  split; [exact (GetInput_stick PAD_L2 PAD_R2 IsAnalogKey sdl g_conf d input code z0
                   Hkey Hcode Hz0 Hmin)|].
  destruct (Z.gtb_spec (Z.abs z0) (m_deadzone d)) as [Hgt|Hle].
  - split; [exact Hsign|]. split; [right; lia|]. split.
    + intros Hv0. fold v in Hv0. rewrite Hv0, scale_zero in Hz0 by lia. congruence.
    + intros H0. rewrite H0 in Hb. change (stick_bound 0) with 0 in Hb. lia.
  - split; [lia|]. split; [by left|]. by split.
Qed.

(** X15: when the factor of the sensitivity is exactly an integer [n]
    from 1 to 255, as it is at 100 percent for 1, the scaling is exact: a
    stick direction reads [n] times the raw value when that is above the
    dead zone in magnitude, and 0 otherwise.  At 100 percent it reads the
    raw value unchanged. *)
Theorem stick_input_integer_factor g_conf sdl d input code n :
  IsAnalogKey input = true ->
  m_bindings d !! input = Some code ->
  1 <= n <= 255 ->
  factor (get_sensibility g_conf) = float_of_int n ->
  get_input g_conf sdl d input =
    Some (if Z.abs (axis sdl d code * n) >? m_deadzone d
          then axis sdl d code * n else 0).
Proof.
  intros Hkey Hcode Hn Hf. unfold axis.
  set (v := to_Sint16 (SDL_GameControllerGetAxis sdl (m_controller d) code)).
  pose proof (to_Sint16_range
                (SDL_GameControllerGetAxis sdl (m_controller d) code)) as Hv.
  fold v in Hv.
  assert (Hscale : scale v (factor (get_sensibility g_conf)) = Some (v * n)).
  { rewrite Hf.
    destruct (float_of_int_exact n) as (mk & ek & Hk & Hek & Hmk); [lia..|].
    rewrite Hk. destruct (Z.ltb_spec n 0); [lia|].
    destruct (Z.eq_dec v 0) as [->|Hv0]; [reflexivity|].
    apply scale_integer; [exact Hv0|exact Hek|lia| |].
    - rewrite Hmk. f_equal. lia.
    - clearbody v. nia. }
  apply (GetInput_stick PAD_L2 PAD_R2 IsAnalogKey sdl g_conf d input code (v * n)
           Hkey Hcode Hscale).
  unfold INT_MIN. clearbody v. nia.
Qed.

End MoreStick.

Lemma stick_input_mirrored_witness :
  let d := Example.pad 1500 in
  GetInput Example.PAD_L2 Example.PAD_R2 Example.IsAnalogKey
    (Example.config 150 true) (Example.machine 24 20001 0) d Example.PAD_L_UP
    = Some 30001 /\
  GetInput Example.PAD_L2 Example.PAD_R2 Example.IsAnalogKey
    (Example.config 150 true) (Example.machine 24 (-20001) 0) d Example.PAD_L_UP
    = Some (- 30001).
Proof.
  intros d.
  assert (H1 : GetInput Example.PAD_L2 Example.PAD_R2 Example.IsAnalogKey
                 (Example.config 150 true) (Example.machine 24 20001 0) d
                 Example.PAD_L_UP = Some 30001) by (vm_compute; reflexivity).
  split; [exact H1|].
  exact (proj1 (stick_input_mirrored Example.PAD_L2 Example.PAD_R2
                  Example.IsAnalogKey (Example.config 150 true)
                  (Example.machine 24 20001 0) (Example.machine 24 (-20001) 0)
                  d Example.PAD_L_UP 1 eq_refl eq_refl) eq_refl 30001 H1).
Defined.

Lemma stick_input_keeps_sign_witness :
  exists z,
    GetInput Example.PAD_L2 Example.PAD_R2 Example.IsAnalogKey
      (Example.config 150 true) (Example.machine 24 (-20001) 0) (Example.pad 1500)
      Example.PAD_L_UP = Some z /\
    0 <= z * axis (Example.machine 24 (-20001) 0) (Example.pad 1500) 1 /\
    (z = 0 \/ m_deadzone (Example.pad 1500) < Z.abs z).
Proof.
  destruct (stick_input_keeps_sign Example.PAD_L2 Example.PAD_R2
              Example.IsAnalogKey (Example.config 150 true)
              (Example.machine 24 (-20001) 0) (Example.pad 1500)
              Example.PAD_L_UP 1 eq_refl eq_refl)
    as (z & Hz & Hsign & Hdz & _).
  { cbn. lia. }
  exists z. split; [exact Hz|]. split; [exact Hsign|exact Hdz].
Defined.

Lemma stick_input_integer_factor_witness :
  factor 100 = float_of_int 1 /\
  factor 200 = float_of_int 2 /\
  GetInput Example.PAD_L2 Example.PAD_R2 Example.IsAnalogKey
    (Example.config 100 true) (Example.machine 24 (-20001) 0) (Example.pad 1500)
    Example.PAD_L_UP = Some (- 20001) /\
  GetInput Example.PAD_L2 Example.PAD_R2 Example.IsAnalogKey
    (Example.config 200 true) (Example.machine 24 700 0) (Example.pad 1500)
    Example.PAD_L_UP = Some 0.
Proof.
  assert (H1 : factor 100 = float_of_int 1) by (vm_compute; reflexivity).
  assert (H2 : factor 200 = float_of_int 2) by (vm_compute; reflexivity).
  split; [exact H1|]. split; [exact H2|]. split.
  - exact (stick_input_integer_factor Example.PAD_L2 Example.PAD_R2
             Example.IsAnalogKey (Example.config 100 true)
             (Example.machine 24 (-20001) 0) (Example.pad 1500)
             Example.PAD_L_UP 1 1 eq_refl eq_refl ltac:(lia) H1).
  - exact (stick_input_integer_factor Example.PAD_L2 Example.PAD_R2
             Example.IsAnalogKey (Example.config 200 true)
             (Example.machine 24 700 0) (Example.pad 1500)
             Example.PAD_L_UP 1 2 eq_refl eq_refl ltac:(lia) H2).
Defined.

(** ** Sessions of the device manager *)

Lemma init_fails_dec sdl t : init_fails sdl t \/ ~ init_fails sdl t.
Proof.
  unfold init_fails.
  destruct (Z.eq_dec (Z.land (SDL_WasInit sdl t) (init_flags sdl)) (init_flags sdl));
    destruct (Z_lt_dec (SDL_Init sdl (t ++ [Call_SetHint_background_events])
                          (init_flags sdl)) 0); tauto.
Qed.

Section Sessions.

Variable NB_EFFECT MAX_KEYS : nat.
Variable default_deadzone : Z.
Variable sdl2_defaults : list (nat * Z).
Variable hash_me : string -> Z.
Variable sdl : SDL.

#[local] Abbreviation enum_from :=
  (enumerate_from NB_EFFECT MAX_KEYS default_deadzone sdl2_defaults hash_me).
#[local] Abbreviation enumerate :=
  (EnumerateSDL2 NB_EFFECT MAX_KEYS default_deadzone sdl2_defaults hash_me).
#[local] Abbreviation in_session :=
  (session NB_EFFECT MAX_KEYS default_deadzone sdl2_defaults hash_me sdl).

Hypothesis sdl_stays_up : stays_up sdl.

Lemma subsystems_up_prefix t t' :
  t `prefix_of` t' -> subsystems_up sdl t -> subsystems_up sdl t'.
Proof. intros [k ->]. apply sdl_stays_up. Qed.

(** The subsystems are up once the first block of [EnumerateSDL2] is
    passed. *)
Lemma subsystems_up_after_init g_conf t :
  ~ init_fails sdl t -> subsystems_up sdl (t ++ init_calls g_conf sdl t).
Proof.
  intros Hok. unfold init_calls.
  destruct (Z.eqb_spec (Z.land (SDL_WasInit sdl t) (init_flags sdl)) (init_flags sdl))
    as [Hup|Hdown].
  - by rewrite app_nil_r.
  - assert (Hinit : 0 <= SDL_Init sdl (t ++ [Call_SetHint_background_events])
                           (init_flags sdl)).
    { destruct (Z.le_gt_cases 0 (SDL_Init sdl (t ++ [Call_SetHint_background_events])
                                   (init_flags sdl))) as [|Hneg]; [assumption|].
      exfalso. apply Hok. split; [exact Hdown|lia]. }
    apply (proj2 sdl_stays_up) in Hinit.
    eapply subsystems_up_prefix; [|exact Hinit].
    rewrite <- app_assoc. apply prefix_app, prefix_cons, prefix_cons, prefix_nil.
Qed.

(** While the registry holds a device the subsystems are up. *)
Lemma session_up devices t :
  in_session devices t -> devices = [] \/ subsystems_up sdl t.
Proof.
  induction 1 as [t|devices g_conf t _ IH|devices t t' _ IH].
  - by left.
  - destruct (init_fails_dec sdl t) as [Hfail|Hok].
    + rewrite (enumerate_init_fails NB_EFFECT MAX_KEYS default_deadzone sdl2_defaults
                 hash_me g_conf sdl devices t Hfail). cbn [fst snd].
      destruct IH as [->|Hup]; [by left|].
      destruct Hfail as [Hdown _]. contradiction.
    + right.
      rewrite (enumerate_passes NB_EFFECT MAX_KEYS default_deadzone sdl2_defaults
                 hash_me g_conf sdl devices t Hok).
      destruct (enumerate_from_added NB_EFFECT MAX_KEYS default_deadzone
                  sdl2_defaults hash_me g_conf sdl
                  (Z.to_nat (SDL_NumJoysticks sdl)) 0 []
                  (t ++ init_calls g_conf sdl t ++ flat_map (release sdl) devices))
        as (_ & _ & _ & _ & _ & _ & Hlog).
      eapply subsystems_up_prefix; [exact Hlog|].
      rewrite app_assoc. apply sdl_stays_up.
      by apply subsystems_up_after_init.
  - destruct IH as [->|Hup]; [by left|right]. by apply sdl_stays_up.
Qed.


End Sessions.

Lemma count_inits_app t t' :
  Example.count_inits (t ++ t') = (Example.count_inits t + Example.count_inits t')%nat.
Proof.
  induction t as [|c t IH]; [reflexivity|].
  destruct c; cbn [app Example.count_inits]; rewrite IH; reflexivity.
Qed.

Lemma retry_machine_stays_up : stays_up Example.retry_machine.
Proof.
  split.
  - intros t t'. unfold subsystems_up. cbn [SDL_WasInit Example.retry_machine].
    rewrite count_inits_app.
    destruct (Nat.leb_spec 2 (Example.count_inits t)) as [Hge|Hlt].
    + intros _.
      destruct (Nat.leb_spec 2 (Example.count_inits t + Example.count_inits t'));
        [reflexivity|lia].
    + intros Hup. vm_compute in Hup. discriminate Hup.
  - intros t. unfold subsystems_up. cbn [SDL_WasInit SDL_Init Example.retry_machine].
    rewrite count_inits_app. cbn [Example.count_inits].
    destruct (Nat.eqb_spec (Example.count_inits t) 0) as [H0|Hne]; [lia|].
    intros _.
    destruct (Nat.leb_spec 2 (Example.count_inits t + 1)); [reflexivity|lia].
Qed.

